(** * pfvault: the encrypted personal-finance vault

    A shallow embedding of the vault implemented in the single client
    module of the repository: the Web Crypto helpers ([b64encode],
    [b64decode], [toHex], [fromHex], [randBytes], [pbkdf2], [hashAnswer],
    [encryptJson], [decryptJson]), the storage helpers ([loadState],
    [saveState], [clearState]), the setup and login screens
    ([handleSetup], [verifyPassword], [verifyQuestions]) and the handlers
    of the main component ([persist], [onAddCategory], ..., [onReset]).

    Conventions of the model.
    - An [ArrayBuffer] / [Uint8Array] is a [list byte].
    - A JavaScript string is a [string]; a text string stands for the
      bytes of its UTF-8 encoding, so [TextEncoder.encode] is
      [list_byte_of_string].  Binary strings (the argument of [btoa], the
      result of [atob]) have one character per byte.
    - A JavaScript [number] is a double: a primitive [float] (amounts
      and rates of the payload).  [Number.to_json] and
      [Number.of_decimal] are the decimal writing and reading of
      [JSON.stringify] and [JSON.parse].
    - A computation that can throw (or an [async] function whose promise
      can reject) returns an [option]; [None] is the exception.
    - A call takes as many arguments as the engine allows (class
      [Engine]); [String.fromCharCode(...bytes)] throws beyond that.
    - A plain object used as a map ([answers] of the login screen) is
      the finite map of its own properties; reading a name it does not
      have falls back to what [Object.prototype] gives for that name.
    - The browser objects the module reads ([window], [window.crypto],
      [crypto.subtle], [localStorage]) are explicit: an [Env] record for
      what is present, a cell for the storage key, and a generator state
      for [getRandomValues]. *)

From Stdlib Require Import ZArith NArith Lia List Bool.
From Stdlib.Strings Require Import Ascii String Byte.
From Stdlib Require Import PrimFloat SpecFloat FloatOps.
From stdpp Require Import base option list strings gmap pretty.

Set Warnings "-register-all".

Import ListNotations.
Local Open Scope string_scope.
Local Open Scope list_scope.

(* ================================================================== *)
(** * Bytes and characters *)
(* ================================================================== *)

Module Bytes.

(** Store of a number into a [Uint8Array] slot: reduction modulo 256. *)
Definition byte_of_N (n : N) : byte :=
  match Byte.of_N (n mod 256) with
  | Some b => b
  | None => x00
  end.

Definition codes (s : string) : list N :=
  map N_of_ascii (list_ascii_of_string s).

Definition of_codes (l : list N) : string :=
  string_of_list_ascii (map ascii_of_N l).

Definition is_byte (n : N) : Prop := (n < 256)%N.

End Bytes.

(* ================================================================== *)
(** * Hexadecimal: [toHex] and [fromHex] *)
(* ================================================================== *)

Module Hex.

(** One digit of [Number.prototype.toString(16)]. *)
Definition digit (n : N) : ascii :=
  if (n <? 10)%N then ascii_of_N (48 + n) else ascii_of_N (87 + n).

(** [b.toString(16)] for a byte [b]: no leading zero. *)
Definition toString16 (n : N) : string :=
  if (n <? 16)%N then String (digit n) EmptyString
  else String (digit (n / 16)) (String (digit (n mod 16)) EmptyString).

(** [s.padStart(2, '0')]. *)
Definition padStart2 (s : string) : string :=
  match s with
  | EmptyString => "00"
  | String c EmptyString => String "0"%char (String c EmptyString)
  | _ => s
  end.

(** Value of a hexadecimal digit, either case. *)
Definition digit_value (c : ascii) : option N :=
  let n := N_of_ascii c in
  if ((48 <=? n) && (n <=? 57))%N then Some (n - 48)%N
  else if ((97 <=? n) && (n <=? 102))%N then Some (n - 87)%N
  else if ((65 <=? n) && (n <=? 70))%N then Some (n - 55)%N
  else None.

(** The white space [parseInt] skips (the ASCII part of it). *)
Definition is_space (c : ascii) : bool :=
  let n := N_of_ascii c in
  ((n =? 32) || ((9 <=? n) && (n <=? 13)))%N.

Fixpoint skip_spaces (s : string) : string :=
  match s with
  | String c r => if is_space c then skip_spaces r else s
  | EmptyString => EmptyString
  end.

(** Longest prefix of hexadecimal digits, as a number; [None] when the
    prefix is empty. *)
Fixpoint digits_prefix (acc : option N) (s : string) : option N :=
  match s with
  | String c r =>
      match digit_value c with
      | Some d =>
          digits_prefix
            (Some (match acc with Some a => a * 16 + d | None => d end)%N) r
      | None => acc
      end
  | EmptyString => acc
  end.

Definition strip_0x (s : string) : string :=
  match s with
  | String "0"%char (String "x"%char r) => r
  | String "0"%char (String "X"%char r) => r
  | _ => s
  end.

(** [parseInt(s, 16)]: leading white space, an optional sign, an
    optional [0x], then the longest run of digits.  [None] is [NaN]. *)
Definition parseInt16 (s : string) : option Z :=
  let s1 := skip_spaces s in
  let '(neg, s2) :=
    match s1 with
    | String "-"%char r => (true, r)
    | String "+"%char r => (false, r)
    | _ => (false, s1)
    end in
  match digits_prefix None (strip_0x s2) with
  | Some n => Some (if neg then (- Z.of_N n)%Z else Z.of_N n)
  | None => None
  end.

(** [bytes[i] = v] on a [Uint8Array]: [NaN] is stored as 0, other
    values modulo 256. *)
Definition store_uint8 (v : option Z) : byte :=
  match v with
  | Some z => Bytes.byte_of_N (Z.to_N (z mod 256))
  | None => x00
  end.

Definition byteHex (b : byte) : string :=
  padStart2 (toString16 (Byte.to_N b)).

(** [[...new Uint8Array(buf)].map(b => b.toString(16).padStart(2,'0')).join('')] *)
Definition toHex (buf : list byte) : string :=
  String.concat EmptyString (map byteHex buf).

(** The loop of [fromHex]: [count] slots, slot [i] read from
    [hex.substr(i * 2, 2)]. *)
Fixpoint fromHex_loop (hex : string) (i count : nat) : list byte :=
  match count with
  | O => []
  | S k =>
      store_uint8 (parseInt16 (String.substring (i * 2) 2 hex))
        :: fromHex_loop hex (S i) k
  end.

(** [new Uint8Array(hex.length / 2)] truncates the length. *)
Definition fromHex (hex : string) : list byte :=
  fromHex_loop hex 0 (String.length hex / 2).

End Hex.

(* ================================================================== *)
(** * Base64: [btoa] and [atob] *)
(* ================================================================== *)

Module Base64.

Definition pad : ascii := "="%char.

Definition char_of (n : N) : ascii :=
  if (n <? 26)%N then ascii_of_N (65 + n)
  else if (n <? 52)%N then ascii_of_N (71 + n)
  else if (n <? 62)%N then ascii_of_N (n - 4)
  else if (n =? 62)%N then "+"%char
  else "/"%char.

Definition index_of (c : ascii) : option N :=
  let n := N_of_ascii c in
  if ((65 <=? n) && (n <=? 90))%N then Some (n - 65)%N
  else if ((97 <=? n) && (n <=? 122))%N then Some (n - 71)%N
  else if ((48 <=? n) && (n <=? 57))%N then Some (n + 4)%N
  else if (n =? 43)%N then Some 62%N
  else if (n =? 47)%N then Some 63%N
  else None.

(** The 6-bit groups of a byte sequence, without padding. *)
Fixpoint sextets (bs : list N) : list N :=
  match bs with
  | a :: b :: c :: rest =>
      (a / 4 :: (a mod 4) * 16 + b / 16 :: (b mod 16) * 4 + c / 64
         :: c mod 64 :: sextets rest)%N
  | [a; b] => [a / 4; (a mod 4) * 16 + b / 16; (b mod 16) * 4]%N
  | [a] => [a / 4; (a mod 4) * 16]%N
  | [] => []
  end.

Definition padding (len : nat) : list ascii :=
  repeat pad ((3 - len mod 3) mod 3).

(** [btoa]: the argument is a binary string (every character of a
    [string] is below 256, so the [InvalidCharacterError] of [btoa]
    cannot occur). *)
Definition btoa (s : string) : string :=
  let bs := Bytes.codes s in
  string_of_list_ascii (map char_of (sextets bs) ++ padding (length bs)).

(** ASCII white space, removed by [atob] before decoding. *)
Definition is_ascii_whitespace (c : ascii) : bool :=
  let n := N_of_ascii c in
  ((n =? 9) || (n =? 10) || (n =? 12) || (n =? 13) || (n =? 32))%N.

Definition strip_padding (data : list ascii) : list ascii :=
  if (length data mod 4 =? 0)%nat then
    match rev data with
    | c1 :: c2 :: r =>
        if Ascii.eqb c1 pad then
          if Ascii.eqb c2 pad then rev r else rev (c2 :: r)
        else data
    | [c1] => if Ascii.eqb c1 pad then [] else data
    | [] => data
    end
  else data.

Fixpoint indices (cs : list ascii) : option (list N) :=
  match cs with
  | [] => Some []
  | c :: r =>
      match index_of c, indices r with
      | Some n, Some ns => Some (n :: ns)
      | _, _ => None
      end
  end.

(** Bytes of a sequence of 6-bit groups; the bits left over at the end
    (4 after two groups, 2 after three) are dropped. *)
Fixpoint octets (ds : list N) : list N :=
  match ds with
  | a :: b :: c :: d :: rest =>
      let n := (((a * 64 + b) * 64 + c) * 64 + d)%N in
      (n / 65536 :: (n / 256) mod 256 :: n mod 256 :: octets rest)%N
  | [a; b; c] =>
      let n := ((a * 64 + b) * 64 + c)%N in [n / 1024; (n / 4) mod 256]%N
  | [a; b] => [(a * 64 + b) / 16]%N
  | _ => []
  end.

(** [atob] (the forgiving base64 decoding of the HTML standard);
    [None] is the [InvalidCharacterError]. *)
Definition atob (s : string) : option string :=
  let data :=
    strip_padding
      (List.filter (fun c => negb (is_ascii_whitespace c))
         (list_ascii_of_string s)) in
  if (length data mod 4 =? 1)%nat then None
  else
    match indices data with
    | Some ds => Some (Bytes.of_codes (octets ds))
    | None => None
    end.

End Base64.


(* ================================================================== *)
(** * Numbers *)
(* ================================================================== *)

(** A JavaScript number is an IEEE 754 double.  The decimal text of a
    number and its reading are computed on the exact value [m * 2^e]
    with integer arithmetic. *)
Module Number.

Definition pow10 (n : Z) : Z := (10 ^ n)%Z.

(** The number nearest to [m * 10^e10] for an integer [m >= 0], ties to
    even, with the sign [neg]: the value [JSON.parse] gives a decimal
    literal. *)
Definition of_decimal (neg : bool) (m : Z) (e10 : Z) : float :=
  SF2Prim
    match m with
    | Zpos p =>
        if (0 <=? e10)%Z then
          binary_round prec emax neg (Z.to_pos (Zpos p * pow10 e10)) 0
        else
          SFdiv prec emax (S754_finite neg p 0)
            (S754_finite false (Z.to_pos (pow10 (- e10))) 0)
    | _ => S754_zero neg
    end.

(** The number of an integer (exact below 2^53). *)
Definition of_Z (z : Z) : float := of_decimal (z <? 0)%Z (Z.abs z) 0.

(** [x || 0] for a number: [NaN], [0] and [-0] are falsy. *)
Definition or_zero (x : float) : float :=
  if is_nan x || is_zero x then 0%float else x.

(** [x < 10^n] for [x = m * 2^e]. *)
Definition below_pow10 (m e n : Z) : bool :=
  let num := if (0 <=? e)%Z then (m * 2 ^ e)%Z else m in
  let den := if (0 <=? e)%Z then 1%Z else (2 ^ (- e))%Z in
  if (0 <=? n)%Z then (num <? pow10 n * den)%Z
  else (num * pow10 (- n) <? den)%Z.

Fixpoint up (fuel : nat) (m e n : Z) : Z :=
  match fuel with
  | O => n
  | S f => if below_pow10 m e n then n else up f m e (n + 1)%Z
  end.

Fixpoint down (fuel : nat) (m e n : Z) : Z :=
  match fuel with
  | O => n
  | S f => if below_pow10 m e (n - 1)%Z then down f m e (n - 1)%Z else n
  end.

(** The [n] with [10^(n-1) <= x < 10^n], from an estimate by the binary
    logarithm. *)
Definition decade (m e : Z) : Z :=
  let guess := ((Z.log2 m + e) * 30103 / 100000)%Z in
  down 4 m e (up 4 m e guess).

(** The decimals of [k] digits next to [x = m * 2^e] in the decade [n],
    as pairs [(s, n)] standing for [s * 10^(n-k)]: the floor and the
    ceiling of [x * 10^(k-n)], the nearer first, the even one first at a
    tie. *)
Definition candidates (m e n k : Z) : list (Z * Z) :=
  let p := (k - n)%Z in
  let num := ((if (0 <=? e)%Z then m * 2 ^ e else m)
              * (if (0 <=? p)%Z then pow10 p else 1))%Z in
  let den := ((if (0 <=? e)%Z then 1 else 2 ^ (- e))
              * (if (0 <=? p)%Z then 1 else pow10 (- p)))%Z in
  let s0 := (num / den)%Z in
  let r := (num mod den)%Z in
  let norm (s : Z) :=
    if (s =? pow10 k)%Z then (pow10 (k - 1), n + 1)%Z else (s, n) in
  if (r =? 0)%Z then [norm s0]
  else
    match (2 * r ?= den)%Z with
    | Lt => [norm s0; norm (s0 + 1)%Z]
    | Gt => [norm (s0 + 1)%Z; norm s0]
    | Eq => if Z.even s0 then [norm s0; norm (s0 + 1)%Z]
            else [norm (s0 + 1)%Z; norm s0]
    end.

Definition reads_back (x : float) (k : Z) (c : Z * Z) : bool :=
  let '(s, n) := c in
  (pow10 (k - 1) <=? s)%Z && (of_decimal false s (n - k) =? x)%float.

(** The [s], [n] and [k] of [Number::toString]: [k] is the least number
    of digits of a decimal that reads back as [x]. *)
Fixpoint shortest (fuel : nat) (x : float) (m e n k : Z) : Z * Z * Z :=
  match fuel with
  | O => (m, 0%Z, k)
  | S f =>
      match List.filter (reads_back x k) (candidates m e n k) with
      | (s, n') :: _ => (s, n', k)
      | [] => shortest f x m e n (k + 1)%Z
      end
  end.

Definition digits (s : Z) : string := pretty s.

Definition zeros (n : Z) : string :=
  string_of_list_ascii (repeat "0"%char (Z.to_nat n)).

Definition exponent (n : Z) : string :=
  (if (0 <=? n - 1)%Z then "e+" else "e-") +:+ digits (Z.abs (n - 1)).

(** The text of [Number::toString] from [s], [n] and [k]. *)
Definition format (s n k : Z) : string :=
  let ds := digits s in
  if ((-5 <=? n) && (n <=? 21))%Z then
    if (k <=? n)%Z then ds +:+ zeros (n - k)
    else if (0 <? n)%Z then
      String.substring 0 (Z.to_nat n) ds +:+ "."
        +:+ String.substring (Z.to_nat n) (Z.to_nat (k - n)) ds
    else "0." +:+ zeros (- n) +:+ ds
  else
    if (k =? 1)%Z then ds +:+ exponent n
    else String.substring 0 1 ds +:+ "."
           +:+ String.substring 1 (Z.to_nat (k - 1)) ds +:+ exponent n.

(** [JSON.stringify] of a number: [null] when it is not finite. *)
Definition to_json (x : float) : string :=
  match Prim2SF x with
  | S754_nan | S754_infinity _ => "null"
  | S754_zero _ => "0"
  | S754_finite neg m e =>
      let '(s, n, k) :=
        shortest 17 (abs x) (Zpos m) e (decade (Zpos m) e) 1 in
      (if neg then "-" else "") +:+ format s n k
  end.

End Number.

(* ================================================================== *)
(** * The data of the vault *)
(* ================================================================== *)

(** The interfaces declared at the top of the module. *)

Module Category.
Record t := mk {
  id : string;
  name : string;
  amount : float;
  currency : option string;
  remarks : option string
}.
End Category.

Module Entry.
Record t := mk {
  id : string;
  categoryId : string;
  amount : float;
  dateISO : string
}.
End Entry.

Module Currency.
Record t := mk {
  code : string;
  rate : float
}.
End Currency.

(** [removedEntriesCount] is the extra property that [onDeleteCategory]
    puts on its history record. *)
Module HistoryItem.
Record t := mk {
  id : string;
  ts : string;
  type : string;
  entry : option Entry.t;
  category : option Category.t;
  removedEntriesCount : option float
}.
End HistoryItem.

(** The decrypted data: [{ categories, entries, currencies, baseCurrency,
    history }].  All five properties are present in every value the
    program builds ([onUnlock] supplies the last three when they are
    missing), so the fallbacks [prev.history || []] and the like are the
    identity here. *)
Record Payload := mkPayload {
  categories : list Category.t;
  entries : list Entry.t;
  currencies : list Currency.t;
  baseCurrency : string;
  history : list HistoryItem.t
}.

(** The stored record, as documented above [LS_KEY]:
    [{ version, user: { firstName }, auth: { saltPwdHex, verifierHex,
       qas: [{ q, saltB64, hashB64 }] }, enc: { saltEncHex, ivB64,
       ciphertextB64 } }]. *)
Record QA := mkQA {
  q : string;
  saltB64 : string;
  hashB64 : string
}.

Record User := mkUser { user_firstName : string }.

Record Auth := mkAuth {
  saltPwdHex : string;
  verifierHex : string;
  qas : list QA
}.

Record Enc := mkEnc {
  saltEncHex : string;
  ivB64 : string;
  ciphertextB64 : string
}.

Record VaultState := mkVaultState {
  version : Z;
  user : User;
  auth : Auth;
  enc : Enc
}.

(** [{ categories: [], entries: [], currencies: [{ code: "BDT", rate: 1 }],
      baseCurrency: "BDT", history: [] }] *)
Definition initialData : Payload :=
  {| categories := [];
     entries := [];
     currencies := [Currency.mk "BDT" 1%float];
     baseCurrency := "BDT";
     history := [] |}.

(* ================================================================== *)
(** * JSON: [JSON.stringify] and [JSON.parse] *)
(* ================================================================== *)

Module Json.

Inductive json : Type :=
| JNull
| JBool (b : bool)
| JNum (n : float)
| JStr (s : string)
| JArr (items : list json)
| JObj (members : list (string * json)).

Definition quote : ascii := "034"%char.
Definition backslash : ascii := "092"%char.

Definition str1 (c : ascii) : string := String c EmptyString.
Definition esc (c : ascii) : string := String backslash (str1 c).

(** One character of a quoted string. *)
Definition escape_char (c : ascii) : string :=
  let n := N_of_ascii c in
  if (n =? 34)%N then esc quote
  else if (n =? 92)%N then esc backslash
  else if (n =? 8)%N then esc "b"
  else if (n =? 12)%N then esc "f"
  else if (n =? 10)%N then esc "n"
  else if (n =? 13)%N then esc "r"
  else if (n =? 9)%N then esc "t"
  else if (n <? 32)%N then
    esc "u" +:+ "00" +:+ String (Hex.digit (n / 16)) (str1 (Hex.digit (n mod 16)))
  else str1 c.

Fixpoint escape (s : string) : string :=
  match s with
  | EmptyString => EmptyString
  | String c r => escape_char c +:+ escape r
  end.

Definition quoted (s : string) : string :=
  str1 quote +:+ escape s +:+ str1 quote.

(** [JSON.stringify] without indentation. *)
Fixpoint stringify (j : json) : string :=
  match j with
  | JNull => "null"
  | JBool true => "true"
  | JBool false => "false"
  | JNum n => Number.to_json n
  | JStr s => quoted s
  | JArr items => "[" +:+ String.concat "," (map stringify items) +:+ "]"
  | JObj members =>
      "{" +:+ String.concat ","
                (map (fun kv => quoted (fst kv) +:+ ":" +:+ stringify (snd kv))
                     members)
          +:+ "}"
  end.

(** ** The parser *)

Definition is_ws (c : ascii) : bool :=
  let n := N_of_ascii c in
  ((n =? 32) || (n =? 9) || (n =? 10) || (n =? 13))%N.

Fixpoint skip_ws (cs : list ascii) : list ascii :=
  match cs with
  | c :: r => if is_ws c then skip_ws r else cs
  | [] => []
  end.

Definition digit_value (c : ascii) : option N :=
  let n := N_of_ascii c in
  if ((48 <=? n) && (n <=? 57))%N then Some (n - 48)%N else None.

(** A run of digits: its value after [acc], how many there were, and
    the rest. *)
Fixpoint parse_digits (acc : N) (count : nat) (cs : list ascii)
  : N * nat * list ascii :=
  match cs with
  | c :: r =>
      match digit_value c with
      | Some d => parse_digits (acc * 10 + d)%N (S count) r
      | None => (acc, count, cs)
      end
  | [] => (acc, count, [])
  end.

(** The integer part: [0], or a digit from 1 to 9 and more digits. *)
Definition parse_int (cs : list ascii) : option (N * list ascii) :=
  match cs with
  | c :: r =>
      match digit_value c with
      | Some 0%N => Some (0%N, r)
      | Some d => let '(n, _, rest) := parse_digits d 0 r in Some (n, rest)
      | None => None
      end
  | [] => None
  end.

(** The fraction, if there is one: a point and at least one digit. *)
Definition parse_frac (int : N) (cs : list ascii)
  : option (N * nat * list ascii) :=
  match cs with
  | c :: r =>
      if Ascii.eqb c "." then
        match parse_digits int 0 r with
        | (_, O, _) => None
        | (m, count, rest) => Some (m, count, rest)
        end
      else Some (int, 0, cs)
  | [] => Some (int, 0, [])
  end.

(** The exponent, if there is one: [e] or [E], a sign or none, and at
    least one digit. *)
Definition parse_exp (cs : list ascii) : option (Z * list ascii) :=
  match cs with
  | c :: r =>
      if Ascii.eqb c "e" || Ascii.eqb c "E" then
        let '(neg, r') :=
          match r with
          | s :: r'' =>
              if Ascii.eqb s "-" then (true, r'')
              else if Ascii.eqb s "+" then (false, r'')
              else (false, r)
          | [] => (false, r)
          end in
        match parse_digits 0 0 r' with
        | (_, O, _) => None
        | (n, _, rest) =>
            Some ((if neg then - Z.of_N n else Z.of_N n)%Z, rest)
        end
      else Some (0%Z, cs)
  | [] => Some (0%Z, [])
  end.

(** A number literal, read as the nearest double. *)
Definition parse_number (cs : list ascii) : option (float * list ascii) :=
  let '(neg, cs1) :=
    match cs with
    | c :: r => if Ascii.eqb c "-" then (true, r) else (false, cs)
    | [] => (false, cs)
    end in
  match parse_int cs1 with
  | Some (int, cs2) =>
      match parse_frac int cs2 with
      | Some (m, places, cs3) =>
          match parse_exp cs3 with
          | Some (e, cs4) =>
              Some (Number.of_decimal neg (Z.of_N m) (e - Z.of_nat places), cs4)
          | None => None
          end
      | None => None
      end
  | None => None
  end.

Definition unescape (c : ascii) : option ascii :=
  if Ascii.eqb c quote then Some quote
  else if Ascii.eqb c backslash then Some backslash
  else if Ascii.eqb c "/" then Some "/"%char
  else if Ascii.eqb c "b" then Some "008"%char
  else if Ascii.eqb c "f" then Some "012"%char
  else if Ascii.eqb c "n" then Some "010"%char
  else if Ascii.eqb c "r" then Some "013"%char
  else if Ascii.eqb c "t" then Some "009"%char
  else None.

(** [\uXXXX]: only code units below 256 are characters of the model. *)
Definition unicode_escape (h1 h2 h3 h4 : ascii) : option ascii :=
  match Hex.digit_value h1, Hex.digit_value h2,
        Hex.digit_value h3, Hex.digit_value h4 with
  | Some 0%N, Some 0%N, Some c, Some d => Some (ascii_of_N (c * 16 + d))
  | _, _, _, _ => None
  end.

(** The characters of a string, after its opening quote. *)
Fixpoint parse_chars (cs : list ascii) : option (list ascii * list ascii) :=
  match cs with
  | [] => None
  | c :: r =>
      if Ascii.eqb c quote then Some ([], r)
      else if Ascii.eqb c backslash then
        match r with
        | e :: r' =>
            if Ascii.eqb e "u" then
              match r' with
              | h1 :: h2 :: h3 :: h4 :: r'' =>
                  match unicode_escape h1 h2 h3 h4, parse_chars r'' with
                  | Some x, Some (s, rest) => Some (x :: s, rest)
                  | _, _ => None
                  end
              | _ => None
              end
            else
              match unescape e, parse_chars r' with
              | Some x, Some (s, rest) => Some (x :: s, rest)
              | _, _ => None
              end
        | [] => None
        end
      else if (N_of_ascii c <? 32)%N then None
      else
        match parse_chars r with
        | Some (s, rest) => Some (c :: s, rest)
        | None => None
        end
  end.

Definition parse_string (cs : list ascii) : option (string * list ascii) :=
  match cs with
  | c :: r =>
      if Ascii.eqb c quote then
        match parse_chars r with
        | Some (s, rest) => Some (string_of_list_ascii s, rest)
        | None => None
        end
      else None
  | [] => None
  end.

Fixpoint expect (word : list ascii) (cs : list ascii) : option (list ascii) :=
  match word, cs with
  | [], _ => Some cs
  | w :: ws, c :: r => if Ascii.eqb w c then expect ws r else None
  | _ :: _, [] => None
  end.

Definition keyword (word : string) (v : json) (cs : list ascii)
  : option (json * list ascii) :=
  match expect (list_ascii_of_string word) cs with
  | Some rest => Some (v, rest)
  | None => None
  end.

(** Recursive descent; [fuel] bounds the nesting and the number of
    items, and the length of the text is always enough. *)
Fixpoint parse_value (fuel : nat) (cs : list ascii)
  : option (json * list ascii) :=
  match fuel with
  | O => None
  | S fuel' =>
      match skip_ws cs with
      | [] => None
      | c :: r =>
          if Ascii.eqb c "n" then keyword "null" JNull (c :: r)
          else if Ascii.eqb c "t" then keyword "true" (JBool true) (c :: r)
          else if Ascii.eqb c "f" then keyword "false" (JBool false) (c :: r)
          else if Ascii.eqb c quote then
            match parse_string (c :: r) with
            | Some (s, rest) => Some (JStr s, rest)
            | None => None
            end
          else if Ascii.eqb c "[" then
            match skip_ws r with
            | c' :: r' =>
                if Ascii.eqb c' "]" then Some (JArr [], r')
                else
                  match parse_items fuel' (c' :: r') with
                  | Some (items, rest) => Some (JArr items, rest)
                  | None => None
                  end
            | [] => None
            end
          else if Ascii.eqb c "{" then
            match skip_ws r with
            | c' :: r' =>
                if Ascii.eqb c' "}" then Some (JObj [], r')
                else
                  match parse_members fuel' (c' :: r') with
                  | Some (members, rest) => Some (JObj members, rest)
                  | None => None
                  end
            | [] => None
            end
          else
            match parse_number (c :: r) with
            | Some (n, rest) => Some (JNum n, rest)
            | None => None
            end
      end
  end
with parse_items (fuel : nat) (cs : list ascii)
  : option (list json * list ascii) :=
  match fuel with
  | O => None
  | S fuel' =>
      match parse_value fuel' cs with
      | Some (v, rest) =>
          match skip_ws rest with
          | c :: r =>
              if Ascii.eqb c "]" then Some ([v], r)
              else if Ascii.eqb c "," then
                match parse_items fuel' r with
                | Some (vs, rest') => Some (v :: vs, rest')
                | None => None
                end
              else None
          | [] => None
          end
      | None => None
      end
  end
with parse_members (fuel : nat) (cs : list ascii)
  : option (list (string * json) * list ascii) :=
  match fuel with
  | O => None
  | S fuel' =>
      match parse_string (skip_ws cs) with
      | Some (k, rest) =>
          match skip_ws rest with
          | c :: r =>
              if Ascii.eqb c ":" then
                match parse_value fuel' r with
                | Some (v, rest') =>
                    match skip_ws rest' with
                    | c' :: r' =>
                        if Ascii.eqb c' "}" then Some ([(k, v)], r')
                        else if Ascii.eqb c' "," then
                          match parse_members fuel' r' with
                          | Some (ms, rest'') => Some ((k, v) :: ms, rest'')
                          | None => None
                          end
                        else None
                    | [] => None
                    end
                | None => None
                end
              else None
          | [] => None
          end
      | None => None
      end
  end.

(** [JSON.parse]; [None] is the [SyntaxError]. *)
Definition parse (s : string) : option json :=
  let cs := list_ascii_of_string s in
  match parse_value (S (length cs)) cs with
  | Some (v, rest) =>
      match skip_ws rest with
      | [] => Some v
      | _ :: _ => None
      end
  | None => None
  end.

End Json.

(* ================================================================== *)
(** * The payload as a JSON value *)
(* ================================================================== *)

(** The object a typed value stands for, and the typed reading of a
    parsed object.  Optional properties ([currency?], [remarks?],
    [entry?], [category?]) are absent from the object when they are
    [None]: [JSON.stringify] drops a property whose value is
    [undefined]. *)
Module Codec.
Import Json.

Definition opt_member {A} (k : string) (f : A -> json) (o : option A)
  : list (string * json) :=
  match o with
  | Some a => [(k, f a)]
  | None => []
  end.

Definition category_to_json (c : Category.t) : json :=
  JObj ([("id", JStr (Category.id c));
         ("name", JStr (Category.name c));
         ("amount", JNum (Category.amount c))]
        ++ opt_member "currency" JStr (Category.currency c)
        ++ opt_member "remarks" JStr (Category.remarks c)).

Definition entry_to_json (e : Entry.t) : json :=
  JObj [("id", JStr (Entry.id e));
        ("categoryId", JStr (Entry.categoryId e));
        ("amount", JNum (Entry.amount e));
        ("dateISO", JStr (Entry.dateISO e))].

Definition currency_to_json (c : Currency.t) : json :=
  JObj [("code", JStr (Currency.code c)); ("rate", JNum (Currency.rate c))].

Definition history_to_json (h : HistoryItem.t) : json :=
  JObj ([("id", JStr (HistoryItem.id h));
         ("ts", JStr (HistoryItem.ts h));
         ("type", JStr (HistoryItem.type h))]
        ++ opt_member "entry" entry_to_json (HistoryItem.entry h)
        ++ opt_member "category" category_to_json (HistoryItem.category h)
        ++ opt_member "removedEntriesCount" JNum
             (HistoryItem.removedEntriesCount h)).

Definition payload_to_json (p : Payload) : json :=
  JObj [("categories", JArr (map category_to_json (categories p)));
        ("entries", JArr (map entry_to_json (entries p)));
        ("currencies", JArr (map currency_to_json (currencies p)));
        ("baseCurrency", JStr (baseCurrency p));
        ("history", JArr (map history_to_json (history p)))].

(** Property access [o.k] on a parsed object. *)
Fixpoint member (k : string) (ms : list (string * json)) : option json :=
  match ms with
  | [] => None
  | (k', v) :: r => if String.eqb k k' then Some v else member k r
  end.

Definition get (k : string) (j : json) : option json :=
  match j with
  | JObj ms => member k ms
  | _ => None
  end.

Definition as_string (j : json) : option string :=
  match j with JStr s => Some s | _ => None end.

Definition as_number (j : json) : option float :=
  match j with JNum n => Some n | _ => None end.

Definition as_array {A} (f : json -> option A) (j : json) : option (list A) :=
  match j with
  | JArr items => mapM f items
  | _ => None
  end.

(** A required property, read with [f]. *)
Definition field {A} (k : string) (f : json -> option A) (j : json) : option A :=
  v ← get k j; f v.

(** An optional property: absent, or read with [f]. *)
Definition optional {A} (k : string) (f : json -> option A) (j : json)
  : option (option A) :=
  match get k j with
  | Some v => a ← f v; Some (Some a)
  | None => Some None
  end.

Definition category_of_json (j : json) : option Category.t :=
  i ← field "id" as_string j;
  n ← field "name" as_string j;
  a ← field "amount" as_number j;
  c ← optional "currency" as_string j;
  r ← optional "remarks" as_string j;
  Some (Category.mk i n a c r).

Definition entry_of_json (j : json) : option Entry.t :=
  i ← field "id" as_string j;
  c ← field "categoryId" as_string j;
  a ← field "amount" as_number j;
  d ← field "dateISO" as_string j;
  Some (Entry.mk i c a d).

Definition currency_of_json (j : json) : option Currency.t :=
  c ← field "code" as_string j;
  r ← field "rate" as_number j;
  Some (Currency.mk c r).

Definition history_of_json (j : json) : option HistoryItem.t :=
  i ← field "id" as_string j;
  t ← field "ts" as_string j;
  ty ← field "type" as_string j;
  e ← optional "entry" entry_of_json j;
  c ← optional "category" category_of_json j;
  n ← optional "removedEntriesCount" as_number j;
  Some (HistoryItem.mk i t ty e c n).

Definition payload_of_json (j : json) : option Payload :=
  cs ← field "categories" (as_array category_of_json) j;
  es ← field "entries" (as_array entry_of_json) j;
  cu ← field "currencies" (as_array currency_of_json) j;
  b ← field "baseCurrency" as_string j;
  h ← field "history" (as_array history_of_json) j;
  Some (mkPayload cs es cu b h).

(** [JSON.stringify(obj)] and [JSON.parse(text)] on the payload. *)
Definition JSON_stringify (p : Payload) : string :=
  stringify (payload_to_json p).

Definition JSON_parse (text : string) : option Payload :=
  j ← parse text; payload_of_json j.

(** A payload survives serialization when parsing its text gives it
    back. *)
Definition survives_JSON (p : Payload) : Prop :=
  JSON_parse (JSON_stringify p) = Some p.

End Codec.

(* ================================================================== *)
(** * The platform *)
(* ================================================================== *)

(** What the module finds in its global scope. *)
Record Env := mkEnv {
  window_defined : bool;  (** [typeof window !== 'undefined'] *)
  window_crypto : bool;   (** [window.crypto] is truthy *)
  subtle : bool           (** [crypto.subtle] resolves and works *)
}.

(** A raw key imported by [crypto.subtle.importKey('raw', bits, ...)]. *)
Definition CryptoKey := list byte.

(** The three primitives of [crypto.subtle] the module calls.  They are
    taken as given.  What is used of them: decryption with the same key
    and IV opens what AES-GCM encryption sealed; the sealed text is the
    plaintext and a tag of 16 bytes; a SHA-256 digest has 32 bytes. *)
Class WebCrypto := {
  PBKDF2_SHA256 : list byte -> list byte -> N -> nat -> list byte;
  SHA256 : list byte -> list byte;
  AES_GCM_encrypt : CryptoKey -> list byte -> list byte -> list byte;
  AES_GCM_decrypt : CryptoKey -> list byte -> list byte -> option (list byte);
  AES_GCM_decrypt_encrypt :
    forall key iv plaintext,
      AES_GCM_decrypt key iv (AES_GCM_encrypt key iv plaintext) = Some plaintext;
  AES_GCM_encrypt_length :
    forall key iv plaintext,
      length (AES_GCM_encrypt key iv plaintext) = length plaintext + 16;
  SHA256_length : forall buf, length (SHA256 buf) = 32
}.

(** The JavaScript engine.  A call takes only so many arguments: a call
    [f(...args)] that spreads more throws a [RangeError].  The limit is
    not fixed by the language (it is tens of thousands at least in the
    engines of current browsers); all that is assumed of it is that a
    call with 1024 arguments is taken. *)
Class Engine := {
  max_arguments : nat;
  max_arguments_floor : 1024 <= max_arguments
}.

(** [window.crypto.getRandomValues]: a generator state and the bytes it
    hands out. *)
Class RandomSource := {
  Rng : Type;
  getRandomValues : Rng -> nat -> list byte * Rng;
  getRandomValues_length :
    forall g n, length (fst (getRandomValues g n)) = n
}.

(** ** Computations that draw random bytes and may throw *)

Section Effects.
Context `{RandomSource}.

Definition Eff (A : Type) : Type := Rng -> option A * Rng.

Definition ret {A} (a : A) : Eff A := fun g => (Some a, g).

Definition throw {A} : Eff A := fun g => (None, g).

Definition bind {A B} (m : Eff A) (k : A -> Eff B) : Eff B :=
  fun g =>
    match m g with
    | (Some a, g') => k a g'
    | (None, g') => (None, g')
    end.

(** [await] of a promise that resolves or rejects. *)
Definition await {A} (o : option A) : Eff A :=
  match o with
  | Some a => ret a
  | None => throw
  end.

End Effects.

Notation "x <- m ;; k" := (bind m (fun x => k))
  (at level 200, m at level 99, k at level 200, right associativity).

(* ================================================================== *)
(** * Utility: Web Crypto helpers *)
(* ================================================================== *)

(** ** String methods used on the answers *)

Module Str.

(** White space removed by [trim] (its ASCII part). *)
Definition is_space (c : ascii) : bool := Hex.is_space c.

Definition trimStart (s : string) : string := Hex.skip_spaces s.

Definition reverse (s : string) : string :=
  string_of_list_ascii (rev (list_ascii_of_string s)).

Definition trim (s : string) : string :=
  reverse (trimStart (reverse (trimStart s))).

(** [toLowerCase] (on the letters A to Z). *)
Definition lower_char (c : ascii) : ascii :=
  let n := N_of_ascii c in
  if ((65 <=? n) && (n <=? 90))%N then ascii_of_N (n + 32) else c.

Fixpoint toLowerCase (s : string) : string :=
  match s with
  | EmptyString => EmptyString
  | String c r => String (lower_char c) (toLowerCase r)
  end.

(** [toUpperCase] (on the letters a to z). *)
Definition upper_char (c : ascii) : ascii :=
  let n := N_of_ascii c in
  if ((97 <=? n) && (n <=? 122))%N then ascii_of_N (n - 32) else c.

Fixpoint toUpperCase (s : string) : string :=
  match s with
  | EmptyString => EmptyString
  | String c r => String (upper_char c) (toUpperCase r)
  end.

(** [!s] for a string: only the empty string is falsy. *)
Definition is_empty (s : string) : bool :=
  match s with
  | EmptyString => true
  | String _ _ => false
  end.

End Str.

Section Helpers.
Context `{WebCrypto} `{RandomSource} `{Engine}.
Variable env : Env.

(** [String.fromCharCode(...new Uint8Array(buf))]: every byte of the
    buffer is an argument of the one call; [None] is the [RangeError] of
    a buffer with more bytes than the engine takes arguments. *)
Definition fromCharCode_spread (buf : list byte) : option string :=
  if Nat.leb (length buf) max_arguments then Some (string_of_list_byte buf)
  else None.

(** [b64encode(buf)] *)
Definition b64encode (buf : list byte) : option string :=
  if window_defined env then
    binStr ← fromCharCode_spread buf; Some (Base64.btoa binStr)
  else Some EmptyString.

(** [b64decode(b64)] *)
Definition b64decode (b64 : string) : option (list byte) :=
  if window_defined env then
    binStr ← Base64.atob b64; Some (list_byte_of_string binStr)
  else Some [].

(** [randBytes(n)]: the buffer stays zero-filled when the random
    source is not there. *)
Definition randBytes (n : nat) : Eff (list byte) :=
  fun g =>
    if window_defined env && window_crypto env then
      let '(a, g') := getRandomValues g n in (Some a, g')
    else (Some (repeat x00 n), g).

(** [pbkdf2(password, salt, iterations, length)] *)
Definition pbkdf2 (password : string) (salt : list byte)
           (iterations : N) (length : nat) : option (list byte) :=
  if subtle env then
    Some (PBKDF2_SHA256 (list_byte_of_string password) salt iterations length)
  else None.

(** [getAesKeyFromPassword(password, salt)] *)
Definition getAesKeyFromPassword (password : string) (salt : list byte)
  : option CryptoKey :=
  bits ← pbkdf2 password salt 210000 32;
  if subtle env then Some bits else None.

(** [sha256(buf)] *)
Definition sha256 (buf : list byte) : option (list byte) :=
  if subtle env then Some (SHA256 buf) else None.

(** [hashAnswer(answer, saltBytes)] *)
Definition hashAnswer (answer : string) (saltBytes : list byte)
  : option string :=
  let norm := Str.toLowerCase (Str.trim answer) in
  let concat := list_byte_of_string norm ++ saltBytes in
  digest ← sha256 concat;
  b64encode digest.

Record Encrypted := mkEncrypted { iv : string; ciphertext : string }.

(** [encryptJson(obj, key)] *)
Definition encryptJson (obj : Payload) (key : CryptoKey) : Eff Encrypted :=
  iv <- randBytes 12 ;;
  let plaintext := list_byte_of_string (Codec.JSON_stringify obj) in
  cipher <- await (if subtle env
                   then Some (AES_GCM_encrypt key iv plaintext)
                   else None) ;;
  ivB64 <- await (b64encode iv) ;;
  cipherB64 <- await (b64encode cipher) ;;
  ret {| iv := ivB64; ciphertext := cipherB64 |}.

(** [decryptJson(ciphertextB64, ivB64, key)] *)
Definition decryptJson (ciphertextB64 ivB64 : string) (key : CryptoKey)
  : option Payload :=
  cipher ← b64decode ciphertextB64;
  iv ← b64decode ivB64;
  plain ← (if subtle env then AES_GCM_decrypt key iv cipher else None);
  Codec.JSON_parse (string_of_list_byte plain).

(** ** Storage *)

(** The content of [localStorage] under [LS_KEY].  The cell holds the
    stored record itself: the record is made of strings, an integer
    and arrays of such, which [JSON.parse] gives back as
    [JSON.stringify] got them.  An empty cell is [None]; [loadState]
    reads a text that does not parse as [null] too. *)
Definition Storage := option VaultState.

(** [loadState()] *)
Definition loadState (ls : Storage) : option VaultState :=
  if window_defined env then ls else None.

(** [saveState(obj)] *)
Definition saveState (obj : VaultState) (ls : Storage) : Storage :=
  if window_defined env then Some obj else ls.

(** [clearState()] *)
Definition clearState (ls : Storage) : Storage :=
  if window_defined env then None else ls.

End Helpers.

(* ================================================================== *)
(** * Auth & Setup screens: their local state *)
(* ================================================================== *)

Module SetupScreen.

(** The [useState] cells of [SetupScreen]; a pair of [qas] is
    [{ q, a }]. *)
Record state := mk {
  firstName : string;
  password : string;
  confirm : string;
  qas : list (string * string);
  err : string
}.

Definition initial : state :=
  {| firstName := "Arif";
     password := EmptyString;
     confirm := EmptyString;
     qas := [("Your first school?", EmptyString);
             ("Mother's maiden name?", EmptyString);
             ("Favorite book?", EmptyString);
             ("City you were born?", EmptyString);
             ("First pet's name?", EmptyString)];
     err := EmptyString |}.

Definition setErr (m : string) (s : state) : state :=
  mk (firstName s) (password s) (confirm s) (qas s) m.

Definition setFirstName (v : string) (s : state) : state :=
  mk v (password s) (confirm s) (qas s) (err s).

Definition setPassword (v : string) (s : state) : state :=
  mk (firstName s) v (confirm s) (qas s) (err s).

Definition setConfirm (v : string) (s : state) : state :=
  mk (firstName s) (password s) v (qas s) (err s).

(** The two properties [updateQA] is called with. *)
Inductive field := field_q | field_a.

Definition update_pair (f : field) (value : string) (qa : string * string)
  : string * string :=
  match f with
  | field_q => (value, snd qa)
  | field_a => (fst qa, value)
  end.

(** [prev.map((qa, idx) => idx === i ? { ...qa, [field]: value } : qa)] *)
Fixpoint map_at (i : nat) (f : string * string -> string * string)
         (l : list (string * string)) : list (string * string) :=
  match l, i with
  | [], _ => []
  | qa :: r, O => f qa :: r
  | qa :: r, S k => qa :: map_at k f r
  end.

Definition updateQA (i : nat) (f : field) (value : string) (s : state)
  : state :=
  mk (firstName s) (password s) (confirm s)
     (map_at i (update_pair f value) (qas s)) (err s).

End SetupScreen.

Module LoginScreen.

(** The [useState] cells of [LoginScreen]; [answers] is the object
    keyed by question text: the map holds its own properties, one for
    each text an answer was typed for. *)
Record state := mk {
  password : string;
  step : nat;
  answers : gmap string string;
  err : string
}.

Definition initial : state :=
  {| password := EmptyString; step := 1; answers := ∅; err := EmptyString |}.

Definition setErr (m : string) (s : state) : state :=
  mk (password s) (step s) (answers s) m.

Definition setStep (n : nat) (s : state) : state :=
  mk (password s) n (answers s) (err s).

Definition setPassword (v : string) (s : state) : state :=
  mk v (step s) (answers s) (err s).

(** [setAnswers(a => ({ ...a, [qa.q]: e.target.value }))] *)
Definition setAnswer (question value : string) (s : state) : state :=
  mk (password s) (step s) (<[question := value]> (answers s)) (err s).

(** The names every plain object inherits from [Object.prototype]. *)
Definition Object_prototype : list string :=
  ["constructor"; "hasOwnProperty"; "isPrototypeOf"; "propertyIsEnumerable";
   "toLocaleString"; "toString"; "valueOf"; "__proto__";
   "__defineGetter__"; "__defineSetter__"; "__lookupGetter__";
   "__lookupSetter__"].

Definition inherited (name : string) : bool :=
  existsb (String.eqb name) Object_prototype.

(** [answers[qa.q] || '']: the answer typed under the text; without
    one, the empty string, unless the text is a name inherited from
    [Object.prototype].  The value read is then a function (for
    [__proto__] an object), which is truthy and not a string:
    [hashAnswer] throws at [answer.trim()].  That case is [None]. *)
Definition answerFor (answers : gmap string string) (question : string)
  : option string :=
  match answers !! question with
  | Some v => Some v
  | None => if inherited question then None else Some EmptyString
  end.

End LoginScreen.

(* ================================================================== *)
(** * Main App *)
(* ================================================================== *)

(** [boot]: loading | setup | login | app *)
Inductive Boot := loading | setup | login | app.

(** How the promise of an [async] call settles. *)
Inductive Completion := Fulfilled | Rejected.

(** The messages the screens show. *)
Definition msg_required : string := "Please fill all required fields.".
Definition msg_mismatch : string := "Passwords do not match.".
Definition msg_questions : string := "Please provide all 5 questions and answers.".
Definition msg_invalid_password : string := "Invalid password.".
Definition msg_wrong : string := "Something went wrong.".
Definition msg_answers : string := "One or more answers are incorrect.".
Definition msg_decrypt : string := "Failed to decrypt.".

Section Vault.
Context `{WebCrypto} `{RandomSource} `{Engine}.

(** The browser ([env], [rng], [localStorage]), the [useState] cells of
    [App] and the state of the screen that is mounted.  Every [async]
    handler runs to its end before the next event. *)
Record App := mkApp {
  env : Env;
  rng : Rng;
  localStorage : Storage;
  boot : Boot;
  firstName : string;
  aesKey : option CryptoKey;
  data : Payload;
  setupScreen : SetupScreen.state;
  loginScreen : LoginScreen.state
}.

Definition with_rng (g : Rng) (a : App) : App :=
  mkApp (env a) g (localStorage a) (boot a) (firstName a) (aesKey a)
        (data a) (setupScreen a) (loginScreen a).

Definition with_localStorage (ls : Storage) (a : App) : App :=
  mkApp (env a) (rng a) ls (boot a) (firstName a) (aesKey a)
        (data a) (setupScreen a) (loginScreen a).

(** [setBoot(b)]: the screen of another [boot] value is mounted afresh. *)
Definition setBoot (b : Boot) (a : App) : App :=
  mkApp (env a) (rng a) (localStorage a) b (firstName a) (aesKey a)
        (data a) SetupScreen.initial LoginScreen.initial.

Definition setFirstName (v : string) (a : App) : App :=
  mkApp (env a) (rng a) (localStorage a) (boot a) v (aesKey a)
        (data a) (setupScreen a) (loginScreen a).

Definition setAesKey (k : option CryptoKey) (a : App) : App :=
  mkApp (env a) (rng a) (localStorage a) (boot a) (firstName a) k
        (data a) (setupScreen a) (loginScreen a).

Definition setData (d : Payload) (a : App) : App :=
  mkApp (env a) (rng a) (localStorage a) (boot a) (firstName a) (aesKey a)
        d (setupScreen a) (loginScreen a).

Definition with_setupScreen (s : SetupScreen.state) (a : App) : App :=
  mkApp (env a) (rng a) (localStorage a) (boot a) (firstName a) (aesKey a)
        (data a) s (loginScreen a).

Definition with_loginScreen (s : LoginScreen.state) (a : App) : App :=
  mkApp (env a) (rng a) (localStorage a) (boot a) (firstName a) (aesKey a)
        (data a) (setupScreen a) s.

(** ** [SetupScreen] *)

(** The loop [for (const qa of qas)] of [handleSetup]. *)
Fixpoint hashQAs (e : Env) (qas : list (string * string)) : Eff (list QA) :=
  match qas with
  | [] => ret []
  | qa :: rest =>
      salt <- randBytes e 16 ;;
      hash <- await (hashAnswer e (snd qa) salt) ;;
      saltB64 <- await (b64encode e salt) ;;
      hashed <- hashQAs e rest ;;
      ret ({| q := fst qa; saltB64 := saltB64; hashB64 := hash |} :: hashed)
  end.

(** [handleSetup] from the derivation of the verifier to the record
    handed to [saveState]. *)
Definition buildState (e : Env) (firstName password : string)
           (qas : list (string * string)) : Eff VaultState :=
  saltPwd <- randBytes e 16 ;;
  verifierBits <- await (pbkdf2 e password saltPwd 210000 32) ;;
  let verifierHex := Hex.toHex verifierBits in
  saltEnc <- randBytes e 16 ;;
  aesKey <- await (getAesKeyFromPassword e password saltEnc) ;;
  qasHashed <- hashQAs e qas ;;
  enc <- encryptJson e initialData aesKey ;;
  ret {| version := 1;
         user := {| user_firstName := firstName |};
         auth := {| saltPwdHex := Hex.toHex saltPwd;
                    verifierHex := verifierHex;
                    qas := qasHashed |};
         enc := {| saltEncHex := Hex.toHex saltEnc;
                   ivB64 := iv enc;
                   ciphertextB64 := ciphertext enc |} |}.

(** [qa => !qa.q || !qa.a] *)
Definition qa_incomplete (qa : string * string) : bool :=
  Str.is_empty (fst qa) || Str.is_empty (snd qa).

(** [handleSetup()].  A rejection after the checks is not caught: the
    handler ends there, with the message cleared. *)
Definition handleSetup (a : App) : App :=
  let s := SetupScreen.setErr EmptyString (setupScreen a) in
  if Str.is_empty (SetupScreen.firstName s)
     || Str.is_empty (SetupScreen.password s)
     || Str.is_empty (SetupScreen.confirm s)
  then with_setupScreen (SetupScreen.setErr msg_required s) a
  else if negb (String.eqb (SetupScreen.password s) (SetupScreen.confirm s))
  then with_setupScreen (SetupScreen.setErr msg_mismatch s) a
  else if existsb qa_incomplete (SetupScreen.qas s)
  then with_setupScreen (SetupScreen.setErr msg_questions s) a
  else
    match buildState (env a) (SetupScreen.firstName s)
            (SetupScreen.password s) (SetupScreen.qas s) (rng a) with
    | (Some state, g) =>
        setBoot login
          (with_localStorage (saveState (env a) state (localStorage a))
             (with_rng g (with_setupScreen s a)))
    | (None, g) => with_rng g (with_setupScreen s a)
    end.

(** ** [persist] *)

(** [state.enc.ivB64 = enc.iv; state.enc.ciphertextB64 = enc.ciphertext] *)
Definition assign_enc (e : Encrypted) (state : VaultState) : VaultState :=
  {| version := version state;
     user := user state;
     auth := auth state;
     enc := {| saltEncHex := saltEncHex (enc state);
               ivB64 := iv e;
               ciphertextB64 := ciphertext e |} |}.

(** [persist(newData)], with the [aesKey] its closure captured. *)
Definition persist (captured : option CryptoKey) (newData : Payload) (a : App)
  : App * Completion :=
  match loadState (env a) (localStorage a), captured with
  | Some state, Some key =>
      match encryptJson (env a) newData key (rng a) with
      | (Some e, g) =>
          (with_localStorage
             (saveState (env a) (assign_enc e state) (localStorage a))
             (with_rng g a),
           Fulfilled)
      | (None, g) => (with_rng g a, Rejected)
      end
  | _, _ => (a, Fulfilled)
  end.

(** [setData(prev => { const nd = ...; persist(nd); return nd; })]:
    the promise of [persist] is dropped. *)
Definition update (nd : Payload) (a : App) : App :=
  setData nd (fst (persist (aesKey a) nd a)).

(** ** [LoginScreen] *)

(** [verifyPassword()] *)
Definition verifyPassword (a : App) : App :=
  let l := LoginScreen.setErr EmptyString (loginScreen a) in
  let attempt :=
    state ← loadState (env a) (localStorage a);
    let saltPwd := Hex.fromHex (saltPwdHex (auth state)) in
    verifierBits ← pbkdf2 (env a) (LoginScreen.password l) saltPwd 210000 32;
    Some (Hex.toHex verifierBits, verifierHex (auth state)) in
  match attempt with
  | Some (verifierHex, stored) =>
      if negb (String.eqb verifierHex stored)
      then with_loginScreen (LoginScreen.setErr msg_invalid_password l) a
      else with_loginScreen (LoginScreen.setStep 2 l) a
  | None => with_loginScreen (LoginScreen.setErr msg_wrong l) a
  end.

(** The loop of [verifyQuestions]: [Some false] when it returns at a
    mismatch, [Some true] when it runs to its end, [None] when it
    throws. *)
Fixpoint checkAnswers (e : Env) (answers : gmap string string)
         (qas : list QA) : option bool :=
  match qas with
  | [] => Some true
  | qa :: rest =>
      salt ← b64decode e (saltB64 qa);
      answer ← LoginScreen.answerFor answers (q qa);
      given ← hashAnswer e answer salt;
      if negb (String.eqb given (hashB64 qa)) then Some false
      else checkAnswers e answers rest
  end.

(** [onUnlock({ key, data })].  The [persist] it calls belongs to the
    render in which [onUnlock] was made, so it sees the [aesKey] of
    before [setAesKey(key)]. *)
Definition onUnlock (key : CryptoKey) (d : Payload) (a : App) : App :=
  let state := loadState (env a) (localStorage a) in
  let name :=
    match state with
    | Some st => user_firstName (user st)
    | None => EmptyString
    end in
  let normalized := d in
  let a' := setBoot app (setData normalized (setFirstName name
              (setAesKey (Some key) a))) in
  fst (persist (aesKey a) normalized a').

(** [verifyQuestions()] *)
Definition verifyQuestions (a : App) : App :=
  let l := LoginScreen.setErr EmptyString (loginScreen a) in
  let state := loadState (env a) (localStorage a) in
  let qas := match state with Some st => qas (auth st) | None => [] end in
  match checkAnswers (env a) (LoginScreen.answers l) qas with
  | Some false => with_loginScreen (LoginScreen.setErr msg_answers l) a
  | Some true =>
      let unlocked :=
        st ← state;
        key ← getAesKeyFromPassword (env a) (LoginScreen.password l)
                (Hex.fromHex (saltEncHex (enc st)));
        d ← decryptJson (env a) (ciphertextB64 (enc st)) (ivB64 (enc st)) key;
        Some (key, d) in
      match unlocked with
      | Some (key, d) => onUnlock key d (with_loginScreen l a)
      | None => with_loginScreen (LoginScreen.setErr msg_decrypt l) a
      end
  | None => with_loginScreen (LoginScreen.setErr msg_decrypt l) a
  end.

(** ** The handlers of [App] *)

(** The effect run once after the first render. *)
Definition mount (a : App) : App :=
  if window_defined (env a) then
    match loadState (env a) (localStorage a) with
    | None => setBoot setup a
    | Some state => setBoot login (setFirstName (user_firstName (user state)) a)
    end
  else a.

Definition with_categories (l : list Category.t) (p : Payload) : Payload :=
  mkPayload l (entries p) (currencies p) (baseCurrency p) (history p).

Definition with_entries (l : list Entry.t) (p : Payload) : Payload :=
  mkPayload (categories p) l (currencies p) (baseCurrency p) (history p).

Definition with_currencies (l : list Currency.t) (p : Payload) : Payload :=
  mkPayload (categories p) (entries p) l (baseCurrency p) (history p).

Definition with_baseCurrency (b : string) (p : Payload) : Payload :=
  mkPayload (categories p) (entries p) (currencies p) b (history p).

Definition with_history (l : list HistoryItem.t) (p : Payload) : Payload :=
  mkPayload (categories p) (entries p) (currencies p) (baseCurrency p) l.

(** [onAddCategory(cat)] *)
Definition onAddCategory (cat : Category.t) (a : App) : App :=
  let prev := data a in
  let nd := with_categories (categories prev ++ [cat]) prev in
  update nd a.

(** [onAddEntry(entry)]; [id] is the result of [newId()] and [ts] of
    [new Date().toISOString()]. *)
Definition onAddEntry (entry : Entry.t) (id ts : string) (a : App) : App :=
  let prev := data a in
  let nd :=
    with_history
      (history prev
         ++ [HistoryItem.mk id ts "entry:add" (Some entry) None None])
      (with_entries (entries prev ++ [entry]) prev) in
  update nd a.

Definition is_category (catId : string) (c : Category.t) : bool :=
  String.eqb (Category.id c) catId.

Definition in_category (catId : string) (e : Entry.t) : bool :=
  String.eqb (Entry.categoryId e) catId.

(** [onDeleteCategory(catId)]; [ok] is the answer to [confirm(...)].
    [removedEntriesCount] is the difference of two array lengths:
    integers below 2^32, which the doubles hold and subtract exactly. *)
Definition onDeleteCategory (catId : string) (ok : bool) (id ts : string)
           (a : App) : App :=
  match List.find (is_category catId) (categories (data a)) with
  | None => a
  | Some catNow =>
      if negb ok then a
      else
        let prev := data a in
        match List.find (is_category catId) (categories prev) with
        | None => a
        | Some cat =>
            let entriesLeft :=
              List.filter (fun e => negb (in_category catId e)) (entries prev) in
            let nd :=
              with_history
                (history prev
                   ++ [HistoryItem.mk id ts "category:delete" None (Some cat)
                         (Some (Number.of_Z
                                  (Z.of_nat (length (entries prev))
                                   - Z.of_nat (length entriesLeft))))])
                (with_entries entriesLeft
                   (with_categories
                      (List.filter (fun c => negb (is_category catId c))
                         (categories prev))
                      prev)) in
            update nd a
        end
  end.

(** [onReset()]; [ok] is the answer to [confirm(...)]. *)
Definition onReset (ok : bool) (a : App) : App :=
  if ok then
    setBoot setup
      (with_localStorage (clearState (env a) (localStorage a)) a)
  else a.

(** [onLogout()] *)
Definition onLogout (a : App) : App :=
  setBoot login (setData initialData (setAesKey None a)).

Definition same_code (code : string) (c : Currency.t) : bool :=
  String.eqb (Str.toUpperCase (Currency.code c)) (Str.toUpperCase code).

(** [onAddCurrency({ code, rate })] *)
Definition onAddCurrency (code : string) (rate : float) (a : App) : App :=
  let prev := data a in
  let existing := currencies prev in
  let next :=
    List.filter (fun c => negb (same_code code c)) existing
      ++ [Currency.mk (Str.toUpperCase code) (Number.or_zero rate)] in
  let nd := with_currencies next prev in
  update nd a.

(** [onSetBaseCurrency(code)] *)
Definition onSetBaseCurrency (code : string) (a : App) : App :=
  let prev := data a in
  let nd := with_baseCurrency (Str.toUpperCase code) prev in
  update nd a.

(** [s || d] for strings. *)
Definition or_else (s d : string) : string :=
  if Str.is_empty s then d else s.

(** [onRemoveCurrency(code)]; the two refusals raise an [alert] and
    keep [prev]. *)
Definition onRemoveCurrency (code : string) (a : App) : App :=
  let prev := data a in
  let up := Str.toUpperCase code in
  let base := Str.toUpperCase (or_else (baseCurrency prev) "BDT") in
  if String.eqb up base then a
  else
    let inUse :=
      existsb
        (fun cat =>
           String.eqb
             (Str.toUpperCase
                (match Category.currency cat with
                 | Some c => or_else c base
                 | None => base
                 end))
             up)
        (categories prev) in
    if inUse then a
    else
      let next :=
        List.filter
          (fun c => negb (String.eqb (Str.toUpperCase (Currency.code c)) up))
          (currencies prev) in
      let nd :=
        with_currencies
          (match next with
           | [] => [Currency.mk base 1%float]
           | _ :: _ => next
           end)
          prev in
      update nd a.

Definition is_entry (entryId : string) (x : Entry.t) : bool :=
  String.eqb (Entry.id x) entryId.

(** [onDeleteEntry(entryId)] *)
Definition onDeleteEntry (entryId : string) (id ts : string) (a : App) : App :=
  let prev := data a in
  let target := List.find (is_entry entryId) (entries prev) in
  let nd :=
    with_history
      (history prev ++ [HistoryItem.mk id ts "entry:delete" target None None])
      (with_entries
         (List.filter (fun x => negb (is_entry entryId x)) (entries prev))
         prev) in
  update nd a.

(** [onDeleteHistoryItem(historyId)] *)
Definition onDeleteHistoryItem (historyId : string) (a : App) : App :=
  let prev := data a in
  let nd :=
    with_history
      (List.filter
         (fun h => negb (String.eqb (HistoryItem.id h) historyId))
         (history prev))
      prev in
  update nd a.

End Vault.

(* ================================================================== *)
(** * The session as a transition system *)
(* ================================================================== *)

(** What the user can do, with the values typed or picked.  [id] and
    [ts] are the results of [newId()] and [new Date().toISOString()]
    for the history record of the event. *)
Inductive Event :=
| Mount
| SetupFirstName (v : string)
| SetupPassword (v : string)
| SetupConfirm (v : string)
| SetupUpdateQA (i : nat) (f : SetupScreen.field) (v : string)
| HandleSetup
| LoginPassword (v : string)
| VerifyPassword
| LoginAnswer (question v : string)
| Back
| VerifyQuestions
| Reset (ok : bool)
| AddCategory (cat : Category.t)
| AddEntry (entry : Entry.t) (id ts : string)
| DeleteCategory (catId : string) (ok : bool) (id ts : string)
| AddCurrency (code : string) (rate : float)
| SetBaseCurrency (code : string)
| RemoveCurrency (code : string)
| DeleteEntry (entryId : string) (id ts : string)
| DeleteHistoryItem (historyId : string)
| Logout.

Section Session.
Context `{WebCrypto} `{RandomSource} `{Engine}.

(** The controls of the login screen, by [step]. *)
Definition login_step (ev : Event) (a : App) : App :=
  let l := loginScreen a in
  match LoginScreen.step l, ev with
  | 1, LoginPassword v => with_loginScreen (LoginScreen.setPassword v l) a
  | 1, VerifyPassword => verifyPassword a
  | 1, Reset ok => onReset ok a
  | 2, LoginAnswer question v =>
      with_loginScreen (LoginScreen.setAnswer question v l) a
  | 2, Back => with_loginScreen (LoginScreen.setStep 1 l) a
  | 2, VerifyQuestions => verifyQuestions a
  | _, _ => a
  end.

(** One event.  [App] renders one screen per value of [boot]; an
    event of a screen that is not rendered cannot happen and is
    ignored. *)
Definition step (a : App) (ev : Event) : App :=
  match boot a, ev with
  | loading, Mount => mount a
  | setup, SetupFirstName v =>
      with_setupScreen (SetupScreen.setFirstName v (setupScreen a)) a
  | setup, SetupPassword v =>
      with_setupScreen (SetupScreen.setPassword v (setupScreen a)) a
  | setup, SetupConfirm v =>
      with_setupScreen (SetupScreen.setConfirm v (setupScreen a)) a
  | setup, SetupUpdateQA i f v =>
      with_setupScreen (SetupScreen.updateQA i f v (setupScreen a)) a
  | setup, HandleSetup => handleSetup a
  | login, _ => login_step ev a
  | app, AddCategory cat => onAddCategory cat a
  | app, AddEntry entry id ts => onAddEntry entry id ts a
  | app, DeleteCategory catId ok id ts => onDeleteCategory catId ok id ts a
  | app, AddCurrency code rate => onAddCurrency code rate a
  | app, SetBaseCurrency code => onSetBaseCurrency code a
  | app, RemoveCurrency code => onRemoveCurrency code a
  | app, DeleteEntry entryId id ts => onDeleteEntry entryId id ts a
  | app, DeleteHistoryItem historyId => onDeleteHistoryItem historyId a
  | app, Logout => onLogout a
  | app, Reset ok => onReset ok a
  | _, _ => a
  end.

Definition run (evs : list Event) (a : App) : App :=
  fold_left step evs a.

(** The state of [App] before its first effect. *)
Definition start (e : Env) (g : Rng) (ls : Storage) : App :=
  {| env := e; rng := g; localStorage := ls; boot := loading;
     firstName := EmptyString; aesKey := None; data := initialData;
     setupScreen := SetupScreen.initial;
     loginScreen := LoginScreen.initial |}.

End Session.

(* ================================================================== *)
(** * Properties stated about the model *)
(* ================================================================== *)

(** A 6-bit group, and a character of the base64 alphabet that is
    neither padding nor white space. *)
Definition is_sextet (n : N) : Prop := (n < 64)%N.

Definition is_digit_char (c : ascii) : Prop :=
  Ascii.eqb c Base64.pad = false /\ Base64.is_ascii_whitespace c = false.

(** The inputs [handleSetup] refuses. *)
Definition setup_invalid (s : SetupScreen.state) : Prop :=
  SetupScreen.firstName s = EmptyString
  \/ SetupScreen.password s = EmptyString
  \/ SetupScreen.confirm s = EmptyString
  \/ SetupScreen.password s <> SetupScreen.confirm s
  \/ Exists (fun qa => fst qa = EmptyString \/ snd qa = EmptyString)
       (SetupScreen.qas s).

Definition validation_message (m : string) : Prop :=
  m = msg_required \/ m = msg_mismatch \/ m = msg_questions.

(** The fields of the stored record that only setup writes. *)
Definition same_identity (s s' : VaultState) : Prop :=
  version s' = version s
  /\ user s' = user s
  /\ auth s' = auth s
  /\ saltEncHex (enc s') = saltEncHex (enc s).

Section Properties.
Context `{WebCrypto} `{RandomSource} `{Engine}.
Implicit Types (e : Env) (a : App) (st : VaultState) (qa : QA).
Implicit Types (answers : gmap string string).

(** The verifier [verifyPassword] recomputes: [None] when the
    derivation throws. *)
Definition derivedVerifier e (password : string) st : option string :=
  verifierBits ← pbkdf2 e password (Hex.fromHex (saltPwdHex (auth st))) 210000 32;
  Some (Hex.toHex verifierBits).

(** The answer read for [qa] hashes to the stored hash. *)
Definition answer_matches e answers qa : Prop :=
  exists salt answer,
    b64decode e (saltB64 qa) = Some salt
    /\ LoginScreen.answerFor answers (q qa) = Some answer
    /\ hashAnswer e answer salt = Some (hashB64 qa).

(** The answer read for [qa] hashes to something else. *)
Definition answer_wrong e answers qa : Prop :=
  exists salt answer given,
    b64decode e (saltB64 qa) = Some salt
    /\ LoginScreen.answerFor answers (q qa) = Some answer
    /\ hashAnswer e answer salt = Some given
    /\ given <> hashB64 qa.

(** No answer was typed for [qa], and its text is a name inherited from
    [Object.prototype]. *)
Definition answer_inherited answers qa : Prop :=
  answers !! q qa = None /\ LoginScreen.inherited (q qa) = true.

(** The text [b64encode] returns when it returns (lemmas
    [b64encode_encodable] and [b64encode_returns]). *)
Definition encoded e (buf : list byte) : string :=
  if window_defined e then Base64.btoa (string_of_list_byte buf)
  else EmptyString.

(** A buffer [b64encode] takes: there is no [window] (nothing is spread),
    or the engine takes its bytes as the arguments of one call. *)
Definition encodable e (buf : list byte) : Prop :=
  window_defined e = false \/ length buf <= max_arguments.

(** A payload whose ciphertext [b64encode] takes: the ciphertext is the
    UTF-8 text of the payload and a tag of 16 bytes. *)
Definition sealable e (p : Payload) : Prop :=
  window_defined e = false
  \/ String.length (Codec.JSON_stringify p) + 16 <= max_arguments.

(** The cell holds a record with the identity of [st]. *)
Definition keeps_identity st a : Prop :=
  exists st', localStorage a = Some st' /\ same_identity st st'.

End Properties.

(** The spec's reading of a failed [persist]: a call that cannot read
    the stored record, or has no key, settles as a failure. *)
Definition persist_failure_surfaces `{WebCrypto} `{RandomSource} `{Engine}
           (captured : option CryptoKey) (nd : Payload) (a : App) : Prop :=
  loadState (env a) (localStorage a) = None \/ captured = None ->
  snd (persist captured nd a) = Rejected.

(** The spec's reading of a generic message: a rejected password is
    reported with the message of rejected answers. *)
Definition same_message_as_answers `{WebCrypto} `{RandomSource} `{Engine}
           (a b : App) : Prop :=
  LoginScreen.err (loginScreen (verifyPassword a))
  = LoginScreen.err (loginScreen (verifyQuestions b)).

(** The spec's reading of a logged change: the history of [nd] is the
    history of [prev] with one more record. *)
Definition appends_history_record (prev nd : Payload) : Prop :=
  exists h, history nd = history prev ++ [h].

(** [window.crypto] cannot be used by [randBytes]. *)
Definition no_random_source (e : Env) : Prop :=
  window_defined e && window_crypto e = false.

(* ================================================================== *)
(** * The currency lists of the sidebar and the totals bar *)
(* ================================================================== *)

Module View.

(** [seen.has(x)] *)
Definition has (seen : list string) (x : string) : bool :=
  existsb (String.eqb x) seen.

(** [Array.from(new Set(l))]: the elements in the order of their first
    occurrence; [seen] is the set so far. *)
Fixpoint unique_from (seen : list string) (l : list string) : list string :=
  match l with
  | [] => []
  | x :: r =>
      if has seen x then unique_from seen r
      else x :: unique_from (x :: seen) r
  end.

Definition array_from_set (l : list string) : list string := unique_from [] l.

(** [Sidebar]: [codes], from the props [currencies] and [baseCurrency]. *)
Definition sidebar_codes (d : Payload) : list string :=
  array_from_set
    (map (fun c => Str.toUpperCase (Currency.code c)) (currencies d)
       ++ [Str.toUpperCase (or_else (baseCurrency d) "BDT")]).

(** [TotalsBar]: [base] and [currencies]. *)
Definition totals_base (d : Payload) : string := or_else (baseCurrency d) "BDT".

Definition totals_currencies (d : Payload) : list Currency.t :=
  match currencies d with
  | [] => [Currency.mk (totals_base d) 1%float]
  | _ :: _ => currencies d
  end.

(** [TotalsBar]: the codes offered as base currency. *)
Definition base_options (d : Payload) : list string :=
  array_from_set
    (map (fun c => Str.toUpperCase (Currency.code c)) (totals_currencies d)
       ++ [Str.toUpperCase (totals_base d)]).

Section Display.
(** [formatAmount] formats by locale and is taken as given; [totalBase]
    is the total the component computed. *)
Variable formatAmount : string -> float -> string.
Variable totalBase : float.

(** The loop of [displayCurrencies]. *)
Fixpoint display_loop (seen : list string) (all : list Currency.t)
  : list (string * string) :=
  match all with
  | [] => []
  | c :: r =>
      let code := Str.toUpperCase (Currency.code c) in
      if Str.is_empty code || has seen code then display_loop seen r
      else
        let amount := (totalBase * Number.or_zero (Currency.rate c))%float in
        (code, formatAmount code amount) :: display_loop (code :: seen) r
  end.

(** [TotalsBar]: [displayCurrencies], as pairs [{ code, formatted }]. *)
Definition displayCurrencies (d : Payload) : list (string * string) :=
  let base := totals_base d in
  let currencies := totals_currencies d in
  let all :=
    match List.find
            (fun c => String.eqb (Str.toUpperCase (Currency.code c))
                        (Str.toUpperCase base))
            currencies with
    | Some _ => currencies
    | None => Currency.mk base 1%float :: currencies
    end in
  display_loop [] all.

End Display.

End View.

(* ================================================================== *)
(** * Further properties stated about the model *)
(* ================================================================== *)

(** A text of white space only. *)
Definition all_spaces (s : string) : Prop :=
  Forall (fun c => Str.is_space c = true) (list_ascii_of_string s).

(** Typing an answer into the field of each question in turn. *)
Definition typeAnswers (l : list (string * string)) : list Event :=
  map (fun pair => LoginAnswer (fst pair) (snd pair)) l.

(** The typed answer says the same as the given one: same question, and
    the same text once trimmed and put in lower case. *)
Definition same_answer (given typed : string * string) : Prop :=
  fst typed = fst given
  /\ Str.toLowerCase (Str.trim (snd typed))
     = Str.toLowerCase (Str.trim (snd given)).

(** The events that change the payload. *)
Definition is_mutation (ev : Event) : bool :=
  match ev with
  | AddCategory _ | AddEntry _ _ _ | DeleteCategory _ _ _ _
  | AddCurrency _ _ | SetBaseCurrency _ | RemoveCurrency _
  | DeleteEntry _ _ _ | DeleteHistoryItem _ => true
  | _ => false
  end.

(** The code of a currency as the handlers compare it. *)
Definition upper_code (c : Currency.t) : string :=
  Str.toUpperCase (Currency.code c).

(** The currency a category counts in: its own, or the base currency
    when it has none ([cat.currency || base]). *)
Definition category_code (base : string) (cat : Category.t) : string :=
  Str.toUpperCase
    (match Category.currency cat with
     | Some c => or_else c base
     | None => base
     end).

(** The base currency as [onRemoveCurrency] reads it. *)
Definition base_code (d : Payload) : string :=
  Str.toUpperCase (or_else (baseCurrency d) "BDT").

(** A stored record with five questions, each with a text. *)
Definition five_questions (st : VaultState) : Prop :=
  length (qas (auth st)) = 5
  /\ Forall (fun qa => q qa <> EmptyString) (qas (auth st)).

(** Some category has the id. *)
Definition category_exists (catId : string) (d : Payload) : Prop :=
  exists c, In c (categories d) /\ Category.id c = catId.

(** Every entry names a category of the payload. *)
Definition entries_have_categories (d : Payload) : Prop :=
  Forall (fun x => category_exists (Entry.categoryId x) d) (entries d).

Section FurtherProperties.
Context `{WebCrypto} `{RandomSource} `{Engine}.
Implicit Types (e : Env) (a : App) (st : VaultState) (qa : QA).
Implicit Types (answers : gmap string string) (key : CryptoKey).

(** The stored form of one question: its text, a 16-byte salt and the
    digest of the normalized answer followed by the salt. *)
Definition hashed_from e (pair : string * string) qa : Prop :=
  q qa = fst pair
  /\ exists salt,
       length salt = 16
       /\ saltB64 qa = encoded e salt
       /\ hashB64 qa
          = encoded e
              (SHA256 (list_byte_of_string (Str.toLowerCase (Str.trim (snd pair)))
                         ++ salt)).

(** The answers object after the pairs of [l] were typed in turn. *)
Definition typed_map (l : list (string * string)) answers
  : gmap string string :=
  fold_left (fun m pair => <[fst pair := snd pair]> m) l answers.

(** The stored ciphertext opens, under the key of the session, to the
    payload in memory. *)
Definition disk_holds_data a st key : Prop :=
  localStorage a = Some st
  /\ aesKey a = Some key
  /\ decryptJson (env a) (ciphertextB64 (enc st)) (ivB64 (enc st)) key
     = Some (data a).

(** The setup form has five rows and what is stored has five
    questions. *)
Definition form_and_record a : Prop :=
  length (SetupScreen.qas (setupScreen a)) = 5
  /\ forall st, localStorage a = Some st -> five_questions st.

End FurtherProperties.

(* ================================================================== *)
(** * An executable provider *)
(* ================================================================== *)

(** A small provider that computes, to run the handlers on concrete
    inputs.  It has the interface of [crypto.subtle] and the one law
    assumed of AES-GCM; it has none of the strength of the real
    primitives. *)
Module Sim.

Definition mix (bs : list byte) : N :=
  fold_left (fun acc b => ((acc * 31 + Byte.to_N b + 1) mod 65521)%N) bs 7%N.

Definition stream (seed : N) (len : nat) : list byte :=
  map (fun i => Bytes.byte_of_N (seed + 13 * N.of_nat i)) (seq 0 len).

Definition pbkdf2 (password salt : list byte) (iterations : N) (len : nat)
  : list byte :=
  stream (mix (password ++ x00 :: salt) + iterations) len.

Definition sha256 (buf : list byte) : list byte := stream (mix buf) 32.

Definition tag (key iv : list byte) : list byte :=
  stream (mix (key ++ x01 :: iv)) 16.

Definition same_bytes (x y : list byte) : bool :=
  bool_decide (map Byte.to_N x = map Byte.to_N y).

Definition encrypt (key iv plaintext : list byte) : list byte :=
  tag key iv ++ plaintext.

Definition decrypt (key iv cipher : list byte) : option (list byte) :=
  if same_bytes (take 16 cipher) (tag key iv)
  then Some (drop 16 cipher)
  else None.

Definition next_bytes (g : N) (n : nat) : list byte * N :=
  (stream (5 + 3 * g) n, (g + N.of_nat n)%N).

Definition browser : Env :=
  {| window_defined := true; window_crypto := true; subtle := true |}.

(** No [window]: the module evaluated outside a browser, where a
    global [crypto] may still exist. *)
Definition server : Env :=
  {| window_defined := false; window_crypto := false; subtle := true |}.

End Sim.

(* ================================================================== *)
(** * The executable provider satisfies the interface *)
(* ================================================================== *)

Lemma Sim_stream_length seed len : length (Sim.stream seed len) = len.
Proof. unfold Sim.stream. by rewrite length_map, length_seq. Qed.

Lemma Sim_decrypt_encrypt key iv plaintext :
  Sim.decrypt key iv (Sim.encrypt key iv plaintext) = Some plaintext.
Proof.
  unfold Sim.decrypt, Sim.encrypt, Sim.same_bytes.
  assert (Hlen : length (Sim.tag key iv) = 16) by apply Sim_stream_length.
  rewrite take_app_length' by exact Hlen.
  rewrite drop_app_length' by exact Hlen.
  by rewrite bool_decide_eq_true_2.
Qed.

Lemma Sim_encrypt_length key iv plaintext :
  length (Sim.encrypt key iv plaintext) = length plaintext + 16.
Proof.
  unfold Sim.encrypt, Sim.tag. rewrite length_app, Sim_stream_length. lia.
Qed.

#[export] Instance Sim_crypto : WebCrypto :=
  {| PBKDF2_SHA256 := Sim.pbkdf2;
     SHA256 := Sim.sha256;
     AES_GCM_encrypt := Sim.encrypt;
     AES_GCM_decrypt := Sim.decrypt;
     AES_GCM_decrypt_encrypt := Sim_decrypt_encrypt;
     AES_GCM_encrypt_length := Sim_encrypt_length;
     SHA256_length := fun buf => Sim_stream_length _ 32 |}.

(** An engine that takes 4096 arguments. *)
#[export] Instance Sim_engine : Engine :=
  {| max_arguments := 4096;
     max_arguments_floor := proj1 (Nat.leb_le 1024 4096) eq_refl |}.

#[export] Instance Sim_random : RandomSource :=
  {| Rng := N;
     getRandomValues := Sim.next_bytes;
     getRandomValues_length := fun g n => Sim_stream_length _ n |}.

(* ================================================================== *)
(** * Sessions run with the executable provider *)
(* ================================================================== *)

Module Scenario.

Definition fill_setup : list Event :=
  [SetupPassword "pw1234"; SetupConfirm "pw1234";
   SetupUpdateQA 0 SetupScreen.field_a "Blue";
   SetupUpdateQA 1 SetupScreen.field_a "Smith";
   SetupUpdateQA 2 SetupScreen.field_a "Dune";
   SetupUpdateQA 3 SetupScreen.field_a "Dhaka";
   SetupUpdateQA 4 SetupScreen.field_a "Rex"].

(** A first visit: the form as [SetupScreen] shows it, then filled. *)
Definition first_visit : App :=
  Eval vm_compute in run [Mount] (start Sim.browser 0%N None).
Definition setup_filled : App := Eval vm_compute in run fill_setup first_visit.
Definition setup_unconfirmed : App :=
  Eval vm_compute in
    run [SetupPassword "pw1234"; SetupConfirm "pw12345"] first_visit.

(** After "Finish Setup": the login screen, step 1. *)
Definition after_setup : App := Eval vm_compute in run [HandleSetup] setup_filled.

Definition type_answers (first : string) : list Event :=
  [LoginAnswer "Your first school?" first;
   LoginAnswer "Mother's maiden name?" "smith";
   LoginAnswer "Favorite book?" " Dune ";
   LoginAnswer "City you were born?" "DHAKA";
   LoginAnswer "First pet's name?" "rex"].

Definition wrong_password : App :=
  Eval vm_compute in run [LoginPassword "wrongpw"] after_setup.
Definition at_step_2 : App :=
  Eval vm_compute in run [LoginPassword "pw1234"; VerifyPassword] after_setup.
Definition right_answers : App :=
  Eval vm_compute in run (type_answers "blue") at_step_2.
Definition one_wrong_answer : App :=
  Eval vm_compute in run (type_answers "red") at_step_2.

(** Four answers typed, "Favorite book?" left without one. *)
Definition book_left_blank : App :=
  Eval vm_compute in
    run [LoginAnswer "Your first school?" "blue";
         LoginAnswer "Mother's maiden name?" "smith";
         LoginAnswer "City you were born?" "DHAKA";
         LoginAnswer "First pet's name?" "rex"]
      at_step_2.

(** A setup whose first question is "constructor", answered "Blue", and
    the login after it at step 2. *)
Definition named_constructor : App :=
  Eval vm_compute in
    run (fill_setup
           ++ [SetupUpdateQA 0 SetupScreen.field_q "constructor";
               HandleSetup; LoginPassword "pw1234"; VerifyPassword])
      first_visit.

(** There, the four other answers typed and "constructor" left without
    one; and "constructor" answered and "Favorite book?" left without
    one. *)
Definition constructor_left_blank : App :=
  Eval vm_compute in
    run [LoginAnswer "Mother's maiden name?" "smith";
         LoginAnswer "Favorite book?" "dune";
         LoginAnswer "City you were born?" "DHAKA";
         LoginAnswer "First pet's name?" "rex"]
      named_constructor.

Definition constructor_answered : App :=
  Eval vm_compute in
    run [LoginAnswer "constructor" "blue";
         LoginAnswer "Mother's maiden name?" "smith";
         LoginAnswer "City you were born?" "DHAKA";
         LoginAnswer "First pet's name?" "rex"]
      named_constructor.

(** The record in the cell after setup. *)
Definition stored : VaultState :=
  Eval vm_compute in
    match localStorage after_setup with
    | Some st => st
    | None => mkVaultState 0 (mkUser EmptyString)
                (mkAuth EmptyString EmptyString [])
                (mkEnc EmptyString EmptyString EmptyString)
    end.

(** Unlocked, with one category. *)
Definition unlocked : App := Eval vm_compute in run [VerifyQuestions] right_answers.
Definition cash : Category.t :=
  Category.mk "c1" "Cash" 1000 (Some "BDT") (Some "savings").
Definition with_cash : App := Eval vm_compute in run [AddCategory cash] unlocked.

(** A session after setup: login, changes, logout. *)
Definition busy_session : list Event :=
  [LoginPassword "pw1234"; VerifyPassword] ++ type_answers "blue"
    ++ [VerifyQuestions; AddCategory cash;
        AddEntry (Entry.mk "e1" "c1" 50 "2024-01-01T00:00:00.000Z") "h1" "t1";
        AddCurrency "usd" 85; DeleteEntry "e1" "h2" "t2";
        DeleteCategory "c1" true "h3" "t3"; Reset false; Logout;
        LoginPassword "nope"; VerifyPassword].

Definition sample_key : CryptoKey := [x01; x02; x03].

(** 0.0085, the rate the currency form suggests. *)
Definition usd_rate : float :=
  Eval vm_compute in Number.of_decimal false 85 (-4).

Definition sample_payload : Payload :=
  {| categories := [cash];
     entries := [Entry.mk "e1" "c1" 50 "2024-01-01T00:00:00.000Z"];
     currencies := [Currency.mk "BDT" 1; Currency.mk "USD" usd_rate];
     baseCurrency := "BDT";
     history :=
       [HistoryItem.mk "h1" "t1" "entry:add"
          (Some (Entry.mk "e1" "c1" 50 "2024-01-01T00:00:00.000Z")) None None;
        HistoryItem.mk "h3" "t3" "category:delete" None (Some cash)
          (Some 1%float)] |}.

(** A category with remarks of 4096 characters, and a payload with
    it: its JSON text alone has more bytes than the simulated engine
    takes arguments. *)
Definition long_remarks : string :=
  string_of_list_ascii (repeat "x"%char 4096).
Definition big_cash : Category.t :=
  Category.mk "c2" "Notes" 0 (Some "BDT") (Some long_remarks).
Definition big_payload : Payload :=
  {| categories := [big_cash];
     entries := [];
     currencies := [Currency.mk "BDT" 1];
     baseCurrency := "BDT";
     history := [] |}.

(** The key the unlocked session holds, and answers that say the same
    as those of the setup. *)
Definition session_key : CryptoKey :=
  Eval vm_compute in
    match aesKey unlocked with
    | Some k => k
    | None => []
    end.

Definition typed_answers : list (string * string) :=
  [("Your first school?", "blue"); ("Mother's maiden name?", " SMITH");
   ("Favorite book?", "dune  "); ("City you were born?", "Dhaka");
   ("First pet's name?", "rex")].

(** The app evaluated where [window] is not defined. *)
Definition on_server : App := start Sim.server 0%N None.

(** Unlocked, with a category, an entry of it and two currencies. *)
Definition with_entry : App :=
  Eval vm_compute in
    run [AddEntry (Entry.mk "e1" "c1" 50 "2024-01-01T00:00:00.000Z") "h1" "t1";
         AddCurrency "usd" 85]
      with_cash.

End Scenario.

(* ================================================================== *)
(** * Hexadecimal round trip *)
(* ================================================================== *)

Lemma string_append_cons (c : ascii) (s t : string) :
  String c s +:+ t = String c (s +:+ t).
Proof. reflexivity. Qed.

Lemma string_append_nil_l (t : string) : EmptyString +:+ t = t.
Proof. reflexivity. Qed.

Lemma string_append_nil_r (s : string) : s +:+ EmptyString = s.
Proof.
  induction s as [|c s IH]; [done |].
  by rewrite string_append_cons, IH.
Qed.

Lemma string_length_append (s t : string) :
  String.length (s +:+ t) = String.length s + String.length t.
Proof.
  induction s as [|c s IH]; [done |].
  rewrite string_append_cons. simpl. by rewrite IH.
Qed.

Lemma string_append_assoc (s t u : string) : (s +:+ t) +:+ u = s +:+ (t +:+ u).
Proof.
  induction s as [|c s IH]; [done |].
  by rewrite !string_append_cons, IH.
Qed.

Lemma substring_prefix (x rest : string) :
  String.substring 0 (String.length x) (x +:+ rest) = x.
Proof.
  induction x as [|c x IH].
  - rewrite string_append_nil_l. by destruct rest.
  - rewrite string_append_cons. simpl. by rewrite IH.
Qed.

Lemma substring_skip (pre s : string) (n : nat) :
  String.substring (String.length pre) n (pre +:+ s) = String.substring 0 n s.
Proof.
  induction pre as [|c pre IH]; [done |].
  rewrite string_append_cons. simpl. exact IH.
Qed.

Lemma concat_nil_cons (x : string) (l : list string) :
  String.concat EmptyString (x :: l) = x +:+ String.concat EmptyString l.
Proof.
  destruct l as [|y l].
  - symmetry. apply string_append_nil_r.
  - reflexivity.
Qed.

Lemma toHex_cons (b : byte) (bs : list byte) :
  Hex.toHex (b :: bs) = Hex.byteHex b +:+ Hex.toHex bs.
Proof. unfold Hex.toHex. simpl map. apply concat_nil_cons. Qed.

Lemma byteHex_length (b : byte) : String.length (Hex.byteHex b) = 2.
Proof. destruct b; reflexivity. Qed.

Lemma parseInt16_byteHex (b : byte) :
  Hex.store_uint8 (Hex.parseInt16 (Hex.byteHex b)) = b.
Proof. destruct b; reflexivity. Qed.

Lemma toHex_length (bs : list byte) :
  String.length (Hex.toHex bs) = 2 * length bs.
Proof.
  induction bs as [|b bs IH]; [done |].
  rewrite toHex_cons, string_length_append, byteHex_length, IH. simpl. lia.
Qed.

Lemma fromHex_loop_toHex (bs : list byte) :
  forall (pre : string) (i : nat),
    String.length pre = i * 2 ->
    Hex.fromHex_loop (pre +:+ Hex.toHex bs) i (length bs) = bs.
Proof.
  induction bs as [|b bs IH]; intros pre i Hpre; [done |].
  simpl Hex.fromHex_loop. rewrite toHex_cons. f_equal.
  - rewrite <- Hpre, substring_skip.
    rewrite <- (byteHex_length b), substring_prefix.
    apply parseInt16_byteHex.
  - rewrite <- string_append_assoc. apply IH.
    rewrite string_length_append, byteHex_length. lia.
Qed.

(** [fromHex] reads back what [toHex] wrote. *)
Lemma fromHex_toHex (bs : list byte) : Hex.fromHex (Hex.toHex bs) = bs.
Proof.
  unfold Hex.fromHex. rewrite toHex_length.
  replace (2 * length bs / 2) with (length bs)
    by (symmetry; rewrite Nat.mul_comm; apply Nat.div_mul; lia).
  apply (fromHex_loop_toHex bs EmptyString 0). done.
Qed.

(* ================================================================== *)
(** * Base64 round trip *)
(* ================================================================== *)

Ltac Zify.zify_post_hook ::= Z.to_euclidean_division_equations.

(** A test that holds of the 64 digits, checked digit by digit. *)
Lemma for_all_sextets (f : N -> bool) :
  forallb f (map N.of_nat (seq 0 64)) = true ->
  forall n, is_sextet n -> f n = true.
Proof.
  intros Hall n Hn. rewrite forallb_forall in Hall. apply Hall.
  apply in_map_iff. exists (N.to_nat n).
  unfold is_sextet in Hn. split; [lia |]. apply in_seq. lia.
Qed.

Lemma index_of_char_of (n : N) :
  is_sextet n -> Base64.index_of (Base64.char_of n) = Some n.
Proof.
  intros Hn.
  pose proof (for_all_sextets
                (fun k => match Base64.index_of (Base64.char_of k) with
                          | Some m => N.eqb m k
                          | None => false
                          end)
                eq_refl n Hn) as Hk.
  simpl in Hk. destruct (Base64.index_of (Base64.char_of n)); [| done].
  apply N.eqb_eq in Hk. by subst.
Qed.

Lemma char_of_not_pad (n : N) :
  is_sextet n -> Ascii.eqb (Base64.char_of n) Base64.pad = false.
Proof.
  intros Hn.
  pose proof (for_all_sextets
                (fun k => negb (Ascii.eqb (Base64.char_of k) Base64.pad))
                eq_refl n Hn) as Hk.
  by apply negb_true_iff in Hk.
Qed.

Lemma char_of_not_whitespace (n : N) :
  is_sextet n -> Base64.is_ascii_whitespace (Base64.char_of n) = false.
Proof.
  intros Hn.
  pose proof (for_all_sextets
                (fun k => negb (Base64.is_ascii_whitespace (Base64.char_of k)))
                eq_refl n Hn) as Hk.
  by apply negb_true_iff in Hk.
Qed.

(** Induction three bytes at a time, as [sextets] recurses. *)
Lemma list_ind3 {A} (P : list A -> Prop) :
  P [] ->
  (forall a, P [a]) ->
  (forall a b, P [a; b]) ->
  (forall a b c l, P l -> P (a :: b :: c :: l)) ->
  forall l, P l.
Proof.
  intros H0 H1 H2 H3.
  fix IH 1.
  intros [|a [|b [|c l]]]; [exact H0 | apply H1 | apply H2 | apply H3, IH].
Qed.

Lemma sextets_bound (bs : list N) :
  Forall Bytes.is_byte bs -> Forall is_sextet (Base64.sextets bs).
Proof.
  unfold Bytes.is_byte, is_sextet.
  induction bs as [|a|a b|a b c l IH] using list_ind3; intros Hbs; simpl.
  - constructor.
  - inversion_clear Hbs. repeat constructor; lia.
  - inversion_clear Hbs as [|? ? Ha Hb]. inversion_clear Hb.
    repeat constructor; lia.
  - inversion_clear Hbs as [|? ? Ha Hb]. inversion_clear Hb as [|? ? Hb' Hc].
    inversion_clear Hc as [|? ? Hc' Hl].
    repeat (constructor; [lia |]). auto.
Qed.

Lemma octets_sextets (bs : list N) :
  Forall Bytes.is_byte bs -> Base64.octets (Base64.sextets bs) = bs.
Proof.
  unfold Bytes.is_byte.
  induction bs as [|a|a b|a b c l IH] using list_ind3; intros Hbs.
  - done.
  - inversion_clear Hbs. simpl. f_equal. lia.
  - inversion_clear Hbs as [|? ? Ha Hb]. inversion_clear Hb.
    simpl. f_equal; [lia | f_equal; lia].
  - inversion_clear Hbs as [|? ? Ha Hb]. inversion_clear Hb as [|? ? Hb' Hc].
    inversion_clear Hc as [|? ? Hc' Hl].
    change (Base64.sextets (a :: b :: c :: l))
      with (a / 4 :: (a mod 4) * 16 + b / 16 :: (b mod 16) * 4 + c / 64
              :: c mod 64 :: Base64.sextets l)%N.
    cbn [Base64.octets]. rewrite (IH Hl).
    f_equal; [lia | f_equal; [lia | f_equal; lia]].
Qed.

(** The length of the digits and of the padding, by the length of the
    bytes modulo 3. *)
Lemma sextets_shape (bs : list N) :
  exists k,
    (length bs = 3 * k /\ length (Base64.sextets bs) = 4 * k
       /\ Base64.padding (length bs) = [])
    \/ (length bs = 3 * k + 1 /\ length (Base64.sextets bs) = 4 * k + 2
          /\ Base64.padding (length bs) = [Base64.pad; Base64.pad])
    \/ (length bs = 3 * k + 2 /\ length (Base64.sextets bs) = 4 * k + 3
          /\ Base64.padding (length bs) = [Base64.pad]).
Proof.
  induction bs as [|a|a b|a b c l IH] using list_ind3.
  - exists 0. left. done.
  - exists 0. right. left. done.
  - exists 0. right. right. done.
  - destruct IH as [k IH]. exists (S k).
    assert (Hpad : Base64.padding (length (a :: b :: c :: l))
                   = Base64.padding (length l)).
    { unfold Base64.padding. f_equal. simpl length.
      replace (S (S (S (length l)))) with (length l + 1 * 3) by lia.
      by rewrite Nat.Div0.mod_add. }
    rewrite Hpad. simpl length.
    destruct IH as [(? & ? & ?)|[(? & ? & ?)|(? & ? & ?)]];
      [left | right; left | right; right]; repeat split; (lia || done).
Qed.

Lemma indices_char_of (ds : list N) :
  Forall is_sextet ds -> Base64.indices (map Base64.char_of ds) = Some ds.
Proof.
  induction 1 as [|d ds Hd _ IH]; [done |].
  simpl. by rewrite index_of_char_of, IH.
Qed.

Lemma digits_are_digit_chars (ds : list N) :
  Forall is_sextet ds -> Forall is_digit_char (map Base64.char_of ds).
Proof.
  intros Hds. apply Forall_map. eapply Forall_impl; [exact Hds |].
  intros n Hn. split; [by apply char_of_not_pad | by apply char_of_not_whitespace].
Qed.

Lemma filter_keeps_text (cs : list ascii) (p : nat) :
  Forall is_digit_char cs ->
  List.filter (fun c => negb (Base64.is_ascii_whitespace c))
    (cs ++ repeat Base64.pad p) = cs ++ repeat Base64.pad p.
Proof.
  intros Hcs. apply forallb_filter_id, forallb_forall.
  intros c Hc. apply in_app_or in Hc as [Hc | Hc].
  - rewrite Forall_forall in Hcs.
    apply list_elem_of_In, Hcs in Hc as [_ ->]. done.
  - apply repeat_spec in Hc as ->. reflexivity.
Qed.

(** Removing the padding gives the digits back. *)
Lemma strip_padding_digits (cs : list ascii) (p : nat) :
  Forall is_digit_char cs ->
  p <= 2 ->
  (length cs + p) mod 4 = 0 ->
  Base64.strip_padding (cs ++ repeat Base64.pad p) = cs.
Proof.
  intros Hcs Hp Hlen. unfold Base64.strip_padding.
  rewrite length_app, repeat_length, Hlen. simpl Nat.eqb. cbv iota.
  rewrite rev_app_distr, rev_repeat.
  assert (Hrev : Forall is_digit_char (rev cs)) by (by apply Forall_rev).
  assert (Hrr : rev (rev cs) = cs) by apply rev_involutive.
  destruct p as [|[|[|p]]]; [| | | lia].
  - change (repeat Base64.pad 0 ++ rev cs) with (rev cs).
    rewrite app_nil_r.
    destruct (rev cs) as [|c1 [|c2 r]] eqn:E.
    + done.
    + inversion_clear Hrev as [|? ? [Hc1 _] _]. cbv iota beta. by rewrite Hc1.
    + inversion_clear Hrev as [|? ? [Hc1 _] _]. cbv iota beta. by rewrite Hc1.
  - change (repeat Base64.pad 1 ++ rev cs) with (Base64.pad :: rev cs).
    destruct (rev cs) as [|c2 r] eqn:E.
    + apply (f_equal (@length ascii)) in E. rewrite length_rev in E.
      simpl in E. rewrite E in Hlen. done.
    + inversion_clear Hrev as [|? ? [Hc2 _] _]. cbv iota beta.
      change (Ascii.eqb Base64.pad Base64.pad) with true. cbv iota.
      rewrite Hc2. exact Hrr.
  - change (repeat Base64.pad 2 ++ rev cs)
      with (Base64.pad :: Base64.pad :: rev cs).
    cbv iota beta.
    change (Ascii.eqb Base64.pad Base64.pad) with true. cbv iota.
    exact Hrr.
Qed.

(** [atob] decodes what [btoa] encoded. *)
Lemma atob_btoa (s : string) : Base64.atob (Base64.btoa s) = Some s.
Proof.
  unfold Base64.atob, Base64.btoa.
  set (bs := Bytes.codes s).
  assert (Hbs : Forall Bytes.is_byte bs).
  { unfold bs, Bytes.codes. apply Forall_map, Forall_forall.
    intros c _. apply N_ascii_bounded. }
  pose proof (sextets_bound bs Hbs) as Hds.
  pose proof (digits_are_digit_chars _ Hds) as Hcs.
  rewrite list_ascii_of_string_of_list_ascii.
  unfold Base64.padding. rewrite filter_keeps_text by exact Hcs.
  fold (Base64.padding (length bs)).
  destruct (sextets_shape bs) as [k Hshape].
  assert (Hstrip : Base64.strip_padding
                     (map Base64.char_of (Base64.sextets bs)
                        ++ Base64.padding (length bs))
                   = map Base64.char_of (Base64.sextets bs)).
  { unfold Base64.padding.
    apply strip_padding_digits; [exact Hcs | |].
    - apply Nat.lt_succ_r, Nat.mod_upper_bound. lia.
    - rewrite length_map.
      destruct Hshape as [(E1 & E2 & E3)|[(E1 & E2 & E3)|(E1 & E2 & E3)]];
        unfold Base64.padding in E3;
        apply (f_equal (@length ascii)) in E3; rewrite repeat_length in E3;
        rewrite E3, E2; simpl length.
      + replace (4 * k + 0) with (0 + k * 4) by lia. by rewrite Nat.Div0.mod_add.
      + replace (4 * k + 2 + 2) with (0 + (k + 1) * 4) by lia.
        by rewrite Nat.Div0.mod_add.
      + replace (4 * k + 3 + 1) with (0 + (k + 1) * 4) by lia.
        by rewrite Nat.Div0.mod_add. }
  rewrite Hstrip, length_map.
  assert (Hne : Nat.eqb (length (Base64.sextets bs) mod 4) 1 = false).
  { apply Nat.eqb_neq.
    destruct Hshape as [(_ & E2 & _)|[(_ & E2 & _)|(_ & E2 & _)]]; rewrite E2.
    - replace (4 * k) with (0 + k * 4) by lia. by rewrite Nat.Div0.mod_add.
    - replace (4 * k + 2) with (2 + k * 4) by lia. by rewrite Nat.Div0.mod_add.
    - replace (4 * k + 3) with (3 + k * 4) by lia. by rewrite Nat.Div0.mod_add. }
  rewrite Hne, (indices_char_of _ Hds), (octets_sextets _ Hbs).
  unfold bs, Bytes.of_codes, Bytes.codes. f_equal.
  rewrite map_map.
  rewrite (map_ext _ (fun c => c)) by (intros c; apply ascii_N_embedding).
  rewrite map_id. apply string_of_list_ascii_of_string.
Qed.

(* ================================================================== *)
(** * The helpers *)
(* ================================================================== *)

Section HelperFacts.
Context `{WebCrypto} `{RandomSource} `{Engine}.
Implicit Types (e : Env) (g : Rng) (p : Payload) (key : CryptoKey).

(** [b64encode] returns exactly on the buffers the engine takes, and
    returns the base64 text. *)
Lemma b64encode_encodable e (buf : list byte) :
  encodable e buf -> b64encode e buf = Some (encoded e buf).
Proof.
  unfold encodable, b64encode, fromCharCode_spread, encoded.
  intros [Hw | Hlen]; [by rewrite Hw |].
  destruct (window_defined e); [| done].
  apply Nat.leb_le in Hlen. by rewrite Hlen.
Qed.


Lemma b64encode_RangeError e (buf : list byte) :
  window_defined e = true ->
  max_arguments < length buf ->
  b64encode e buf = None.
Proof.
  intros Hw Hlen. unfold b64encode, fromCharCode_spread. rewrite Hw.
  apply Nat.leb_gt in Hlen. by rewrite Hlen.
Qed.

(** The buffers of a few bytes (an IV, a salt, a digest) are always
    taken. *)
Lemma encodable_small e (buf : list byte) :
  length buf <= 1024 -> encodable e buf.
Proof.
  intros Hlen. right. pose proof max_arguments_floor. lia.
Qed.

Lemma b64decode_encoded e (buf : list byte) :
  window_defined e = true -> b64decode e (encoded e buf) = Some buf.
Proof.
  intros Hw. unfold b64decode, encoded. rewrite Hw, atob_btoa. simpl.
  by rewrite list_byte_of_string_of_list_byte.
Qed.

(** [randBytes] always returns a buffer of the requested length. *)
Lemma randBytes_returns e (n : nat) g :
  exists a g', randBytes e n g = (Some a, g') /\ length a = n.
Proof.
  unfold randBytes.
  destruct (window_defined e && window_crypto e).
  - pose proof (getRandomValues_length g n) as Hlen.
    destruct (getRandomValues g n) as [a g']. exists a, g'. done.
  - exists (repeat x00 n), g. by rewrite repeat_length.
Qed.

Lemma length_list_byte_of_string (s : string) :
  length (list_byte_of_string s) = String.length s.
Proof.
  unfold list_byte_of_string. rewrite length_map.
  induction s as [|c s IH]; simpl; congruence.
Qed.

(** The ciphertext of a payload: its text and the tag. *)
Lemma ciphertext_length p key (iv0 : list byte) :
  length (AES_GCM_encrypt key iv0
            (list_byte_of_string (Codec.JSON_stringify p)))
  = String.length (Codec.JSON_stringify p) + 16.
Proof. by rewrite AES_GCM_encrypt_length, length_list_byte_of_string. Qed.

Lemma sealable_encodable e p key (iv0 : list byte) :
  sealable e p ->
  encodable e
    (AES_GCM_encrypt key iv0 (list_byte_of_string (Codec.JSON_stringify p))).
Proof.
  unfold sealable, encodable. rewrite ciphertext_length. tauto.
Qed.

Lemma bind_returns {A B} (m : Eff A) (k : A -> Eff B) g (x : A) g' :
  m g = (Some x, g') -> bind m k g = k x g'.
Proof. intros Hm. unfold bind. by rewrite Hm. Qed.

Lemma bind_ret {A B} (x : A) (k : A -> Eff B) g : bind (ret x) k g = k x g.
Proof. reflexivity. Qed.

Lemma bind_throws {A B} (m : Eff A) (k : A -> Eff B) g g' :
  m g = (None, g') -> bind m k g = (None, g').
Proof. intros Hm. unfold bind. by rewrite Hm. Qed.

(** [encryptJson] up to the two calls of [b64encode]. *)
Lemma encryptJson_encodes e p key g (iv0 : list byte) g' :
  subtle e = true ->
  randBytes e 12 g = (Some iv0, g') ->
  length iv0 = 12 ->
  encryptJson e p key g
  = match b64encode e
            (AES_GCM_encrypt key iv0
               (list_byte_of_string (Codec.JSON_stringify p))) with
    | Some cipherB64 =>
        (Some {| iv := encoded e iv0; ciphertext := cipherB64 |}, g')
    | None => (None, g')
    end.
Proof.
  intros Hs Hr Hlen. unfold encryptJson.
  rewrite (bind_returns _ _ _ _ _ Hr), Hs. simpl await. rewrite bind_ret.
  rewrite (b64encode_encodable e iv0) by (apply encodable_small; lia).
  simpl await. rewrite bind_ret.
  destruct (b64encode e _) as [cipherB64|]; reflexivity.
Qed.

(** What [encryptJson] returns, from the IV it drew, for a payload whose
    ciphertext [b64encode] takes. *)
Lemma encryptJson_returns e p key g :
  subtle e = true ->
  sealable e p ->
  exists iv0 g',
    randBytes e 12 g = (Some iv0, g')
    /\ length iv0 = 12
    /\ encryptJson e p key g
       = (Some {| iv := encoded e iv0;
                  ciphertext :=
                    encoded e
                      (AES_GCM_encrypt key iv0
                         (list_byte_of_string (Codec.JSON_stringify p))) |},
          g').
Proof.
  intros Hs Hfit.
  destruct (randBytes_returns e 12 g) as (iv0 & g' & Hr & Hlen).
  exists iv0, g'. split; [exact Hr |]. split; [exact Hlen |].
  rewrite (encryptJson_encodes e p key g iv0 g' Hs Hr Hlen).
  by rewrite (b64encode_encodable e _ (sealable_encodable e p key iv0 Hfit)).
Qed.

(** Beyond the limit of the engine [encryptJson] throws: the ciphertext
    is spread into the arguments of [String.fromCharCode]. *)
Lemma encryptJson_RangeError e p key g :
  window_defined e = true ->
  subtle e = true ->
  max_arguments < String.length (Codec.JSON_stringify p) + 16 ->
  exists g', encryptJson e p key g = (None, g').
Proof.
  intros Hw Hs Hbig.
  destruct (randBytes_returns e 12 g) as (iv0 & g' & Hr & Hlen).
  exists g'. rewrite (encryptJson_encodes e p key g iv0 g' Hs Hr Hlen).
  rewrite b64encode_RangeError; [done | exact Hw |].
  by rewrite ciphertext_length.
Qed.

Lemma decryptJson_sealed e p key (iv0 : list byte) :
  window_defined e = true ->
  subtle e = true ->
  Codec.survives_JSON p ->
  decryptJson e
    (encoded e
       (AES_GCM_encrypt key iv0 (list_byte_of_string (Codec.JSON_stringify p))))
    (encoded e iv0) key
  = Some p.
Proof.
  intros Hw Hs Hp. unfold decryptJson.
  rewrite !b64decode_encoded by exact Hw. simpl.
  rewrite Hs, AES_GCM_decrypt_encrypt. simpl.
  rewrite string_of_list_byte_of_string. exact Hp.
Qed.

(** C1.  In a browser (where [window] is defined and [crypto.subtle]
    works), for a payload [p] that survives JSON serialization and every
    key: when the ciphertext of [p] (its text and 16 bytes of tag) has
    no more bytes than the engine takes arguments, [encryptJson(p, key)]
    returns, and [decryptJson] applied to the ciphertext and the IV it
    returned, with the same key, gives back [p]; whatever
    [encryptJson] returns decrypts to [p].  When the ciphertext has
    more bytes, [encryptJson] throws, in [b64encode], and there is
    nothing to decrypt. *)
Theorem encryptJson_decryptJson_roundtrip e p key g :
  window_defined e = true ->
  subtle e = true ->
  Codec.survives_JSON p ->
  (String.length (Codec.JSON_stringify p) + 16 <= max_arguments ->
   exists enc0 g',
     encryptJson e p key g = (Some enc0, g')
     /\ decryptJson e (ciphertext enc0) (iv enc0) key = Some p)
  /\ (forall enc0 g',
        encryptJson e p key g = (Some enc0, g') ->
        decryptJson e (ciphertext enc0) (iv enc0) key = Some p)
  /\ (max_arguments < String.length (Codec.JSON_stringify p) + 16 ->
      exists g', encryptJson e p key g = (None, g')).
Proof.
  intros Hw Hs Hp.
  assert (Hfits : String.length (Codec.JSON_stringify p) + 16 <= max_arguments ->
                  exists enc0 g',
                    encryptJson e p key g = (Some enc0, g')
                    /\ decryptJson e (ciphertext enc0) (iv enc0) key = Some p).
  { intros Hfit.
    destruct (encryptJson_returns e p key g Hs (or_intror Hfit))
      as (iv0 & g' & _ & _ & Henc).
    eexists _, g'. split; [exact Henc |].
    simpl. by apply decryptJson_sealed. }
  split; [exact Hfits |]. split.
  - intros enc0 g' Henc.
    destruct (Nat.le_gt_cases (String.length (Codec.JSON_stringify p) + 16)
                max_arguments) as [Hfit | Hbig].
    + destruct (Hfits Hfit) as (enc1 & g1 & Henc1 & Hdec).
      rewrite Henc in Henc1. by injection Henc1 as <- _.
    + destruct (encryptJson_RangeError e p key g Hw Hs Hbig) as (g1 & Hnone).
      rewrite Henc in Hnone. discriminate Hnone.
  - by apply encryptJson_RangeError.
Qed.

End HelperFacts.

(* ================================================================== *)
(** * Setup *)
(* ================================================================== *)

Lemma is_empty_true (s : string) : Str.is_empty s = true <-> s = EmptyString.
Proof. destruct s; simpl; split; congruence. Qed.

Lemma is_empty_false (s : string) : Str.is_empty s = false <-> s <> EmptyString.
Proof. destruct s; simpl; split; congruence. Qed.

Lemma qa_incomplete_exists (l : list (string * string)) :
  existsb qa_incomplete l = true
  <-> Exists (fun qa => fst qa = EmptyString \/ snd qa = EmptyString) l.
Proof.
  rewrite existsb_exists, Exists_exists. unfold qa_incomplete.
  split; intros (qa & Hin & Hqa); exists qa.
  - split; [by apply list_elem_of_In |].
    apply orb_true_iff in Hqa. by rewrite <- !is_empty_true.
  - split; [by apply list_elem_of_In |].
    apply orb_true_iff. by rewrite !is_empty_true.
Qed.

Section SetupFacts.
Context `{WebCrypto} `{RandomSource} `{Engine}.
Implicit Types (e : Env) (g : Rng) (a : App).

(** With [crypto.subtle] at hand [hashAnswer] returns: a digest has 32
    bytes, which [b64encode] takes. *)
Lemma hashAnswer_returns e (answer : string) (salt : list byte) :
  subtle e = true ->
  hashAnswer e answer salt
  = Some (encoded e
            (SHA256 (list_byte_of_string (Str.toLowerCase (Str.trim answer))
                       ++ salt))).
Proof.
  intros Hs. unfold hashAnswer, sha256. rewrite Hs. simpl.
  apply b64encode_encodable, encodable_small. rewrite SHA256_length. lia.
Qed.

(** One turn of the loop of [handleSetup]. *)
Lemma hashQAs_cons e (qa : string * string) (l : list (string * string))
      g (salt : list byte) g1 :
  subtle e = true ->
  randBytes e 16 g = (Some salt, g1) ->
  length salt = 16 ->
  hashQAs e (qa :: l) g
  = (hashed <- hashQAs e l ;;
     ret ({| q := fst qa;
             saltB64 := encoded e salt;
             hashB64 :=
               encoded e
                 (SHA256 (list_byte_of_string
                            (Str.toLowerCase (Str.trim (snd qa)))
                          ++ salt)) |} :: hashed)) g1.
Proof.
  intros Hs Hr Hlen. simpl hashQAs.
  rewrite (bind_returns _ _ _ _ _ Hr), (hashAnswer_returns e _ _ Hs).
  simpl await. rewrite bind_ret.
  rewrite (b64encode_encodable e salt) by (apply encodable_small; lia).
  simpl await. by rewrite bind_ret.
Qed.

Lemma hashQAs_returns e (l : list (string * string)) g :
  subtle e = true ->
  exists hashed g',
    hashQAs e l g = (Some hashed, g') /\ map q hashed = map fst l.
Proof.
  intros Hs. revert g. induction l as [|qa l IH]; intros g.
  - exists [], g. done.
  - destruct (randBytes_returns e 16 g) as (salt & g1 & Hr & Hlen).
    destruct (IH g1) as (hashed & g' & Hh & Hq).
    eexists _, g'.
    rewrite (hashQAs_cons e qa l g salt g1 Hs Hr Hlen).
    rewrite (bind_returns _ _ _ _ _ Hh).
    split; [reflexivity |]. simpl. by rewrite Hq.
Qed.

(** The ciphertext of the initial payload is small. *)
Lemma sealable_initialData e : sealable e initialData.
Proof.
  right. pose proof max_arguments_floor as Hfloor.
  assert (Hlen : String.length (Codec.JSON_stringify initialData) + 16 <= 1024).
  { apply Nat.leb_le. vm_compute. reflexivity. }
  lia.
Qed.

(** With [crypto.subtle] at hand [handleSetup] builds its record: the
    key it encrypts under is derived from the password and the salt
    whose hexadecimal form it stores. *)
Lemma buildState_returns e (name password : string)
      (l : list (string * string)) g :
  subtle e = true ->
  exists state g' saltEnc key iv0,
    buildState e name password l g = (Some state, g')
    /\ version state = 1%Z
    /\ user_firstName (user state) = name
    /\ map q (qas (auth state)) = map fst l
    /\ saltEncHex (enc state) = Hex.toHex saltEnc
    /\ getAesKeyFromPassword e password saltEnc = Some key
    /\ ivB64 (enc state) = encoded e iv0
    /\ ciphertextB64 (enc state)
       = encoded e
           (AES_GCM_encrypt key iv0
              (list_byte_of_string (Codec.JSON_stringify initialData))).
Proof.
  intros Hs. unfold buildState.
  destruct (randBytes_returns e 16 g) as (saltPwd & g1 & Hr1 & _).
  destruct (randBytes_returns e 16 g1) as (saltEnc & g2 & Hr2 & _).
  destruct (hashQAs_returns e l g2 Hs) as (hashed & g3 & Hh & Hq).
  pose (key := PBKDF2_SHA256 (list_byte_of_string password) saltEnc 210000 32).
  assert (Hkey : getAesKeyFromPassword e password saltEnc = Some key).
  { unfold getAesKeyFromPassword, pbkdf2. by rewrite Hs. }
  destruct (encryptJson_returns e initialData key g3 Hs
              (sealable_initialData e))
    as (iv0 & g4 & _ & _ & Henc).
  eexists _, g4, saltEnc, key, iv0.
  rewrite (bind_returns _ _ _ _ _ Hr1).
  unfold pbkdf2 at 1. rewrite Hs. simpl await.
  rewrite bind_ret, (bind_returns _ _ _ _ _ Hr2).
  rewrite Hkey. simpl await.
  rewrite bind_ret, (bind_returns _ _ _ _ _ Hh), (bind_returns _ _ _ _ _ Henc).
  unfold ret. split; [reflexivity |]. simpl. done.
Qed.

Lemma survives_JSON_initialData : Codec.survives_JSON initialData.
Proof. vm_compute. reflexivity. Qed.

(** C6.  [handleSetup] on an input that fails validation shows one of
    the validation messages and changes nothing else: the stored record
    and [boot] are as before.  On a valid input, in a browser with
    [crypto.subtle], it stores a record and goes to the login screen;
    the stored ciphertext, decrypted with the stored IV under the key
    derived from the password and the stored salt, is exactly the
    initial payload. *)
Theorem handleSetup_validation_and_result a :
  (setup_invalid (setupScreen a) ->
     exists m,
       validation_message m
       /\ handleSetup a
          = with_setupScreen (SetupScreen.setErr m (setupScreen a)) a
       /\ localStorage (handleSetup a) = localStorage a
       /\ boot (handleSetup a) = boot a)
  /\ (~ setup_invalid (setupScreen a) ->
      window_defined (env a) = true ->
      subtle (env a) = true ->
      exists state key,
        localStorage (handleSetup a) = Some state
        /\ boot (handleSetup a) = login
        /\ version state = 1%Z
        /\ user_firstName (user state) = SetupScreen.firstName (setupScreen a)
        /\ getAesKeyFromPassword (env a)
             (SetupScreen.password (setupScreen a))
             (Hex.fromHex (saltEncHex (enc state))) = Some key
        /\ decryptJson (env a) (ciphertextB64 (enc state))
             (ivB64 (enc state)) key = Some initialData).
Proof.
  unfold handleSetup. destruct (setupScreen a) as [fn pw cf l er] eqn:Es.
  unfold setup_invalid. simpl.
  destruct (Str.is_empty fn) eqn:E1.
  { split.
    - intros _. exists msg_required. unfold validation_message. auto.
    - intros Hv. exfalso. apply Hv. left. by apply is_empty_true. }
  destruct (Str.is_empty pw) eqn:E2.
  { split.
    - intros _. exists msg_required. unfold validation_message. auto.
    - intros Hv. exfalso. apply Hv. right; left. by apply is_empty_true. }
  destruct (Str.is_empty cf) eqn:E3.
  { split.
    - intros _. exists msg_required. unfold validation_message. auto.
    - intros Hv. exfalso. apply Hv. do 2 right; left. by apply is_empty_true. }
  simpl. destruct (String.eqb_spec pw cf) as [Epw | Epw]; simpl.
  2:{ split.
      - intros _. exists msg_mismatch. unfold validation_message. auto.
      - intros Hv. exfalso. apply Hv. do 3 right; left. exact Epw. }
  destruct (existsb qa_incomplete l) eqn:E4.
  { split.
    - intros _. exists msg_questions. unfold validation_message. auto.
    - intros Hv. exfalso. apply Hv. do 4 right.
      by apply qa_incomplete_exists. }
  apply is_empty_false in E1, E2, E3.
  split.
  - intros [?|[?|[?|[?|Hex]]]]; try done.
    apply qa_incomplete_exists in Hex. congruence.
  - intros _ Hw Hs.
    destruct (buildState_returns (env a) fn pw l (rng a) Hs)
      as (state & g' & saltEnc & key & iv0 & Hb & Hver & Hname & _ & Hsalt
          & Hkey & Hiv & Hct).
    rewrite Hb. exists state, key. simpl.
    unfold saveState. rewrite Hw.
    repeat split; try done.
    + by rewrite Hsalt, fromHex_toHex.
    + rewrite Hiv, Hct.
      apply decryptJson_sealed; [exact Hw | exact Hs |].
      apply survives_JSON_initialData.
Qed.

End SetupFacts.

(* ================================================================== *)
(** * Login *)
(* ================================================================== *)

Section LoginFacts.
Context `{WebCrypto} `{RandomSource} `{Engine}.
Implicit Types (e : Env) (g : Rng) (a : App) (st : VaultState) (qa : QA).
Implicit Types (answers : gmap string string).

Lemma verifyPassword_compares a st (v : string) :
  loadState (env a) (localStorage a) = Some st ->
  derivedVerifier (env a) (LoginScreen.password (loginScreen a)) st = Some v ->
  verifyPassword a
  = if negb (String.eqb v (verifierHex (auth st)))
    then with_loginScreen
           (LoginScreen.setErr msg_invalid_password
              (LoginScreen.setErr EmptyString (loginScreen a))) a
    else with_loginScreen
           (LoginScreen.setStep 2
              (LoginScreen.setErr EmptyString (loginScreen a))) a.
Proof.
  intros Hst Hv. unfold verifyPassword, derivedVerifier in *.
  rewrite Hst. simpl in *.
  destruct (pbkdf2 _ _ _ _ _) as [bits|]; simpl in *; [| done].
  by injection Hv as <-.
Qed.

(** The session moves to step 2 exactly when the recomputed verifier
    is the stored one. *)
Lemma verifyPassword_advances_iff a st (v : string) :
  LoginScreen.step (loginScreen a) = 1 ->
  loadState (env a) (localStorage a) = Some st ->
  derivedVerifier (env a) (LoginScreen.password (loginScreen a)) st = Some v ->
  LoginScreen.step (loginScreen (verifyPassword a)) = 2
  <-> v = verifierHex (auth st).
Proof.
  intros Hstep1 Hst Hv. rewrite (verifyPassword_compares a st v Hst Hv).
  destruct (String.eqb_spec v (verifierHex (auth st))); simpl.
  - done.
  - rewrite Hstep1. split; [done | congruence].
Qed.

(** C3 (amended).  When the verifier derived from the password typed
    at step 1 differs from the stored one, [verifyPassword] changes
    nothing but the message: the session stays at its step, and the
    message is "Invalid password.", which names the password. *)
Theorem verifyPassword_wrong_password a st (v : string) :
  loadState (env a) (localStorage a) = Some st ->
  derivedVerifier (env a) (LoginScreen.password (loginScreen a)) st = Some v ->
  v <> verifierHex (auth st) ->
  verifyPassword a
  = with_loginScreen
      (LoginScreen.setErr msg_invalid_password (loginScreen a)) a
  /\ LoginScreen.step (loginScreen (verifyPassword a))
     = LoginScreen.step (loginScreen a)
  /\ LoginScreen.err (loginScreen (verifyPassword a)) = msg_invalid_password
  /\ msg_invalid_password <> msg_answers.
Proof.
  intros Hst Hv Hne. rewrite (verifyPassword_compares a st v Hst Hv).
  destruct (String.eqb_spec v (verifierHex (auth st))); [done |].
  simpl. done.
Qed.

(** ** The answers *)

(** One turn of the loop of [verifyQuestions], for an answer that is a
    string: its normalized text and the salt are hashed, and the base64
    text of the digest is compared with the stored hash. *)
Lemma checkAnswers_cons e answers qa (l : list QA)
      (salt : list byte) (answer : string) :
  subtle e = true ->
  b64decode e (saltB64 qa) = Some salt ->
  LoginScreen.answerFor answers (q qa) = Some answer ->
  checkAnswers e answers (qa :: l)
  = if String.eqb
         (encoded e
            (SHA256 (list_byte_of_string (Str.toLowerCase (Str.trim answer))
                       ++ salt)))
         (hashB64 qa)
    then checkAnswers e answers l
    else Some false.
Proof.
  intros Hs Hsalt Hans. simpl. rewrite Hsalt. simpl. rewrite Hans. simpl.
  rewrite (hashAnswer_returns e answer salt Hs). simpl.
  by destruct (String.eqb _ _).
Qed.

Lemma checkAnswers_cons_match e answers qa (l : list QA) :
  answer_matches e answers qa ->
  checkAnswers e answers (qa :: l) = checkAnswers e answers l.
Proof.
  intros (salt & answer & Hs & Ha & Hh). simpl. rewrite Hs. simpl.
  rewrite Ha. simpl. rewrite Hh. simpl.
  by rewrite String.eqb_refl.
Qed.

Lemma checkAnswers_cons_wrong e answers qa (l : list QA) :
  answer_wrong e answers qa ->
  checkAnswers e answers (qa :: l) = Some false.
Proof.
  intros (salt & answer & given & Hs & Ha & Hh & Hne). simpl.
  rewrite Hs. simpl. rewrite Ha. simpl.
  rewrite Hh. simpl. by destruct (String.eqb_spec given (hashB64 qa)).
Qed.

(** A question without an answer whose text is an inherited name: the
    loop throws. *)
Lemma checkAnswers_cons_inherited e answers qa (l : list QA) :
  answer_inherited answers qa ->
  checkAnswers e answers (qa :: l) = None.
Proof.
  intros [Hnone Hin]. simpl.
  destruct (b64decode e (saltB64 qa)) as [salt|]; [| done]. simpl.
  unfold LoginScreen.answerFor. by rewrite Hnone, Hin.
Qed.

Lemma checkAnswers_app_match e answers (before l : list QA) :
  Forall (answer_matches e answers) before ->
  checkAnswers e answers (before ++ l) = checkAnswers e answers l.
Proof.
  induction 1 as [|qa before Hqa _ IH]; [done |].
  change ((qa :: before) ++ l) with (qa :: (before ++ l)).
  by rewrite checkAnswers_cons_match.
Qed.

Lemma checkAnswers_true e answers (l : list QA) :
  checkAnswers e answers l = Some true -> Forall (answer_matches e answers) l.
Proof.
  induction l as [|qa l IH]; intros Hc; [constructor |].
  simpl in Hc.
  destruct (b64decode e (saltB64 qa)) as [salt|] eqn:Hs; [| done].
  simpl in Hc.
  destruct (LoginScreen.answerFor answers (q qa)) as [answer|] eqn:Ha;
    [| done].
  simpl in Hc.
  destruct (hashAnswer e answer salt) as [given|] eqn:Hh; [| done].
  simpl in Hc.
  destruct (String.eqb_spec given (hashB64 qa)) as [-> | Hne]; [| done].
  constructor; [| by apply IH]. by exists salt, answer.
Qed.

Lemma checkAnswers_some_wrong e answers (l : list QA) :
  Forall (fun qa => answer_matches e answers qa \/ answer_wrong e answers qa) l ->
  Exists (answer_wrong e answers) l ->
  checkAnswers e answers l = Some false.
Proof.
  induction 1 as [|qa l [Hm | Hw] _ IH]; intros Hex.
  - by apply Exists_nil in Hex.
  - rewrite checkAnswers_cons_match by exact Hm.
    apply Exists_cons in Hex as [Hw | Hex]; [| by apply IH].
    destruct Hm as (salt & answer & Hs & Ha & Hh),
             Hw as (salt' & answer' & given & Hs' & Ha' & Hh' & Hne).
    congruence.
  - by apply checkAnswers_cons_wrong.
Qed.

Lemma boot_onUnlock (key : CryptoKey) (d : Payload) a :
  boot (onUnlock key d a) = app.
Proof.
  unfold onUnlock, persist.
  destruct (loadState _ _); [| done].
  destruct (aesKey a); [| done].
  by destruct (encryptJson _ _ _ _) as [[?|] ?].
Qed.

(** What [verifyQuestions] does when its loop returns at a mismatch,
    and when it throws. *)
Lemma verifyQuestions_rejects a st :
  loadState (env a) (localStorage a) = Some st ->
  checkAnswers (env a) (LoginScreen.answers (loginScreen a)) (qas (auth st))
  = Some false ->
  verifyQuestions a
  = with_loginScreen (LoginScreen.setErr msg_answers (loginScreen a)) a.
Proof.
  intros Hst Hc. unfold verifyQuestions. simpl. by rewrite Hst, Hc.
Qed.

Lemma verifyQuestions_throws a st :
  loadState (env a) (localStorage a) = Some st ->
  checkAnswers (env a) (LoginScreen.answers (loginScreen a)) (qas (auth st))
  = None ->
  verifyQuestions a
  = with_loginScreen (LoginScreen.setErr msg_decrypt (loginScreen a)) a.
Proof.
  intros Hst Hc. unfold verifyQuestions. simpl. by rewrite Hst, Hc.
Qed.

(** C4.  [verifyQuestions] unlocks only when every stored question is
    answered with an answer that hashes to its stored hash.  When the
    stored questions can all be checked and at least one answer is
    wrong (in particular when exactly one of five is wrong and the
    other four match) it does not unlock, and what it leaves is the
    state it started from with the one message "One or more answers
    are incorrect.", whichever question was wrong.  A question that
    cannot be checked is one left without an answer whose text is a
    name inherited from [Object.prototype]: when the questions before
    it match, the vault stays locked too, but the message is "Failed
    to decrypt.", which is not the message of a wrong answer. *)
Theorem verifyQuestions_all_or_nothing a :
  boot a = login ->
  (boot (verifyQuestions a) = app ->
     exists st,
       loadState (env a) (localStorage a) = Some st
       /\ Forall (answer_matches (env a) (LoginScreen.answers (loginScreen a)))
            (qas (auth st)))
  /\ (forall st,
        loadState (env a) (localStorage a) = Some st ->
        Forall (fun qa =>
                  answer_matches (env a) (LoginScreen.answers (loginScreen a)) qa
                  \/ answer_wrong (env a) (LoginScreen.answers (loginScreen a)) qa)
          (qas (auth st)) ->
        Exists (answer_wrong (env a) (LoginScreen.answers (loginScreen a)))
          (qas (auth st)) ->
        verifyQuestions a
        = with_loginScreen (LoginScreen.setErr msg_answers (loginScreen a)) a
        /\ boot (verifyQuestions a) = login)
  /\ (forall st (before after : list QA) qa,
        loadState (env a) (localStorage a) = Some st ->
        qas (auth st) = before ++ qa :: after ->
        length (qas (auth st)) = 5 ->
        Forall (answer_matches (env a) (LoginScreen.answers (loginScreen a)))
          (before ++ after) ->
        answer_wrong (env a) (LoginScreen.answers (loginScreen a)) qa ->
        verifyQuestions a
        = with_loginScreen (LoginScreen.setErr msg_answers (loginScreen a)) a
        /\ boot (verifyQuestions a) = login)
  /\ (forall st (before after : list QA) qa,
        loadState (env a) (localStorage a) = Some st ->
        qas (auth st) = before ++ qa :: after ->
        Forall (answer_matches (env a) (LoginScreen.answers (loginScreen a)))
          before ->
        answer_inherited (LoginScreen.answers (loginScreen a)) qa ->
        verifyQuestions a
        = with_loginScreen (LoginScreen.setErr msg_decrypt (loginScreen a)) a
        /\ boot (verifyQuestions a) = login
        /\ msg_decrypt <> msg_answers).
Proof.
  intros Hboot.
  assert (Hfail : forall st,
             loadState (env a) (localStorage a) = Some st ->
             Forall (fun qa =>
                       answer_matches (env a)
                         (LoginScreen.answers (loginScreen a)) qa
                       \/ answer_wrong (env a)
                            (LoginScreen.answers (loginScreen a)) qa)
               (qas (auth st)) ->
             Exists (answer_wrong (env a) (LoginScreen.answers (loginScreen a)))
               (qas (auth st)) ->
             verifyQuestions a
             = with_loginScreen
                 (LoginScreen.setErr msg_answers (loginScreen a)) a
             /\ boot (verifyQuestions a) = login).
  { intros st Hst Hall Hex.
    rewrite (verifyQuestions_rejects a st Hst
               (checkAnswers_some_wrong _ _ _ Hall Hex)).
    split; [done | exact Hboot]. }
  split; [| split; [exact Hfail | split]].
  - unfold verifyQuestions. simpl.
    destruct (loadState (env a) (localStorage a)) as [st|] eqn:Hst.
    + destruct (checkAnswers _ _ _) as [[|]|] eqn:Hc; simpl.
      * intros _. exists st. split; [done |]. by apply checkAnswers_true.
      * rewrite Hboot. done.
      * rewrite Hboot. done.
    + simpl. rewrite Hboot. done.
  - intros st before after qa Hst Hq _ Hm Hw.
    apply Forall_app in Hm as [Hb Ha].
    apply (Hfail st Hst); rewrite Hq.
    + apply Forall_app. split.
      * eapply Forall_impl; [exact Hb | by left].
      * apply Forall_cons. split; [by right |].
        eapply Forall_impl; [exact Ha | by left].
    + apply Exists_app. right. by apply Exists_cons_hd.
  - intros st before after qa Hst Hq Hb Hin.
    rewrite (verifyQuestions_throws a st Hst).
    + split; [done |]. split; [exact Hboot | done].
    + rewrite Hq, (checkAnswers_app_match _ _ _ _ Hb).
      by apply checkAnswers_cons_inherited.
Qed.

(** C10.  A stored question reached by the loop (those before it
    match) for which no answer was typed, with a text that is not an
    inherited name, is checked with the empty string: the digest of the
    salt alone, in base64, is compared with the stored hash; when they
    differ the vault stays locked with the message of a wrong answer,
    and when they are equal the question counts as answered.  The
    answer is looked up by question text: a typed answer is the one
    entry under its text, typing again under the text replaces it, and
    a next stored question with the same text is compared with the hash
    of that same answer under its own salt.  When the text of the
    question without an answer is a name inherited from
    [Object.prototype], the loop throws instead and the message is
    "Failed to decrypt.". *)
Theorem verifyQuestions_missing_and_shared_answers
        a st (before after : list QA) qa (salt : list byte) :
  loadState (env a) (localStorage a) = Some st ->
  subtle (env a) = true ->
  qas (auth st) = before ++ qa :: after ->
  Forall (answer_matches (env a) (LoginScreen.answers (loginScreen a))) before ->
  b64decode (env a) (saltB64 qa) = Some salt ->
  let e := env a in
  let answers := LoginScreen.answers (loginScreen a) in
  let hash_of (answer : string) (salt0 : list byte) :=
    encoded e
      (SHA256 (list_byte_of_string (Str.toLowerCase (Str.trim answer))
                 ++ salt0)) in
  (answers !! q qa = None ->
   LoginScreen.inherited (q qa) = false ->
   hash_of EmptyString salt = encoded e (SHA256 salt)
   /\ checkAnswers e answers (qas (auth st))
      = (if String.eqb (encoded e (SHA256 salt)) (hashB64 qa)
         then checkAnswers e answers after
         else Some false)
   /\ (encoded e (SHA256 salt) <> hashB64 qa ->
       verifyQuestions a
       = with_loginScreen (LoginScreen.setErr msg_answers (loginScreen a)) a)
   /\ (encoded e (SHA256 salt) = hashB64 qa -> answer_matches e answers qa))
  /\ (forall (v : string) qa2 (after2 : list QA) (salt2 : list byte),
        answers !! q qa = Some v ->
        after = qa2 :: after2 ->
        q qa2 = q qa ->
        b64decode e (saltB64 qa2) = Some salt2 ->
        checkAnswers e answers (qas (auth st))
        = (if String.eqb (hash_of v salt) (hashB64 qa)
           then if String.eqb (hash_of v salt2) (hashB64 qa2)
                then checkAnswers e answers after2
                else Some false
           else Some false))
  /\ (forall (l : LoginScreen.state) (text v1 v2 : string),
        LoginScreen.answers
          (LoginScreen.setAnswer text v2 (LoginScreen.setAnswer text v1 l))
          !! text
        = Some v2
        /\ LoginScreen.answers
             (LoginScreen.setAnswer text v2 (LoginScreen.setAnswer text v1 l))
           = LoginScreen.answers (LoginScreen.setAnswer text v2 l))
  /\ (answers !! q qa = None ->
      LoginScreen.inherited (q qa) = true ->
      checkAnswers e answers (qas (auth st)) = None
      /\ verifyQuestions a
         = with_loginScreen (LoginScreen.setErr msg_decrypt (loginScreen a)) a).
Proof.
  intros Hst Hs Hq Hb Hsalt e answers hash_of.
  assert (Hloop : forall l,
             checkAnswers e answers (before ++ l) = checkAnswers e answers l).
  { intros l. by apply checkAnswers_app_match. }
  split; [| split; [| split]].
  - intros Hnone Hin.
    assert (Hans : LoginScreen.answerFor answers (q qa) = Some EmptyString).
    { unfold LoginScreen.answerFor. by rewrite Hnone, Hin. }
    assert (Hc : checkAnswers e answers (qas (auth st))
                 = (if String.eqb (encoded e (SHA256 salt)) (hashB64 qa)
                    then checkAnswers e answers after
                    else Some false)).
    { rewrite Hq, Hloop.
      exact (checkAnswers_cons e answers qa after salt EmptyString
               Hs Hsalt Hans). }
    split; [reflexivity |]. split; [exact Hc |]. split.
    + intros Hne. apply (verifyQuestions_rejects a st Hst).
      fold e answers. rewrite Hc.
      by destruct (String.eqb_spec (encoded e (SHA256 salt)) (hashB64 qa)).
    + intros Heq. exists salt, EmptyString.
      split; [exact Hsalt |]. split; [exact Hans |].
      rewrite (hashAnswer_returns e EmptyString salt Hs). by f_equal.
  - intros v qa2 after2 salt2 Hv -> Hq2 Hsalt2.
    assert (Hans : LoginScreen.answerFor answers (q qa) = Some v).
    { unfold LoginScreen.answerFor. by rewrite Hv. }
    rewrite Hq, Hloop.
    rewrite (checkAnswers_cons e answers qa _ salt v Hs Hsalt Hans).
    fold (hash_of v salt).
    destruct (String.eqb (hash_of v salt) (hashB64 qa)); [| done].
    rewrite <- Hq2 in Hans.
    exact (checkAnswers_cons e answers qa2 after2 salt2 v Hs Hsalt2 Hans).
  - intros l text v1 v2. simpl. split.
    + by rewrite lookup_insert_eq.
    + by rewrite insert_insert_eq.
  - intros Hnone Hin.
    assert (Hc : checkAnswers e answers (qas (auth st)) = None).
    { rewrite Hq, Hloop. by apply checkAnswers_cons_inherited. }
    split; [exact Hc |]. by apply (verifyQuestions_throws a st Hst).
Qed.

End LoginFacts.

(* ================================================================== *)
(** * Mutations and persistence *)
(* ================================================================== *)

Section AppFacts.
Context `{WebCrypto} `{RandomSource} `{Engine}.
Implicit Types (e : Env) (g : Rng) (a : App) (st : VaultState).
Implicit Types (nd : Payload) (captured : option CryptoKey).

(** ** [persist] *)

(** [persist] either leaves the cell alone or stores the record it
    read with the two fields of one [encryptJson] result; it touches
    nothing of the session but the generator. *)
Lemma persist_frame captured nd a :
  let a' := fst (persist captured nd a) in
  env a' = env a /\ boot a' = boot a /\ firstName a' = firstName a
  /\ aesKey a' = aesKey a /\ data a' = data a
  /\ setupScreen a' = setupScreen a /\ loginScreen a' = loginScreen a
  /\ (localStorage a' = localStorage a
      \/ exists st key enc0 g',
           loadState (env a) (localStorage a) = Some st
           /\ captured = Some key
           /\ encryptJson (env a) nd key (rng a) = (Some enc0, g')
           /\ localStorage a' = Some (assign_enc enc0 st)
           /\ ivB64 (enc (assign_enc enc0 st)) = iv enc0
           /\ ciphertextB64 (enc (assign_enc enc0 st)) = ciphertext enc0).
Proof.
  unfold persist.
  destruct (loadState (env a) (localStorage a)) as [st|] eqn:Hst;
    [| simpl; tauto].
  destruct captured as [key|]; [| simpl; tauto].
  destruct (encryptJson (env a) nd key (rng a)) as [[enc0|] g'] eqn:He;
    [| simpl; tauto].
  simpl. repeat (split; [done |]).
  unfold loadState in Hst. unfold saveState.
  destruct (window_defined (env a)); [| done].
  right. exists st, key, enc0, g'. done.
Qed.

Lemma assign_enc_identity (enc0 : Encrypted) st :
  same_identity st (assign_enc enc0 st).
Proof. done. Qed.

Lemma persist_identity captured nd a st :
  localStorage a = Some st ->
  exists st',
    localStorage (fst (persist captured nd a)) = Some st'
    /\ same_identity st st'.
Proof.
  intros Hls.
  destruct (persist_frame captured nd a)
    as (_ & _ & _ & _ & _ & _ & _ & [Hsame | Hnew]).
  - exists st. by rewrite Hsame.
  - destruct Hnew as (st0 & key & enc0 & g' & Hst & _ & _ & Hnew & _).
    exists (assign_enc enc0 st0). split; [exact Hnew |].
    unfold loadState in Hst. destruct (window_defined (env a)); [| done].
    rewrite Hls in Hst. injection Hst as <-. apply assign_enc_identity.
Qed.

Lemma update_frame nd a :
  boot (update nd a) = boot a
  /\ data (update nd a) = nd
  /\ localStorage (update nd a) = localStorage (fst (persist (aesKey a) nd a)).
Proof.
  unfold update. simpl.
  by destruct (persist_frame (aesKey a) nd a) as (_ & -> & _).
Qed.

Lemma update_identity nd a st :
  localStorage a = Some st ->
  exists st', localStorage (update nd a) = Some st' /\ same_identity st st'.
Proof.
  intros Hls. destruct (update_frame nd a) as (_ & _ & ->).
  by apply persist_identity.
Qed.

(** ** History *)

Lemma onAddCategory_data (cat : Category.t) a :
  data (onAddCategory cat a)
  = with_categories (categories (data a) ++ [cat]) (data a).
Proof. unfold onAddCategory. apply update_frame. Qed.

(** C5 (amended).  Adding an entry, deleting an entry and deleting a
    category (one that exists, the dialog confirmed) each leave the
    history of before with one record appended, which carries the type
    of the change and the entry or category concerned.  Adding or
    updating a currency, setting the base currency and removing a
    currency leave the history as it was. *)
Theorem history_of_mutations a :
  (forall (entry : Entry.t) (id ts : string),
      history (data (onAddEntry entry id ts a))
      = history (data a)
          ++ [HistoryItem.mk id ts "entry:add" (Some entry) None None])
  /\ (forall (entryId id ts : string),
        history (data (onDeleteEntry entryId id ts a))
        = history (data a)
            ++ [HistoryItem.mk id ts "entry:delete"
                  (List.find (is_entry entryId) (entries (data a)))
                  None None])
  /\ (forall (catId id ts : string) (cat : Category.t),
        List.find (is_category catId) (categories (data a)) = Some cat ->
        exists n,
          history (data (onDeleteCategory catId true id ts a))
          = history (data a)
              ++ [HistoryItem.mk id ts "category:delete" None (Some cat)
                    (Some n)])
  /\ (forall (code : string) (rate : float),
        history (data (onAddCurrency code rate a)) = history (data a))
  /\ (forall (code : string),
        history (data (onSetBaseCurrency code a)) = history (data a))
  /\ (forall (code : string),
        history (data (onRemoveCurrency code a)) = history (data a)).
Proof.
  split; [| split; [| split; [| split; [| split]]]].
  - intros entry id ts. reflexivity.
  - intros entryId id ts. reflexivity.
  - intros catId id ts cat Hfind. unfold onDeleteCategory.
    rewrite Hfind. simpl negb. cbv iota. eexists. reflexivity.
  - intros code rate. reflexivity.
  - intros code. reflexivity.
  - intros code. unfold onRemoveCurrency.
    destruct (String.eqb _ _); [done |].
    destruct (existsb _ _); [done |].
    reflexivity.
Qed.

End AppFacts.

(* ================================================================== *)
(** * The session *)
(* ================================================================== *)

Section SessionFacts.
Context `{WebCrypto} `{RandomSource} `{Engine}.
Implicit Types (e : Env) (g : Rng) (a : App) (st : VaultState).
Implicit Types (nd : Payload) (ev : Event).

Lemma keeps_identity_same st a a' :
  localStorage a = Some st -> localStorage a' = localStorage a ->
  keeps_identity st a'.
Proof. intros Hls Heq. exists st. by rewrite Heq. Qed.

Lemma onUnlock_identity (key : CryptoKey) (d : Payload) a st :
  localStorage a = Some st -> keeps_identity st (onUnlock key d a).
Proof.
  intros Hls. unfold onUnlock. by apply persist_identity.
Qed.

Lemma verifyPassword_frame a :
  localStorage (verifyPassword a) = localStorage a
  /\ boot (verifyPassword a) = boot a.
Proof.
  unfold verifyPassword.
  destruct (_ ≫= _) as [[v stored]|]; [| done].
  by destruct (negb _).
Qed.

Lemma verifyQuestions_identity a st :
  localStorage a = Some st ->
  boot a = login ->
  keeps_identity st (verifyQuestions a)
  /\ boot (verifyQuestions a) <> setup.
Proof.
  intros Hls Hboot. unfold verifyQuestions.
  destruct (checkAnswers _ _ _) as [[|]|];
    try (split; [by apply (keeps_identity_same st a) | simpl; congruence]).
  destruct (_ ≫= _) as [[key d]|];
    try (split; [by apply (keeps_identity_same st a) | simpl; congruence]).
  split; [by apply onUnlock_identity | by rewrite boot_onUnlock].
Qed.

Lemma update_keeps nd a st :
  localStorage a = Some st -> boot a <> setup ->
  keeps_identity st (update nd a) /\ boot (update nd a) <> setup.
Proof.
  intros Hls Hboot. destruct (update_frame nd a) as (Hb & _ & _).
  split; [by apply update_identity | by rewrite Hb].
Qed.

(** One event other than a confirmed reset, away from the setup
    screen: the identity of the stored record is kept and the setup
    screen is not reached. *)
Lemma step_identity a ev st :
  boot a <> setup ->
  ev <> Reset true ->
  localStorage a = Some st ->
  keeps_identity st (step a ev) /\ boot (step a ev) <> setup.
Proof.
  intros Hboot Hev Hls.
  assert (Hsame : forall a', localStorage a' = localStorage a ->
                             boot a' <> setup ->
                             keeps_identity st a' /\ boot a' <> setup).
  { intros a' Hl Hb. split; [by apply (keeps_identity_same st a) | done]. }
  unfold step. destruct (boot a) eqn:Hb; [| done | |].
  - (* loading *)
    destruct ev; try (apply Hsame; [done | congruence]).
    unfold mount, loadState. destruct (window_defined (env a)).
    + rewrite Hls. by apply Hsame.
    + apply Hsame; [done | congruence].
  - (* login *)
    unfold login_step.
    destruct (LoginScreen.step (loginScreen a)) as [|[|[|n]]];
      destruct ev; try (apply Hsame; simpl; [done | congruence]).
    + destruct (verifyPassword_frame a) as [Hl Hb'].
      apply Hsame; [done | congruence].
    + destruct ok; [done |]. apply Hsame; simpl; [done | congruence].
    + by apply verifyQuestions_identity.
  - (* app *)
    assert (Hne : boot a <> setup) by congruence.
    destruct ev; try (apply Hsame; simpl; [done | congruence]);
      try (by apply update_keeps).
    + destruct ok; [done |]. apply Hsame; simpl; [done | congruence].
    + unfold onDeleteCategory.
      destruct (List.find _ _); [| apply Hsame; [done | congruence]].
      destruct (negb ok); [apply Hsame; [done | congruence] |].
      by apply update_keeps.
    + unfold onRemoveCurrency.
      destruct (String.eqb _ _); [apply Hsame; [done | congruence] |].
      destruct (existsb _ _); [apply Hsame; [done | congruence] |].
      by apply update_keeps.
Qed.

Lemma same_identity_trans (s1 s2 s3 : VaultState) :
  same_identity s1 s2 -> same_identity s2 s3 -> same_identity s1 s3.
Proof.
  unfold same_identity. intros (? & ? & ? & ?) (? & ? & ? & ?).
  repeat split; congruence.
Qed.

Lemma run_identity (evs : list Event) :
  forall a st,
    boot a <> setup ->
    Forall (fun ev => ev <> Reset true) evs ->
    localStorage a = Some st ->
    keeps_identity st (run evs a) /\ boot (run evs a) <> setup.
Proof.
  induction evs as [|ev evs IH]; intros a st Hboot Hevs Hls.
  - split; [by exists st | done].
  - inversion_clear Hevs as [|? ? Hev Hrest].
    destruct (step_identity a ev st Hboot Hev Hls) as [(st1 & Hls1 & Hid1) Hb1].
    destruct (IH (step a ev) st1 Hb1 Hrest Hls1) as [(st2 & Hls2 & Hid2) Hb2].
    split; [| exact Hb2].
    exists st2. split; [exact Hls2 |]. by apply (same_identity_trans st st1).
Qed.

(** C7.  Once a record is stored and the setup screen is left, no
    sequence of events without a confirmed reset changes [version],
    [user] (the first name), [auth] (the password salt, the verifier,
    the questions with their salts and hashes) or the encryption salt
    of the stored record.  A call of [persist] either leaves the cell
    as it is or stores the record it read with [enc.ivB64] and
    [enc.ciphertextB64] both taken from one [encryptJson] result, and
    nothing else changed. *)
Theorem auth_block_is_immutable (evs : list Event) a st :
  boot a <> setup ->
  localStorage a = Some st ->
  Forall (fun ev => ev <> Reset true) evs ->
  (exists st',
      localStorage (run evs a) = Some st'
      /\ version st' = version st
      /\ user_firstName (user st') = user_firstName (user st)
      /\ auth st' = auth st
      /\ saltEncHex (enc st') = saltEncHex (enc st))
  /\ (forall (captured : option CryptoKey) nd,
        localStorage (fst (persist captured nd a)) = localStorage a
        \/ exists key enc0 g',
             captured = Some key
             /\ encryptJson (env a) nd key (rng a) = (Some enc0, g')
             /\ localStorage (fst (persist captured nd a))
                = Some {| version := version st;
                          user := user st;
                          auth := auth st;
                          enc := {| saltEncHex := saltEncHex (enc st);
                                    ivB64 := iv enc0;
                                    ciphertextB64 := ciphertext enc0 |} |}).
Proof.
  intros Hboot Hls Hevs. split.
  - destruct (run_identity evs a st Hboot Hevs Hls)
      as [(st' & Hls' & Hv & Hu & Ha & Hs) _].
    exists st'. rewrite Hu. done.
  - intros captured nd.
    destruct (persist_frame captured nd a)
      as (_ & _ & _ & _ & _ & _ & _ & [Hsame | Hnew]); [by left |].
    destruct Hnew as (st0 & key & enc0 & g' & Hst & Hk & He & Hnew & _).
    right. exists key, enc0, g'. repeat split; [done | done |].
    unfold loadState in Hst. destruct (window_defined (env a)); [| done].
    rewrite Hls in Hst. injection Hst as <-. exact Hnew.
Qed.

End SessionFacts.

(* ================================================================== *)
(** * Failures and the missing random source *)
(* ================================================================== *)

Section FailureFacts.
Context `{WebCrypto} `{RandomSource} `{Engine}.
Implicit Types (e : Env) (g : Rng) (a : App) (st : VaultState).

(** C8 (amended).  A refused setup input, a password that does not
    take the session to step 2 and answers that do not unlock are each
    reported with a message of the screen.  A call of [persist] that
    reads no stored record, or has no key, settles normally and
    changes nothing; without [window], [saveState] leaves the cell as
    it is. *)
Theorem failures_reported_or_skipped :
  (forall a,
      setup_invalid (setupScreen a) ->
      validation_message (SetupScreen.err (setupScreen (handleSetup a))))
  /\ (forall a,
        LoginScreen.step (loginScreen a) = 1 ->
        LoginScreen.step (loginScreen (verifyPassword a)) <> 2 ->
        LoginScreen.err (loginScreen (verifyPassword a)) = msg_invalid_password
        \/ LoginScreen.err (loginScreen (verifyPassword a)) = msg_wrong)
  /\ (forall a,
        boot a = login ->
        boot (verifyQuestions a) <> app ->
        LoginScreen.err (loginScreen (verifyQuestions a)) = msg_answers
        \/ LoginScreen.err (loginScreen (verifyQuestions a)) = msg_decrypt)
  /\ (forall (captured : option CryptoKey) (nd : Payload) a,
        loadState (env a) (localStorage a) = None \/ captured = None ->
        persist captured nd a = (a, Fulfilled))
  /\ (forall e (obj : VaultState) (ls : Storage),
        window_defined e = false -> saveState e obj ls = ls).
Proof.
  split; [| split; [| split; [| split]]].
  - intros a Hinv.
    destruct (handleSetup_validation_and_result a) as [Hbad _].
    destruct (Hbad Hinv) as (m & Hm & -> & _). exact Hm.
  - intros a _ Hstep. unfold verifyPassword in *.
    destruct (_ ≫= _) as [[v stored]|]; [| by right].
    destruct (negb _); [by left |]. simpl in Hstep. done.
  - intros a Hboot Hlocked. unfold verifyQuestions in *.
    destruct (checkAnswers _ _ _) as [[|]|]; [| by left | by right].
    destruct (_ ≫= _) as [[key d]|]; [| by right].
    by rewrite boot_onUnlock in Hlocked.
  - intros captured nd a Hno. unfold persist.
    destruct (loadState _ _) as [st|]; [| done].
    destruct captured; [| done]. by destruct Hno.
  - intros e obj ls Hw. unfold saveState. by rewrite Hw.
Qed.

Lemma hashQAs_zero_salts e (l : list (string * string)) g :
  no_random_source e ->
  subtle e = true ->
  exists hashed,
    hashQAs e l g = (Some hashed, g)
    /\ Forall (fun qa => saltB64 qa = encoded e (repeat x00 16)) hashed.
Proof.
  intros Hno Hs. induction l as [|qa l (hashed & IH & Hz)].
  - exists []. done.
  - assert (Hr : randBytes e 16 g = (Some (repeat x00 16), g)).
    { unfold randBytes. by rewrite Hno. }
    eexists.
    rewrite (hashQAs_cons e qa l g _ g Hs Hr (repeat_length _ _)).
    rewrite (bind_returns _ _ _ _ _ IH).
    split; [reflexivity |]. by constructor.
Qed.

(** C9.  When [window] or [window.crypto] is missing, [randBytes(n)]
    returns [n] zero bytes and draws nothing.  So, where
    [crypto.subtle] still works, the IV [encryptJson] uses and returns
    (for a payload whose ciphertext [b64encode] takes) is twelve zero
    bytes, and every salt of the record [handleSetup] builds (password
    salt, encryption salt, the salt of each question) and its IV are
    zero. *)
Theorem randBytes_without_crypto e g :
  no_random_source e ->
  (forall n, randBytes e n g = (Some (repeat x00 n), g)
             /\ length (repeat x00 n) = n)
  /\ (subtle e = true ->
      (forall (p : Payload) (key : CryptoKey),
          sealable e p ->
          encryptJson e p key g
          = (Some {| iv := encoded e (repeat x00 12);
                     ciphertext :=
                       encoded e
                         (AES_GCM_encrypt key (repeat x00 12)
                            (list_byte_of_string (Codec.JSON_stringify p))) |},
             g))
      /\ (forall (p : Payload) (key : CryptoKey) enc0 g',
            encryptJson e p key g = (Some enc0, g') ->
            iv enc0 = encoded e (repeat x00 12) /\ g' = g)
      /\ (forall (name password : string) (l : list (string * string)),
            exists state,
              buildState e name password l g = (Some state, g)
              /\ saltPwdHex (auth state) = Hex.toHex (repeat x00 16)
              /\ saltEncHex (enc state) = Hex.toHex (repeat x00 16)
              /\ Forall (fun qa => saltB64 qa = encoded e (repeat x00 16))
                   (qas (auth state))
              /\ ivB64 (enc state) = encoded e (repeat x00 12))).
Proof.
  intros Hno.
  assert (Hr : forall n g0, randBytes e n g0 = (Some (repeat x00 n), g0)).
  { intros n g0. unfold randBytes. by rewrite Hno. }
  split; [intros n; split; [apply Hr | apply repeat_length] |].
  intros Hs.
  assert (Hstep : forall (p : Payload) (key : CryptoKey),
             encryptJson e p key g
             = match b64encode e
                       (AES_GCM_encrypt key (repeat x00 12)
                          (list_byte_of_string (Codec.JSON_stringify p))) with
               | Some cipherB64 =>
                   (Some {| iv := encoded e (repeat x00 12);
                            ciphertext := cipherB64 |}, g)
               | None => (None, g)
               end).
  { intros p key.
    apply (encryptJson_encodes e p key g _ g Hs (Hr 12 g)).
    apply repeat_length. }
  assert (Henc : forall (p : Payload) (key : CryptoKey),
             sealable e p ->
             encryptJson e p key g
             = (Some {| iv := encoded e (repeat x00 12);
                        ciphertext :=
                          encoded e
                            (AES_GCM_encrypt key (repeat x00 12)
                               (list_byte_of_string (Codec.JSON_stringify p))) |},
                g)).
  { intros p key Hfit. rewrite Hstep.
    by rewrite (b64encode_encodable e _ (sealable_encodable e p key _ Hfit)). }
  split; [exact Henc |]. split.
  - intros p key enc0 g' He. rewrite Hstep in He.
    destruct (b64encode e _) as [cipherB64|]; [| discriminate He].
    injection He as <- <-. done.
  - intros name password l.
    destruct (hashQAs_zero_salts e l g Hno Hs) as (hashed & Hh & Hz).
    eexists. unfold buildState.
    rewrite (bind_returns _ _ _ _ _ (Hr 16 g)).
    unfold pbkdf2 at 1. rewrite Hs. simpl await.
    rewrite bind_ret, (bind_returns _ _ _ _ _ (Hr 16 g)).
    unfold getAesKeyFromPassword, pbkdf2. rewrite Hs. simpl await.
    rewrite bind_ret, (bind_returns _ _ _ _ _ Hh).
    rewrite (bind_returns _ _ _ _ _ (Henc _ _ (sealable_initialData e))).
    simpl. done.
Qed.

End FailureFacts.

(* ================================================================== *)
(** * The theorems at concrete sessions *)
(* ================================================================== *)

Lemma encryptJson_decryptJson_roundtrip_witness :
  window_defined Sim.browser = true
  /\ subtle Sim.browser = true
  /\ Codec.survives_JSON Scenario.sample_payload
  /\ String.length (Codec.JSON_stringify Scenario.sample_payload) + 16
     <= max_arguments
  /\ exists enc0 g',
       encryptJson Sim.browser Scenario.sample_payload Scenario.sample_key 0%N
       = (Some enc0, g')
       /\ decryptJson Sim.browser (ciphertext enc0) (iv enc0) Scenario.sample_key
          = Some Scenario.sample_payload.
Proof.
  assert (Hp : Codec.survives_JSON Scenario.sample_payload)
    by (vm_compute; reflexivity).
  assert (Hfit : String.length (Codec.JSON_stringify Scenario.sample_payload)
                 + 16 <= max_arguments)
    by (apply Nat.leb_le; vm_compute; reflexivity).
  split; [reflexivity |]. split; [reflexivity |].
  split; [exact Hp |]. split; [exact Hfit |].
  exact (proj1 (encryptJson_decryptJson_roundtrip Sim.browser
                  Scenario.sample_payload Scenario.sample_key 0%N
                  eq_refl eq_refl Hp) Hfit).
Defined.

(** C1, as the spec states it, fails: a payload with remarks of 4096
    characters survives JSON serialization, and in a browser whose
    engine takes 4096 arguments [encryptJson] throws on it: there is no
    ciphertext and no IV to decrypt. *)
Lemma encryptJson_decryptJson_roundtrip_counterexample :
  window_defined Sim.browser = true
  /\ subtle Sim.browser = true
  /\ Codec.survives_JSON Scenario.big_payload
  /\ @max_arguments Sim_engine
     < String.length (Codec.JSON_stringify Scenario.big_payload) + 16
  /\ fst (encryptJson Sim.browser Scenario.big_payload Scenario.sample_key 0%N)
     = None.
Proof.
  split; [reflexivity |]. split; [reflexivity |].
  split; [vm_compute; reflexivity |].
  split; [apply Nat.leb_le; vm_compute; reflexivity |].
  vm_compute. reflexivity.
Qed.

Lemma handleSetup_validation_and_result_witness :
  (exists m,
      validation_message m
      /\ handleSetup Scenario.setup_unconfirmed
         = with_setupScreen
             (SetupScreen.setErr m (setupScreen Scenario.setup_unconfirmed))
             Scenario.setup_unconfirmed
      /\ localStorage (handleSetup Scenario.setup_unconfirmed)
         = localStorage Scenario.setup_unconfirmed
      /\ boot (handleSetup Scenario.setup_unconfirmed)
         = boot Scenario.setup_unconfirmed)
  /\ (exists state key,
        localStorage (handleSetup Scenario.setup_filled) = Some state
        /\ boot (handleSetup Scenario.setup_filled) = login
        /\ version state = 1%Z
        /\ user_firstName (user state)
           = SetupScreen.firstName (setupScreen Scenario.setup_filled)
        /\ getAesKeyFromPassword (env Scenario.setup_filled)
             (SetupScreen.password (setupScreen Scenario.setup_filled))
             (Hex.fromHex (saltEncHex (enc state))) = Some key
        /\ decryptJson (env Scenario.setup_filled) (ciphertextB64 (enc state))
             (ivB64 (enc state)) key = Some initialData).
Proof.
  split.
  - apply (handleSetup_validation_and_result Scenario.setup_unconfirmed).
    do 3 right. left. vm_compute. discriminate.
  - apply (handleSetup_validation_and_result Scenario.setup_filled).
    + unfold setup_invalid. vm_compute.
      intros [E|[E|[E|[E|E]]]]; try discriminate E.
      * by apply E.
      * repeat (apply Exists_cons in E as [[E|E]|E]; [discriminate E | discriminate E |]).
        by apply Exists_nil in E.
    + reflexivity.
    + reflexivity.
Defined.

Lemma verifyPassword_wrong_password_witness :
  verifyPassword Scenario.wrong_password
  = with_loginScreen
      (LoginScreen.setErr msg_invalid_password
         (loginScreen Scenario.wrong_password))
      Scenario.wrong_password
  /\ LoginScreen.step (loginScreen (verifyPassword Scenario.wrong_password))
     = LoginScreen.step (loginScreen Scenario.wrong_password)
  /\ LoginScreen.err (loginScreen (verifyPassword Scenario.wrong_password))
     = msg_invalid_password
  /\ msg_invalid_password <> msg_answers.
Proof.
  eapply verifyPassword_wrong_password.
  - vm_compute. reflexivity.
  - vm_compute. reflexivity.
  - vm_compute. discriminate.
Defined.

(** C3, as the spec states it, fails: after setup, a wrong password is
    reported as "Invalid password." and wrong answers as "One or more
    answers are incorrect."; the message tells which factor failed. *)
Lemma password_failure_message_names_the_factor :
  LoginScreen.err (loginScreen (verifyPassword Scenario.wrong_password))
  = "Invalid password."
  /\ LoginScreen.step (loginScreen (verifyPassword Scenario.wrong_password)) = 1
  /\ LoginScreen.err (loginScreen (verifyQuestions Scenario.one_wrong_answer))
     = "One or more answers are incorrect."
  /\ ~ same_message_as_answers Scenario.wrong_password Scenario.one_wrong_answer.
Proof.
  split; [vm_compute; reflexivity |].
  split; [vm_compute; reflexivity |].
  split; [vm_compute; reflexivity |].
  unfold same_message_as_answers. vm_compute. discriminate.
Qed.

Lemma verifyQuestions_all_or_nothing_witness :
  boot Scenario.one_wrong_answer = login
  /\ loadState (env Scenario.one_wrong_answer)
       (localStorage Scenario.one_wrong_answer) = Some Scenario.stored
  /\ length (qas (auth Scenario.stored)) = 5
  /\ verifyQuestions Scenario.one_wrong_answer
     = with_loginScreen
         (LoginScreen.setErr msg_answers (loginScreen Scenario.one_wrong_answer))
         Scenario.one_wrong_answer
  /\ boot (verifyQuestions Scenario.one_wrong_answer) = login.
Proof.
  assert (Hboot : boot Scenario.one_wrong_answer = login) by reflexivity.
  assert (Hst : loadState (env Scenario.one_wrong_answer)
                  (localStorage Scenario.one_wrong_answer)
                = Some Scenario.stored) by reflexivity.
  assert (Hlen : length (qas (auth Scenario.stored)) = 5) by reflexivity.
  split; [exact Hboot |]. split; [exact Hst |]. split; [exact Hlen |].
  destruct (verifyQuestions_all_or_nothing Scenario.one_wrong_answer Hboot)
    as (_ & _ & Hone & _).
  eapply (Hone Scenario.stored [] _ _ Hst); [reflexivity | exact Hlen | |].
  - repeat (apply List.Forall_cons;
            [eexists _, _; split; [vm_compute; reflexivity |];
             split; [vm_compute; reflexivity |];
             vm_compute; reflexivity |]).
    apply List.Forall_nil.
  - eexists _, _, _. split; [vm_compute; reflexivity |].
    split; [vm_compute; reflexivity |].
    split; [vm_compute; reflexivity |]. vm_compute. discriminate.
Defined.

(** C4, as the spec states it, fails: on the vault whose first question
    is "constructor", two attempts with four right answers and one
    question left without an answer both stay locked, but the message
    tells which question it was: "Failed to decrypt." when it is
    "constructor", "One or more answers are incorrect." when it is
    "Favorite book?". *)
Lemma verifyQuestions_all_or_nothing_counterexample :
  localStorage Scenario.constructor_left_blank
  = localStorage Scenario.constructor_answered
  /\ LoginScreen.answers (loginScreen Scenario.constructor_left_blank)
     = {["Mother's maiden name?" := "smith"; "Favorite book?" := "dune";
         "City you were born?" := "DHAKA"; "First pet's name?" := "rex"]}
  /\ LoginScreen.answers (loginScreen Scenario.constructor_answered)
     = {["constructor" := "blue"; "Mother's maiden name?" := "smith";
         "City you were born?" := "DHAKA"; "First pet's name?" := "rex"]}
  /\ boot (verifyQuestions Scenario.constructor_left_blank) = login
  /\ boot (verifyQuestions Scenario.constructor_answered) = login
  /\ LoginScreen.err (loginScreen (verifyQuestions Scenario.constructor_left_blank))
     = "Failed to decrypt."
  /\ LoginScreen.err (loginScreen (verifyQuestions Scenario.constructor_answered))
     = "One or more answers are incorrect.".
Proof.
  repeat split; vm_compute; reflexivity.
Qed.

Lemma history_of_mutations_witness :
  List.find (is_category "c1") (categories (data Scenario.with_cash))
  = Some Scenario.cash
  /\ exists n,
       history (data (onDeleteCategory "c1" true "h3" "t3" Scenario.with_cash))
       = history (data Scenario.with_cash)
           ++ [HistoryItem.mk "h3" "t3" "category:delete" None
                 (Some Scenario.cash) (Some n)].
Proof.
  split; [vm_compute; reflexivity |].
  apply (history_of_mutations Scenario.with_cash).
  vm_compute. reflexivity.
Defined.

(** C5, as the spec states it, fails: adding a currency to the unlocked
    vault changes the currency table and appends nothing to the
    history. *)
Lemma onAddCurrency_appends_no_history :
  currencies (data (onAddCurrency "usd" 85 Scenario.unlocked))
  = [Currency.mk "BDT" 1; Currency.mk "USD" 85]
  /\ history (data (onAddCurrency "usd" 85 Scenario.unlocked)) = []
  /\ ~ appends_history_record (data Scenario.unlocked)
         (data (onAddCurrency "usd" 85 Scenario.unlocked)).
Proof.
  split; [vm_compute; reflexivity |].
  split; [vm_compute; reflexivity |].
  intros [h Hh]. vm_compute in Hh. discriminate Hh.
Qed.

Lemma auth_block_is_immutable_witness :
  boot Scenario.after_setup <> setup
  /\ Forall (fun ev => ev <> Reset true) Scenario.busy_session
  /\ exists st,
       localStorage Scenario.after_setup = Some st
       /\ exists st',
            localStorage (run Scenario.busy_session Scenario.after_setup)
            = Some st'
            /\ version st' = version st
            /\ user_firstName (user st') = user_firstName (user st)
            /\ auth st' = auth st
            /\ saltEncHex (enc st') = saltEncHex (enc st).
Proof.
  assert (Hboot : boot Scenario.after_setup <> setup)
    by (vm_compute; discriminate).
  assert (Hevs : Forall (fun ev => ev <> Reset true) Scenario.busy_session)
    by (repeat (constructor; [discriminate |]); constructor).
  split; [exact Hboot |]. split; [exact Hevs |].
  destruct (localStorage Scenario.after_setup) as [st|] eqn:Hls;
    [| vm_compute in Hls; discriminate Hls].
  exists st. split; [reflexivity |].
  exact (proj1 (auth_block_is_immutable Scenario.busy_session
                  Scenario.after_setup st Hboot Hls Hevs)).
Defined.

Lemma failures_reported_or_skipped_witness :
  validation_message
    (SetupScreen.err (setupScreen (handleSetup Scenario.setup_unconfirmed)))
  /\ (LoginScreen.err (loginScreen (verifyPassword Scenario.wrong_password))
      = msg_invalid_password
      \/ LoginScreen.err (loginScreen (verifyPassword Scenario.wrong_password))
         = msg_wrong)
  /\ (LoginScreen.err (loginScreen (verifyQuestions Scenario.one_wrong_answer))
      = msg_answers
      \/ LoginScreen.err (loginScreen (verifyQuestions Scenario.one_wrong_answer))
         = msg_decrypt)
  /\ persist (aesKey Scenario.after_setup) initialData Scenario.after_setup
     = (Scenario.after_setup, Fulfilled)
  /\ saveState Sim.server
       {| version := 1; user := mkUser "Arif";
          auth := mkAuth EmptyString EmptyString [];
          enc := mkEnc EmptyString EmptyString EmptyString |} None
     = None.
Proof.
  destruct (@failures_reported_or_skipped Sim_crypto Sim_random Sim_engine)
    as (Hsetup & Hpassword & Hanswers & Hpersist & Hsave).
  split.
  { apply Hsetup. do 3 right. left. vm_compute. discriminate. }
  split.
  { apply Hpassword; [vm_compute; reflexivity | vm_compute; discriminate]. }
  split.
  { apply Hanswers; [vm_compute; reflexivity | vm_compute; discriminate]. }
  split.
  { apply Hpersist. right. vm_compute. reflexivity. }
  apply Hsave. reflexivity.
Defined.

(** C8, as the spec states it, fails: after setup and before login the
    session holds no key; [persist] then settles normally, writes
    nothing and reports nothing. *)
Lemma persist_without_key_is_silent :
  aesKey Scenario.after_setup = None
  /\ persist (aesKey Scenario.after_setup) Scenario.sample_payload
       Scenario.after_setup
     = (Scenario.after_setup, Fulfilled)
  /\ ~ persist_failure_surfaces (aesKey Scenario.after_setup)
         Scenario.sample_payload Scenario.after_setup.
Proof.
  split; [vm_compute; reflexivity |].
  split; [vm_compute; reflexivity |].
  unfold persist_failure_surfaces. intros Hclaim.
  assert (Hsettled : snd (persist (aesKey Scenario.after_setup)
                            Scenario.sample_payload Scenario.after_setup)
                     = Fulfilled) by (vm_compute; reflexivity).
  rewrite Hclaim in Hsettled; [discriminate Hsettled |].
  right. vm_compute. reflexivity.
Qed.

Lemma randBytes_without_crypto_witness :
  no_random_source Sim.server
  /\ randBytes Sim.server 12 7%N = (Some (repeat x00 12), 7%N)
  /\ exists state,
       buildState Sim.server "Arif" "pw1234" [("Favorite book?", "Dune")] 7%N
       = (Some state, 7%N)
       /\ saltPwdHex (auth state) = "00000000000000000000000000000000"
       /\ saltEncHex (enc state) = "00000000000000000000000000000000".
Proof.
  assert (Hno : no_random_source Sim.server) by reflexivity.
  destruct (@randBytes_without_crypto Sim_crypto Sim_random Sim_engine
              Sim.server 7%N Hno)
    as [Hzero Hsalts].
  split; [exact Hno |]. split; [apply Hzero |].
  destruct Hsalts as (_ & _ & Hbuild); [reflexivity |].
  destruct (Hbuild "Arif" "pw1234" [("Favorite book?", "Dune")])
    as (state & Hb & Hp & He & _).
  exists state. rewrite Hp, He. split; [exact Hb |].
  split; vm_compute; reflexivity.
Defined.

Lemma verifyQuestions_missing_and_shared_answers_witness :
  loadState (env Scenario.book_left_blank)
    (localStorage Scenario.book_left_blank) = Some Scenario.stored
  /\ subtle (env Scenario.book_left_blank) = true
  /\ LoginScreen.answers (loginScreen Scenario.book_left_blank)
       !! "Favorite book?" = None
  /\ LoginScreen.inherited "Favorite book?" = false
  /\ verifyQuestions Scenario.book_left_blank
     = with_loginScreen
         (LoginScreen.setErr msg_answers (loginScreen Scenario.book_left_blank))
         Scenario.book_left_blank.
Proof.
  assert (Hst : loadState (env Scenario.book_left_blank)
                  (localStorage Scenario.book_left_blank)
                = Some Scenario.stored) by reflexivity.
  assert (Hs : subtle (env Scenario.book_left_blank) = true) by reflexivity.
  assert (Hnone : LoginScreen.answers (loginScreen Scenario.book_left_blank)
                    !! "Favorite book?" = None) by (vm_compute; reflexivity).
  assert (Hin : LoginScreen.inherited "Favorite book?" = false)
    by reflexivity.
  split; [exact Hst |]. split; [exact Hs |]. split; [exact Hnone |].
  split; [exact Hin |].
  refine (match
            verifyQuestions_missing_and_shared_answers
              Scenario.book_left_blank Scenario.stored
              (take 2 (qas (auth Scenario.stored)))
              (drop 3 (qas (auth Scenario.stored)))
              (default (mkQA EmptyString EmptyString EmptyString)
                 (qas (auth Scenario.stored) !! 2))
              (default []
                 (b64decode Sim.browser
                    (saltB64
                       (default (mkQA EmptyString EmptyString EmptyString)
                          (qas (auth Scenario.stored) !! 2)))))
              Hst Hs _ _ _
          with
          | conj Hblank _ => _
          end).
  - vm_compute. reflexivity.
  - repeat (apply List.Forall_cons;
            [eexists _, _; split; [vm_compute; reflexivity |];
             split; [vm_compute; reflexivity |];
             vm_compute; reflexivity |]).
    apply List.Forall_nil.
  - vm_compute. reflexivity.
  - destruct (Hblank Hnone Hin) as (_ & _ & Hrejects & _).
    apply Hrejects. vm_compute. discriminate.
Defined.

(** C10, as the spec states it, fails: on the vault whose first
    question is "constructor", with no answer typed for it the loop
    throws at that question, while with the empty string typed for it
    the loop compares the hash of the empty string and finds a wrong
    answer. *)
Lemma verifyQuestions_missing_and_shared_answers_counterexample :
  let a := Scenario.constructor_left_blank in
  let answers := LoginScreen.answers (loginScreen a) in
  map q (qas (auth (default Scenario.stored (localStorage a))))
  = ["constructor"; "Mother's maiden name?"; "Favorite book?";
     "City you were born?"; "First pet's name?"]
  /\ answers !! "constructor" = None
  /\ checkAnswers Sim.browser answers
       (qas (auth (default Scenario.stored (localStorage a))))
     = None
  /\ checkAnswers Sim.browser (<["constructor" := EmptyString]> answers)
       (qas (auth (default Scenario.stored (localStorage a))))
     = Some false
  /\ LoginScreen.err (loginScreen (verifyQuestions a)) = "Failed to decrypt."
  /\ LoginScreen.err
       (loginScreen
          (verifyQuestions (step a (LoginAnswer "constructor" EmptyString))))
     = "One or more answers are incorrect.".
Proof.
  repeat split; vm_compute; reflexivity.
Qed.

(* ================================================================== *)
(** * Further properties: the encodings *)
(* ================================================================== *)

Lemma toUpperCase_append (s t : string) :
  Str.toUpperCase (s +:+ t) = Str.toUpperCase s +:+ Str.toUpperCase t.
Proof.
  induction s as [|c s IH]; [done |].
  rewrite string_append_cons. simpl. by rewrite IH.
Qed.

Lemma toUpperCase_length (s : string) :
  String.length (Str.toUpperCase s) = String.length s.
Proof. induction s as [|c s IH]; simpl; congruence. Qed.

Lemma parseInt16_byteHex_upper (b : byte) :
  Hex.store_uint8 (Hex.parseInt16 (Str.toUpperCase (Hex.byteHex b))) = b.
Proof. destruct b; reflexivity. Qed.

Lemma fromHex_loop_toHex_upper (bs : list byte) :
  forall (pre : string) (i : nat),
    String.length pre = i * 2 ->
    Hex.fromHex_loop (pre +:+ Str.toUpperCase (Hex.toHex bs)) i (length bs) = bs.
Proof.
  induction bs as [|b bs IH]; intros pre i Hpre; [done |].
  simpl Hex.fromHex_loop. rewrite toHex_cons, toUpperCase_append. f_equal.
  - rewrite <- Hpre, substring_skip.
    rewrite <- (byteHex_length b), <- toUpperCase_length, substring_prefix.
    apply parseInt16_byteHex_upper.
  - rewrite <- string_append_assoc. apply IH.
    rewrite string_length_append, toUpperCase_length, byteHex_length. lia.
Qed.

Lemma fromHex_loop_length (hex : string) (i count : nat) :
  length (Hex.fromHex_loop hex i count) = count.
Proof. revert i. induction count as [|k IH]; intros i; simpl; congruence. Qed.

Lemma substring_append_within (s t : string) (n m : nat) :
  n + m <= String.length s ->
  String.substring n m (s +:+ t) = String.substring n m s.
Proof.
  revert n m. induction s as [|c s IH]; intros n m Hle.
  - simpl in Hle. assert (n = 0) as -> by lia. assert (m = 0) as -> by lia.
    rewrite string_append_nil_l. by destruct t.
  - rewrite string_append_cons. destruct n as [|n].
    + destruct m as [|m]; [done |]. simpl. f_equal. apply IH. simpl in Hle. lia.
    + simpl. apply IH. simpl in Hle. lia.
Qed.

Lemma fromHex_loop_append (hex t : string) (count i : nat) :
  (i + count) * 2 <= String.length hex ->
  Hex.fromHex_loop (hex +:+ t) i count = Hex.fromHex_loop hex i count.
Proof.
  revert i. induction count as [|k IH]; intros i Hle; [done |].
  simpl. rewrite substring_append_within by lia. f_equal. apply IH. lia.
Qed.

(** X1.  [fromHex] reads back the bytes [toHex] wrote, also when the
    digits have been put in upper case; [toHex] writes two characters
    for each byte. *)
Theorem hex_round_trip (buf : list byte) :
  Hex.fromHex (Hex.toHex buf) = buf
  /\ Hex.fromHex (Str.toUpperCase (Hex.toHex buf)) = buf
  /\ String.length (Hex.toHex buf) = 2 * length buf.
Proof.
  assert (Hhalf : 2 * length buf / 2 = length buf).
  { rewrite Nat.mul_comm. apply Nat.div_mul. lia. }
  split; [| split].
  - unfold Hex.fromHex. rewrite toHex_length, Hhalf.
    by apply (fromHex_loop_toHex buf EmptyString 0).
  - unfold Hex.fromHex. rewrite toUpperCase_length, toHex_length, Hhalf.
    by apply (fromHex_loop_toHex_upper buf EmptyString 0).
  - apply toHex_length.
Qed.

(** X2.  [fromHex] never fails: it returns one byte for each full pair
    of characters, whatever they are.  A last character without a
    partner is ignored. *)
Theorem fromHex_pairs (hex : string) :
  length (Hex.fromHex hex) = String.length hex / 2
  /\ (forall c : ascii,
        Nat.Even (String.length hex) ->
        Hex.fromHex (hex +:+ String c EmptyString) = Hex.fromHex hex).
Proof.
  split.
  - apply fromHex_loop_length.
  - intros c [k Hk]. unfold Hex.fromHex.
    rewrite string_length_append. simpl String.length. rewrite Hk.
    replace ((2 * k + 1) / 2) with k.
    2:{ apply (Nat.div_unique (2 * k + 1) 2 k 1); lia. }
    replace (2 * k / 2) with k.
    2:{ symmetry. rewrite Nat.mul_comm. apply Nat.div_mul. lia. }
    apply fromHex_loop_append. lia.
Qed.

Lemma fromHex_pairs_witness :
  Nat.Even (String.length "0aff")
  /\ Hex.fromHex ("0aff" +:+ String "7"%char EmptyString) = Hex.fromHex "0aff".
Proof.
  assert (Heven : Nat.Even (String.length "0aff")) by (exists 2; reflexivity).
  split; [exact Heven |].
  exact (proj2 (fromHex_pairs "0aff") "7"%char Heven).
Defined.



(* ================================================================== *)
(** * Further properties: the answers *)
(* ================================================================== *)

Lemma lower_upper_char (c : ascii) :
  Str.lower_char (Str.upper_char c) = Str.lower_char c.
Proof.
  destruct c as [[] [] [] [] [] [] [] []]; reflexivity.
Qed.

Lemma toLowerCase_toUpperCase (s : string) :
  Str.toLowerCase (Str.toUpperCase s) = Str.toLowerCase s.
Proof.
  induction s as [|c s IH]; [done |]. simpl. by rewrite lower_upper_char, IH.
Qed.

Lemma is_space_upper_char (c : ascii) :
  Str.is_space (Str.upper_char c) = Str.is_space c.
Proof.
  destruct c as [[] [] [] [] [] [] [] []]; reflexivity.
Qed.

Lemma trimStart_toUpperCase (s : string) :
  Str.trimStart (Str.toUpperCase s) = Str.toUpperCase (Str.trimStart s).
Proof.
  unfold Str.trimStart. induction s as [|c s IH]; [done |].
  simpl. fold (Str.is_space (Str.upper_char c)) (Str.is_space c).
  rewrite is_space_upper_char. by destruct (Str.is_space c).
Qed.

Lemma list_ascii_toUpperCase (s : string) :
  list_ascii_of_string (Str.toUpperCase s)
  = map Str.upper_char (list_ascii_of_string s).
Proof. induction s as [|c s IH]; simpl; congruence. Qed.

Lemma toUpperCase_of_list (l : list ascii) :
  Str.toUpperCase (string_of_list_ascii l)
  = string_of_list_ascii (map Str.upper_char l).
Proof. induction l as [|c l IH]; simpl; congruence. Qed.

Lemma reverse_toUpperCase (s : string) :
  Str.reverse (Str.toUpperCase s) = Str.toUpperCase (Str.reverse s).
Proof.
  unfold Str.reverse.
  by rewrite list_ascii_toUpperCase, toUpperCase_of_list, map_rev.
Qed.

Lemma trim_toUpperCase (s : string) :
  Str.trim (Str.toUpperCase s) = Str.toUpperCase (Str.trim s).
Proof.
  unfold Str.trim.
  by rewrite trimStart_toUpperCase, reverse_toUpperCase, trimStart_toUpperCase,
       reverse_toUpperCase.
Qed.

Lemma trimStart_spaces (ws s : string) :
  all_spaces ws -> Str.trimStart (ws +:+ s) = Str.trimStart s.
Proof.
  unfold all_spaces, Str.trimStart. induction ws as [|c ws IH]; intros Hws.
  - done.
  - simpl in Hws. inversion_clear Hws as [|? ? Hc Hrest].
    rewrite string_append_cons. simpl.
    fold (Str.is_space c). rewrite Hc. by apply IH.
Qed.

Lemma list_ascii_append (s t : string) :
  list_ascii_of_string (s +:+ t)
  = list_ascii_of_string s ++ list_ascii_of_string t.
Proof.
  induction s as [|c s IH]; [done |].
  rewrite string_append_cons. simpl. by rewrite IH.
Qed.

Lemma string_of_list_app (l k : list ascii) :
  string_of_list_ascii (l ++ k)
  = string_of_list_ascii l +:+ string_of_list_ascii k.
Proof.
  induction l as [|c l IH]; [done |].
  simpl. rewrite string_append_cons. by rewrite IH.
Qed.

Lemma reverse_append (s t : string) :
  Str.reverse (s +:+ t) = Str.reverse t +:+ Str.reverse s.
Proof.
  unfold Str.reverse.
  by rewrite list_ascii_append, rev_app_distr, string_of_list_app.
Qed.

Lemma all_spaces_reverse (ws : string) :
  all_spaces ws -> all_spaces (Str.reverse ws).
Proof.
  unfold all_spaces, Str.reverse. intros Hws.
  rewrite list_ascii_of_string_of_list_ascii. by apply Forall_rev.
Qed.

Lemma trimStart_all_spaces (ws : string) :
  all_spaces ws -> Str.trimStart ws = EmptyString.
Proof.
  intros Hws. rewrite <- (string_append_nil_r ws).
  by rewrite trimStart_spaces.
Qed.

Lemma trimStart_append (s t : string) :
  Str.trimStart (s +:+ t)
  = match Str.trimStart s with
    | EmptyString => Str.trimStart t
    | String _ _ => Str.trimStart s +:+ t
    end.
Proof.
  unfold Str.trimStart. induction s as [|c s IH]; [done |].
  rewrite string_append_cons. simpl. by destruct (Hex.is_space c).
Qed.

Lemma trim_spaces (ws1 ws2 s : string) :
  all_spaces ws1 -> all_spaces ws2 ->
  Str.trim (ws1 +:+ s +:+ ws2) = Str.trim s.
Proof.
  intros H1 H2. unfold Str.trim.
  rewrite (trimStart_spaces ws1 _ H1), trimStart_append.
  destruct (Str.trimStart s) as [|c s'] eqn:Es.
  - by rewrite (trimStart_all_spaces ws2 H2).
  - rewrite reverse_append.
    by rewrite (trimStart_spaces _ _ (all_spaces_reverse ws2 H2)).
Qed.

Section AnswerFacts.
Context `{WebCrypto} `{Engine}.

(** X4.  [hashAnswer] ignores the case of the letters A to Z and the
    white space around the answer: an answer in upper case, or with
    spaces before and after it, hashes as the answer itself. *)
Theorem hashAnswer_ignores_case_and_spaces
        (e : Env) (answer ws1 ws2 : string) (salt : list byte) :
  all_spaces ws1 ->
  all_spaces ws2 ->
  hashAnswer e (ws1 +:+ answer +:+ ws2) salt = hashAnswer e answer salt
  /\ hashAnswer e (Str.toUpperCase answer) salt = hashAnswer e answer salt
  /\ hashAnswer e (ws1 +:+ Str.toUpperCase answer +:+ ws2) salt
     = hashAnswer e answer salt.
Proof.
  intros H1 H2. unfold hashAnswer.
  rewrite !(trim_spaces ws1 ws2 _ H1 H2).
  rewrite trim_toUpperCase, toLowerCase_toUpperCase. done.
Qed.

End AnswerFacts.

Lemma hashAnswer_ignores_case_and_spaces_witness :
  all_spaces "  "
  /\ all_spaces " "
  /\ hashAnswer Sim.browser "  BLUE " [x01; x02] = hashAnswer Sim.browser "Blue" [x01; x02].
Proof.
  assert (H1 : all_spaces "  ") by (repeat constructor).
  assert (H2 : all_spaces " ") by (repeat constructor).
  split; [exact H1 |]. split; [exact H2 |].
  destruct (hashAnswer_ignores_case_and_spaces Sim.browser "Blue" "  " " "
              [x01; x02] H1 H2) as (_ & _ & Hboth).
  rewrite <- Hboth. reflexivity.
Defined.

(* ================================================================== *)
(** * Further properties: from setup to the unlocked vault *)
(* ================================================================== *)

Section SetupToLogin.
Context `{WebCrypto} `{RandomSource} `{Engine}.
Implicit Types (e : Env) (g : Rng) (a : App) (st : VaultState) (qa : QA).
Implicit Types (answers : gmap string string).

Lemma hashQAs_record e (l : list (string * string)) g :
  subtle e = true ->
  exists hashed g',
    hashQAs e l g = (Some hashed, g') /\ Forall2 (hashed_from e) l hashed.
Proof.
  intros Hs. revert g. induction l as [|pair l IH]; intros g.
  - exists [], g. split; [done | constructor].
  - destruct (randBytes_returns e 16 g) as (salt & g1 & Hr & Hlen).
    destruct (IH g1) as (hashed & g' & Hh & Hall).
    eexists _, g'.
    rewrite (hashQAs_cons e pair l g salt g1 Hs Hr Hlen).
    rewrite (bind_returns _ _ _ _ _ Hh).
    split; [reflexivity |]. constructor; [| exact Hall].
    split; [done |]. by exists salt.
Qed.

(** The record [handleSetup] builds, field by field. *)
Lemma buildState_record e (name password : string)
      (l : list (string * string)) g :
  subtle e = true ->
  exists saltPwd saltEnc iv0 hashed g',
    length saltPwd = 16 /\ length saltEnc = 16 /\ length iv0 = 12
    /\ Forall2 (hashed_from e) l hashed
    /\ buildState e name password l g
       = (Some
            {| version := 1;
               user := {| user_firstName := name |};
               auth :=
                 {| saltPwdHex := Hex.toHex saltPwd;
                    verifierHex :=
                      Hex.toHex
                        (PBKDF2_SHA256 (list_byte_of_string password) saltPwd
                           210000 32);
                    qas := hashed |};
               enc :=
                 {| saltEncHex := Hex.toHex saltEnc;
                    ivB64 := encoded e iv0;
                    ciphertextB64 :=
                      encoded e
                        (AES_GCM_encrypt
                           (PBKDF2_SHA256 (list_byte_of_string password) saltEnc
                              210000 32)
                           iv0
                           (list_byte_of_string
                              (Codec.JSON_stringify initialData))) |} |},
          g').
Proof.
  intros Hs. unfold buildState.
  destruct (randBytes_returns e 16 g) as (saltPwd & g1 & Hr1 & Hl1).
  destruct (randBytes_returns e 16 g1) as (saltEnc & g2 & Hr2 & Hl2).
  destruct (hashQAs_record e l g2 Hs) as (hashed & g3 & Hh & Hall).
  destruct (encryptJson_returns e initialData
              (PBKDF2_SHA256 (list_byte_of_string password) saltEnc 210000 32)
              g3 Hs (sealable_initialData e)) as (iv0 & g4 & Hr3 & Hl3 & Henc).
  exists saltPwd, saltEnc, iv0, hashed, g4.
  repeat (split; [done |]).
  rewrite (bind_returns _ _ _ _ _ Hr1).
  unfold pbkdf2 at 1. rewrite Hs. simpl await.
  rewrite bind_ret, (bind_returns _ _ _ _ _ Hr2).
  unfold getAesKeyFromPassword, pbkdf2. rewrite Hs. simpl await.
  rewrite bind_ret, (bind_returns _ _ _ _ _ Hh).
  rewrite (bind_returns _ _ _ _ _ Henc). reflexivity.
Qed.

(** What [handleSetup] does with an input it accepts. *)
Lemma handleSetup_accepts a :
  ~ setup_invalid (setupScreen a) ->
  handleSetup a
  = match buildState (env a) (SetupScreen.firstName (setupScreen a))
            (SetupScreen.password (setupScreen a))
            (SetupScreen.qas (setupScreen a)) (rng a) with
    | (Some state, g) =>
        setBoot login
          (with_localStorage (saveState (env a) state (localStorage a))
             (with_rng g
                (with_setupScreen
                   (SetupScreen.setErr EmptyString (setupScreen a)) a)))
    | (None, g) =>
        with_rng g
          (with_setupScreen (SetupScreen.setErr EmptyString (setupScreen a)) a)
    end.
Proof.
  intros Hv. unfold handleSetup, setup_invalid in *.
  destruct (setupScreen a) as [fn pw cf l er]. simpl in *.
  destruct (Str.is_empty fn) eqn:E1;
    [exfalso; apply Hv; left; by apply is_empty_true |].
  destruct (Str.is_empty pw) eqn:E2;
    [exfalso; apply Hv; right; left; by apply is_empty_true |].
  destruct (Str.is_empty cf) eqn:E3;
    [exfalso; apply Hv; do 2 right; left; by apply is_empty_true |].
  simpl. destruct (String.eqb_spec pw cf) as [Epw | Epw];
    [| exfalso; apply Hv; do 3 right; left; exact Epw].
  simpl. destruct (existsb qa_incomplete l) eqn:E4;
    [exfalso; apply Hv; do 4 right; by apply qa_incomplete_exists |].
  reflexivity.
Qed.

(** The state [handleSetup] leaves in a browser with [crypto.subtle]:
    the login screen, freshly mounted, over the stored record. *)
Lemma handleSetup_result a :
  ~ setup_invalid (setupScreen a) ->
  window_defined (env a) = true ->
  subtle (env a) = true ->
  exists saltPwd saltEnc iv0 hashed g',
    length saltPwd = 16 /\ length saltEnc = 16 /\ length iv0 = 12
    /\ Forall2 (hashed_from (env a)) (SetupScreen.qas (setupScreen a)) hashed
    /\ handleSetup a
       = mkApp (env a) g'
           (Some
              {| version := 1;
                 user := {| user_firstName :=
                              SetupScreen.firstName (setupScreen a) |};
                 auth :=
                   {| saltPwdHex := Hex.toHex saltPwd;
                      verifierHex :=
                        Hex.toHex
                          (PBKDF2_SHA256
                             (list_byte_of_string
                                (SetupScreen.password (setupScreen a)))
                             saltPwd 210000 32);
                      qas := hashed |};
                 enc :=
                   {| saltEncHex := Hex.toHex saltEnc;
                      ivB64 := encoded (env a) iv0;
                      ciphertextB64 :=
                        encoded (env a)
                          (AES_GCM_encrypt
                             (PBKDF2_SHA256
                                (list_byte_of_string
                                   (SetupScreen.password (setupScreen a)))
                                saltEnc 210000 32)
                             iv0
                             (list_byte_of_string
                                (Codec.JSON_stringify initialData))) |} |})
           login (firstName a) (aesKey a) (data a)
           SetupScreen.initial LoginScreen.initial.
Proof.
  intros Hv Hw Hs. rewrite (handleSetup_accepts a Hv).
  destruct (buildState_record (env a) (SetupScreen.firstName (setupScreen a))
              (SetupScreen.password (setupScreen a))
              (SetupScreen.qas (setupScreen a)) (rng a) Hs)
    as (saltPwd & saltEnc & iv0 & hashed & g' & Hl1 & Hl2 & Hl3 & Hall & Hb).
  exists saltPwd, saltEnc, iv0, hashed, g'. rewrite Hb.
  repeat (split; [done |]).
  unfold setBoot, with_localStorage, with_rng, with_setupScreen, saveState.
  simpl. by rewrite Hw.
Qed.

Lemma fromHex_length_16 (salt : list byte) :
  length salt = 16 ->
  String.length (Hex.toHex salt) = 32
  /\ length (Hex.fromHex (Hex.toHex salt)) = 16.
Proof.
  intros Hl. rewrite fromHex_toHex, toHex_length, Hl. done.
Qed.

(** X5.  The record a successful setup stores: version 1, the first
    name typed, the questions of the form in their order (so as many
    stored questions as the form has), a password salt and an encryption
    salt of 16 bytes each, written as 32 hexadecimal characters, for
    each question a base64 salt of 16 bytes, and a base64 IV of 12
    bytes. *)
Theorem handleSetup_stored_record a :
  ~ setup_invalid (setupScreen a) ->
  window_defined (env a) = true ->
  subtle (env a) = true ->
  exists st,
    localStorage (handleSetup a) = Some st
    /\ version st = 1%Z
    /\ user_firstName (user st) = SetupScreen.firstName (setupScreen a)
    /\ map q (qas (auth st)) = map fst (SetupScreen.qas (setupScreen a))
    /\ length (qas (auth st)) = length (SetupScreen.qas (setupScreen a))
    /\ String.length (saltPwdHex (auth st)) = 32
    /\ length (Hex.fromHex (saltPwdHex (auth st))) = 16
    /\ String.length (saltEncHex (enc st)) = 32
    /\ length (Hex.fromHex (saltEncHex (enc st))) = 16
    /\ Forall (fun qa => exists salt,
                  b64decode (env a) (saltB64 qa) = Some salt
                  /\ length salt = 16)
         (qas (auth st))
    /\ exists iv0,
         b64decode (env a) (ivB64 (enc st)) = Some iv0 /\ length iv0 = 12.
Proof.
  intros Hv Hw Hs.
  destruct (handleSetup_result a Hv Hw Hs)
    as (saltPwd & saltEnc & iv0 & hashed & g' & Hl1 & Hl2 & Hl3 & Hall & ->).
  eexists. split; [reflexivity |]. simpl.
  destruct (fromHex_length_16 saltPwd Hl1) as [Hp1 Hp2].
  destruct (fromHex_length_16 saltEnc Hl2) as [He1 He2].
  assert (Hq : map q hashed = map fst (SetupScreen.qas (setupScreen a))).
  { clear -Hall. induction Hall as [|pair qa l hs [Hq _] _ IH]; [done |].
    simpl. by rewrite Hq, IH. }
  repeat (split; [done |]).
  split; [by rewrite <- (length_map q), Hq, length_map |].
  repeat (split; [done |]).
  split.
  - clear -Hall Hw. induction Hall as [|pair qa l hs [_ Hsalt] _ IH];
      constructor; [| exact IH].
    destruct Hsalt as (salt & Hl & -> & _). exists salt.
    split; [by apply b64decode_encoded | exact Hl].
  - exists iv0. split; [by apply b64decode_encoded | exact Hl3].
Qed.

End SetupToLogin.

Lemma handleSetup_stored_record_witness :
  ~ setup_invalid (setupScreen Scenario.setup_filled)
  /\ exists st,
       localStorage (handleSetup Scenario.setup_filled) = Some st
       /\ length (qas (auth st)) = 5
       /\ String.length (saltPwdHex (auth st)) = 32
       /\ String.length (saltEncHex (enc st)) = 32.
Proof.
  assert (Hv : ~ setup_invalid (setupScreen Scenario.setup_filled)).
  { unfold setup_invalid. vm_compute.
    intros [E|[E|[E|[E|E]]]]; try discriminate E.
    - by apply E.
    - repeat (apply Exists_cons in E as [[E|E]|E];
              [discriminate E | discriminate E |]).
      by apply Exists_nil in E. }
  split; [exact Hv |].
  destruct (handleSetup_stored_record Scenario.setup_filled Hv eq_refl eq_refl)
    as (st & Hst & _ & _ & _ & Hlen & Hp & _ & He & _).
  exists st. repeat split; done.
Defined.

Section LoginAfterSetup.
Context `{WebCrypto} `{RandomSource} `{Engine}.
Implicit Types (e : Env) (g : Rng) (a : App) (st : VaultState) (qa : QA).
Implicit Types (answers : gmap string string).

Lemma run_cons (ev : Event) (evs : list Event) a :
  run (ev :: evs) a = run evs (step a ev).
Proof. reflexivity. Qed.

Lemma run_app (evs1 evs2 : list Event) a :
  run (evs1 ++ evs2) a = run evs2 (run evs1 a).
Proof. unfold run. apply fold_left_app. Qed.

Lemma run_typeAnswers (l : list (string * string)) :
  forall a,
    boot a = login ->
    LoginScreen.step (loginScreen a) = 2 ->
    run (typeAnswers l) a
    = with_loginScreen
        (LoginScreen.mk (LoginScreen.password (loginScreen a)) 2
           (typed_map l (LoginScreen.answers (loginScreen a)))
           (LoginScreen.err (loginScreen a)))
        a.
Proof.
  induction l as [|pair l IH]; intros a Hb H2.
  - simpl. destruct a as [? ? ? ? ? ? ? ? [pw stp m er]]. simpl in *. by subst.
  - change (typeAnswers (pair :: l))
      with (LoginAnswer (fst pair) (snd pair) :: typeAnswers l).
    rewrite run_cons. unfold step. rewrite Hb. unfold login_step.
    rewrite H2. rewrite IH by done. reflexivity.
Qed.

Lemma typed_map_other (l : list (string * string)) answers (k : string) :
  k ∉ map fst l -> typed_map l answers !! k = answers !! k.
Proof.
  revert answers. induction l as [|pair l IH]; intros answers Hk; [done |].
  simpl in *. apply not_elem_of_cons in Hk as [Hne Hk].
  rewrite IH by done. by rewrite lookup_insert_ne.
Qed.

Lemma typed_map_lookup (l : list (string * string)) :
  forall answers pair,
    NoDup (map fst l) ->
    pair ∈ l ->
    LoginScreen.answerFor (typed_map l answers) (fst pair) = Some (snd pair).
Proof.
  induction l as [|p l IH]; intros answers pair Hnd Hin.
  - by apply elem_of_nil in Hin.
  - simpl in Hnd. apply NoDup_cons in Hnd as [Hfresh Hnd].
    apply elem_of_cons in Hin as [-> | Hin].
    + unfold LoginScreen.answerFor. simpl.
      rewrite typed_map_other by done. by rewrite lookup_insert_eq.
    + simpl. by apply IH.
Qed.

Lemma checkAnswers_all_match e answers (l : list QA) :
  Forall (answer_matches e answers) l -> checkAnswers e answers l = Some true.
Proof.
  induction 1 as [|qa l Hm _ IH]; [done |].
  by rewrite checkAnswers_cons_match.
Qed.

(** An answer that says the same as the one given at setup matches
    the stored form of its question. *)
Lemma hashed_from_matches e answers (pair : string * string) qa
      (answer : string) :
  window_defined e = true ->
  subtle e = true ->
  hashed_from e pair qa ->
  LoginScreen.answerFor answers (fst pair) = Some answer ->
  Str.toLowerCase (Str.trim answer) = Str.toLowerCase (Str.trim (snd pair)) ->
  answer_matches e answers qa.
Proof.
  intros Hw Hs (Hq & salt & _ & Hsalt & Hhash) Hans Hsame.
  exists salt, answer. split; [| split].
  - rewrite Hsalt. by apply b64decode_encoded.
  - by rewrite Hq.
  - rewrite (hashAnswer_returns e answer salt Hs). by rewrite Hsame, Hhash.
Qed.

(** What [verifyQuestions] does when every answer matches and the
    payload decrypts. *)
Lemma verifyQuestions_unlocks a st (key : CryptoKey) (d : Payload) :
  loadState (env a) (localStorage a) = Some st ->
  Forall (answer_matches (env a) (LoginScreen.answers (loginScreen a)))
    (qas (auth st)) ->
  getAesKeyFromPassword (env a) (LoginScreen.password (loginScreen a))
    (Hex.fromHex (saltEncHex (enc st))) = Some key ->
  decryptJson (env a) (ciphertextB64 (enc st)) (ivB64 (enc st)) key = Some d ->
  verifyQuestions a
  = onUnlock key d
      (with_loginScreen (LoginScreen.setErr EmptyString (loginScreen a)) a).
Proof.
  intros Hst Hall Hkey Hd. unfold verifyQuestions. simpl.
  rewrite Hst, (checkAnswers_all_match _ _ _ Hall). simpl.
  rewrite Hkey. simpl. rewrite Hd. reflexivity.
Qed.

(** What [onUnlock] leaves in the session. *)
Lemma onUnlock_session (key : CryptoKey) (d : Payload) a st :
  loadState (env a) (localStorage a) = Some st ->
  boot (onUnlock key d a) = app
  /\ aesKey (onUnlock key d a) = Some key
  /\ data (onUnlock key d a) = d
  /\ firstName (onUnlock key d a) = user_firstName (user st)
  /\ env (onUnlock key d a) = env a.
Proof.
  intros Hst. unfold onUnlock. rewrite Hst.
  match goal with
  | |- context [persist ?c ?nd ?x] =>
      destruct (persist_frame c nd x)
        as (He & Hb & Hn & Hk & Hd & _)
  end.
  cbv zeta in *. rewrite He, Hb, Hn, Hk, Hd. done.
Qed.

Lemma typed_answers_match e answers (given typed : list (string * string))
      (hashed : list QA) :
  window_defined e = true ->
  subtle e = true ->
  Forall2 same_answer given typed ->
  Forall2 (hashed_from e) given hashed ->
  (forall pair, pair ∈ typed ->
                LoginScreen.answerFor answers (fst pair) = Some (snd pair)) ->
  Forall (answer_matches e answers) hashed.
Proof.
  intros Hw Hs Htyped. revert hashed.
  induction Htyped as [|g ty l k [Hf Hn] _ IH]; intros hashed Hall Hin;
    inversion_clear Hall as [|? qa ? hs Hh Hrest]; constructor.
  - apply (hashed_from_matches e answers g qa (snd ty) Hw Hs Hh);
      [| exact Hn].
    rewrite <- Hf. apply Hin. by left.
  - apply IH; [exact Hrest |]. intros pair Hp. apply Hin. by right.
Qed.

Lemma toHex_injective (x y : list byte) : Hex.toHex x = Hex.toHex y -> x = y.
Proof.
  intros Heq. rewrite <- (fromHex_toHex x), <- (fromHex_toHex y). by rewrite Heq.
Qed.

(** X6.  After a successful setup the login screen takes a password to
    step 2 exactly when PBKDF2 gives, under the stored password salt,
    the same 32 bytes for it as for the password of the setup; so the
    password of the setup is accepted.  Any other outcome leaves the
    session at step 1. *)
Theorem password_accepted_after_setup a (typed : string) :
  boot a = setup ->
  ~ setup_invalid (setupScreen a) ->
  window_defined (env a) = true ->
  subtle (env a) = true ->
  exists st,
    localStorage (handleSetup a) = Some st
    /\ (LoginScreen.step
          (loginScreen (run [HandleSetup; LoginPassword typed; VerifyPassword] a))
        = 2
        <-> PBKDF2_SHA256 (list_byte_of_string typed)
              (Hex.fromHex (saltPwdHex (auth st))) 210000 32
            = PBKDF2_SHA256
                (list_byte_of_string (SetupScreen.password (setupScreen a)))
                (Hex.fromHex (saltPwdHex (auth st))) 210000 32)
    /\ (LoginScreen.step
          (loginScreen (run [HandleSetup; LoginPassword typed; VerifyPassword] a))
        <> 2 ->
        LoginScreen.step
          (loginScreen (run [HandleSetup; LoginPassword typed; VerifyPassword] a))
        = 1)
    /\ LoginScreen.step
         (loginScreen
            (run [HandleSetup;
                  LoginPassword (SetupScreen.password (setupScreen a));
                  VerifyPassword] a))
       = 2.
Proof.
  intros Hb Hv Hw Hs.
  destruct (handleSetup_result a Hv Hw Hs)
    as (saltPwd & saltEnc & iv0 & hashed & g' & _ & _ & _ & _ & Hsetup).
  assert (Hrun : forall pw,
             run [HandleSetup; LoginPassword pw; VerifyPassword] a
             = verifyPassword
                 (with_loginScreen
                    (LoginScreen.setPassword pw LoginScreen.initial)
                    (handleSetup a))).
  { intros pw. rewrite !run_cons. unfold step at 3. rewrite Hb.
    rewrite Hsetup. reflexivity. }
  assert (Hcmp : forall pw,
             LoginScreen.step
               (loginScreen (run [HandleSetup; LoginPassword pw; VerifyPassword] a))
             = if negb (String.eqb
                          (Hex.toHex
                             (PBKDF2_SHA256 (list_byte_of_string pw) saltPwd
                                210000 32))
                          (Hex.toHex
                             (PBKDF2_SHA256
                                (list_byte_of_string
                                   (SetupScreen.password (setupScreen a)))
                                saltPwd 210000 32)))
               then 1 else 2).
  { intros pw. rewrite Hrun, Hsetup.
    match goal with
    | |- context [verifyPassword ?x] =>
        match x with
        | context [Some ?st] =>
            rewrite (verifyPassword_compares x st
                       (Hex.toHex
                          (PBKDF2_SHA256 (list_byte_of_string pw) saltPwd
                             210000 32)))
        end
    end.
    - simpl. by destruct (negb _).
    - simpl. unfold loadState. simpl. rewrite Hw. reflexivity.
    - unfold derivedVerifier, pbkdf2. simpl. rewrite Hs. simpl.
      by rewrite fromHex_toHex. }
  eexists. split; [rewrite Hsetup; reflexivity |].
  rewrite !Hcmp. cbn [auth saltPwdHex]. rewrite fromHex_toHex.
  split; [| split].
  - destruct (String.eqb_spec
                (Hex.toHex (PBKDF2_SHA256 (list_byte_of_string typed) saltPwd
                              210000 32))
                (Hex.toHex
                   (PBKDF2_SHA256
                      (list_byte_of_string (SetupScreen.password (setupScreen a)))
                      saltPwd 210000 32))) as [Heq | Hne]; simpl.
    + split; [intros _; by apply toHex_injective | done].
    + split; [done | intros Heq; by rewrite Heq in Hne].
  - by destruct (negb _).
  - by rewrite String.eqb_refl.
Qed.

(** X7.  After a successful setup whose questions have distinct texts,
    typing the password of the setup and then, for each question, an
    answer that says the same as the one given (up to case and
    surrounding spaces) unlocks the vault: the app screen, the initial
    payload in memory, the first name of the setup, and the key derived
    from the password and the stored encryption salt. *)
Theorem login_after_setup_unlocks a (typed : list (string * string)) :
  boot a = setup ->
  ~ setup_invalid (setupScreen a) ->
  window_defined (env a) = true ->
  subtle (env a) = true ->
  NoDup (map fst (SetupScreen.qas (setupScreen a))) ->
  Forall2 same_answer (SetupScreen.qas (setupScreen a)) typed ->
  let unlocked :=
    run ([HandleSetup;
          LoginPassword (SetupScreen.password (setupScreen a));
          VerifyPassword]
           ++ typeAnswers typed ++ [VerifyQuestions]) a in
  boot unlocked = app
  /\ data unlocked = initialData
  /\ firstName unlocked = SetupScreen.firstName (setupScreen a)
  /\ exists st key,
       localStorage (handleSetup a) = Some st
       /\ getAesKeyFromPassword (env a) (SetupScreen.password (setupScreen a))
            (Hex.fromHex (saltEncHex (enc st))) = Some key
       /\ aesKey unlocked = Some key.
Proof.
  intros Hb Hv Hw Hs Hnd Htyped unlocked.
  destruct (handleSetup_result a Hv Hw Hs)
    as (saltPwd & saltEnc & iv0 & hashed & g' & _ & _ & _ & Hall & Hsetup).
  set (pw := SetupScreen.password (setupScreen a)) in *.
  set (st := {| version := 1;
                user := {| user_firstName :=
                             SetupScreen.firstName (setupScreen a) |};
                auth := {| saltPwdHex := Hex.toHex saltPwd;
                           verifierHex :=
                             Hex.toHex
                               (PBKDF2_SHA256 (list_byte_of_string pw) saltPwd
                                  210000 32);
                           qas := hashed |};
                enc := {| saltEncHex := Hex.toHex saltEnc;
                          ivB64 := encoded (env a) iv0;
                          ciphertextB64 :=
                            encoded (env a)
                              (AES_GCM_encrypt
                                 (PBKDF2_SHA256 (list_byte_of_string pw) saltEnc
                                    210000 32)
                                 iv0
                                 (list_byte_of_string
                                    (Codec.JSON_stringify initialData))) |} |})
    in *.
  set (key := PBKDF2_SHA256 (list_byte_of_string pw) saltEnc 210000 32) in *.
  (* the session at step 2 *)
  set (a2 := mkApp (env a) g' (Some st) login (firstName a) (aesKey a) (data a)
               SetupScreen.initial
               (LoginScreen.mk pw 2 ∅ EmptyString)).
  assert (H2 : run [HandleSetup; LoginPassword pw; VerifyPassword] a = a2).
  { rewrite !run_cons. unfold step at 3. rewrite Hb, Hsetup.
    change (run [] ?x) with x.
    unfold step, login_step. simpl.
    match goal with
    | |- verifyPassword ?x = _ =>
        rewrite (verifyPassword_compares x st
                   (Hex.toHex
                      (PBKDF2_SHA256 (list_byte_of_string pw) saltPwd
                         210000 32)))
    end.
    - simpl. rewrite String.eqb_refl. reflexivity.
    - simpl. unfold loadState. simpl. rewrite Hw. reflexivity.
    - unfold derivedVerifier, pbkdf2. simpl. rewrite Hs. simpl.
      by rewrite fromHex_toHex. }
  (* the answers typed *)
  set (a3 := with_loginScreen
               (LoginScreen.mk pw 2 (typed_map typed ∅) EmptyString) a2).
  assert (H3 : run (typeAnswers typed) a2 = a3) by (by rewrite run_typeAnswers).
  assert (Hq : map fst typed = map fst (SetupScreen.qas (setupScreen a))).
  { clear -Htyped. induction Htyped as [|x y l k [Hf _] _ IH]; [done |].
    simpl. by rewrite Hf, IH. }
  assert (Hmatch : Forall (answer_matches (env a) (typed_map typed ∅)) hashed).
  { assert (Hnd' : NoDup (map fst typed)) by (by rewrite Hq).
    apply (typed_answers_match (env a) _ _ typed hashed Hw Hs Htyped Hall).
    intros pair Hin. by apply typed_map_lookup. }
  assert (Hkey : getAesKeyFromPassword (env a) pw
                   (Hex.fromHex (saltEncHex (enc st))) = Some key).
  { unfold getAesKeyFromPassword, pbkdf2. simpl. rewrite Hs. simpl.
    by rewrite fromHex_toHex. }
  assert (Hd : decryptJson (env a) (ciphertextB64 (enc st)) (ivB64 (enc st)) key
               = Some initialData).
  { simpl. apply decryptJson_sealed; [done | done |].
    apply survives_JSON_initialData. }
  assert (Hst : loadState (env a3) (localStorage a3) = Some st).
  { unfold loadState. simpl. by rewrite Hw. }
  assert (Hun : unlocked
                = onUnlock key initialData
                    (with_loginScreen
                       (LoginScreen.setErr EmptyString (loginScreen a3)) a3)).
  { unfold unlocked. rewrite run_app, H2, run_app, H3.
    change (run [VerifyQuestions] a3) with (verifyQuestions a3).
    by apply (verifyQuestions_unlocks a3 st key initialData). }
  destruct (onUnlock_session key initialData
              (with_loginScreen
                 (LoginScreen.setErr EmptyString (loginScreen a3)) a3) st Hst)
    as (Hboot & Hk & Hdata & Hname & _).
  rewrite Hun. split; [exact Hboot |]. split; [exact Hdata |].
  split; [exact Hname |].
  exists st, key. split; [by rewrite Hsetup |]. split; [exact Hkey | exact Hk].
Qed.

End LoginAfterSetup.

Lemma setup_filled_is_valid : ~ setup_invalid (setupScreen Scenario.setup_filled).
Proof.
  unfold setup_invalid. vm_compute.
  intros [E|[E|[E|[E|E]]]]; try discriminate E.
  - by apply E.
  - repeat (apply Exists_cons in E as [[E|E]|E];
            [discriminate E | discriminate E |]).
    by apply Exists_nil in E.
Qed.

Lemma password_accepted_after_setup_witness :
  boot Scenario.setup_filled = setup
  /\ window_defined (env Scenario.setup_filled) = true
  /\ subtle (env Scenario.setup_filled) = true
  /\ LoginScreen.step
       (loginScreen
          (run [HandleSetup; LoginPassword "pw1234"; VerifyPassword]
             Scenario.setup_filled))
     = 2.
Proof.
  split; [reflexivity |]. split; [reflexivity |]. split; [reflexivity |].
  destruct (password_accepted_after_setup Scenario.setup_filled "pw1234"
              eq_refl setup_filled_is_valid eq_refl eq_refl)
    as (st & _ & _ & _ & Haccepted).
  exact Haccepted.
Defined.

Lemma login_after_setup_unlocks_witness :
  boot Scenario.setup_filled = setup
  /\ NoDup (map fst (SetupScreen.qas (setupScreen Scenario.setup_filled)))
  /\ Forall2 same_answer (SetupScreen.qas (setupScreen Scenario.setup_filled))
       [("Your first school?", "blue"); ("Mother's maiden name?", " SMITH");
        ("Favorite book?", "dune  "); ("City you were born?", "Dhaka");
        ("First pet's name?", "rex")]
  /\ boot
       (run ([HandleSetup; LoginPassword "pw1234"; VerifyPassword]
               ++ typeAnswers
                    [("Your first school?", "blue");
                     ("Mother's maiden name?", " SMITH");
                     ("Favorite book?", "dune  ");
                     ("City you were born?", "Dhaka");
                     ("First pet's name?", "rex")]
               ++ [VerifyQuestions])
          Scenario.setup_filled)
     = app.
Proof.
  assert (Hnd : NoDup (map fst (SetupScreen.qas (setupScreen Scenario.setup_filled)))).
  { apply (bool_decide_unpack _). vm_compute. exact I. }
  assert (Hsame : Forall2 same_answer
                    (SetupScreen.qas (setupScreen Scenario.setup_filled))
                    [("Your first school?", "blue");
                     ("Mother's maiden name?", " SMITH");
                     ("Favorite book?", "dune  ");
                     ("City you were born?", "Dhaka");
                     ("First pet's name?", "rex")]).
  { repeat (constructor; [split; vm_compute; reflexivity |]). constructor. }
  split; [reflexivity |]. split; [exact Hnd |]. split; [exact Hsame |].
  exact (proj1 (login_after_setup_unlocks Scenario.setup_filled _ eq_refl
                  setup_filled_is_valid eq_refl eq_refl Hnd Hsame)).
Defined.

(* ================================================================== *)
(** * Further properties: what a change leaves on disk *)
(* ================================================================== *)

Section WriteThrough.
Context `{WebCrypto} `{RandomSource} `{Engine}.
Implicit Types (e : Env) (g : Rng) (a : App) (st : VaultState) (qa : QA).
Implicit Types (nd : Payload) (ev : Event) (key : CryptoKey).

Lemma update_written nd a st key :
  window_defined (env a) = true ->
  subtle (env a) = true ->
  localStorage a = Some st ->
  aesKey a = Some key ->
  Codec.survives_JSON nd ->
  String.length (Codec.JSON_stringify nd) + 16 <= max_arguments ->
  exists st',
    disk_holds_data (update nd a) st' key
    /\ same_identity st st'
    /\ data (update nd a) = nd
    /\ boot (update nd a) = boot a
    /\ env (update nd a) = env a.
Proof.
  intros Hw Hs Hls Hk Hnd Hfit.
  destruct (encryptJson_returns (env a) nd key (rng a) Hs (or_intror Hfit))
    as (iv0 & g' & _ & _ & Henc).
  unfold update, persist, loadState, saveState.
  rewrite Hw, Hls, Hk, Henc. simpl.
  eexists. split.
  - unfold disk_holds_data. simpl. split; [reflexivity |]. split; [done |].
    by apply decryptJson_sealed.
  - done.
Qed.

(** A new payload whose ciphertext the engine does not take: [persist]
    rejects in [encryptJson], nobody awaits it, and the payload changes
    in memory only. *)
Lemma update_unwritten nd a :
  window_defined (env a) = true ->
  subtle (env a) = true ->
  max_arguments < String.length (Codec.JSON_stringify nd) + 16 ->
  localStorage (update nd a) = localStorage a
  /\ data (update nd a) = nd
  /\ aesKey (update nd a) = aesKey a
  /\ boot (update nd a) = boot a
  /\ (forall st key,
        loadState (env a) (localStorage a) = Some st ->
        aesKey a = Some key ->
        snd (persist (aesKey a) nd a) = Rejected).
Proof.
  intros Hw Hs Hbig. unfold update, persist.
  destruct (loadState (env a) (localStorage a)) as [st|]; [| done].
  destruct (aesKey a) as [key|] eqn:Hk; [| done].
  destruct (encryptJson_RangeError (env a) nd key (rng a) Hw Hs Hbig)
    as (g' & ->).
  simpl. by rewrite Hk.
Qed.

(** In the app every change of the payload is [update] of the new
    payload, or nothing at all. *)
Lemma mutation_is_update a ev :
  boot a = app ->
  is_mutation ev = true ->
  step a ev = a \/ exists nd, step a ev = update nd a.
Proof.
  intros Hb Hm. unfold step. rewrite Hb.
  destruct ev; try discriminate Hm; try (right; eexists; reflexivity).
  - unfold onDeleteCategory.
    destruct (List.find _ _); [| by left].
    destruct (negb ok); [by left |]. right. eexists. reflexivity.
  - unfold onRemoveCurrency.
    destruct (String.eqb _ _); [by left |].
    destruct (existsb _ _); [by left |]. right. eexists. reflexivity.
Qed.

(** After a change of the payload in the app, with the stored
    ciphertext open to the payload of before: what is on disk when the
    new ciphertext is within the limit of the engine. *)
Lemma mutation_written a ev st key :
  boot a = app ->
  window_defined (env a) = true ->
  subtle (env a) = true ->
  is_mutation ev = true ->
  disk_holds_data a st key ->
  Codec.survives_JSON (data (step a ev)) ->
  String.length (Codec.JSON_stringify (data (step a ev))) + 16
  <= max_arguments ->
  exists st',
    disk_holds_data (step a ev) st' key
    /\ same_identity st st'
    /\ boot (step a ev) = app
    /\ env (step a ev) = env a.
Proof.
  intros Hb Hw Hs Hm (Hls & Hk & Hd) Hsurv Hfit.
  destruct (mutation_is_update a ev Hb Hm) as [-> | [nd Hnd]].
  - exists st. by repeat split.
  - rewrite Hnd in *.
    assert (Hdata : data (update nd a) = nd) by apply update_frame.
    rewrite Hdata in Hsurv, Hfit.
    destruct (update_written nd a st key Hw Hs Hls Hk Hsurv Hfit)
      as (st' & Hdisk & Hid & _ & Hb' & He).
    exists st'. rewrite Hb', Hb. done.
Qed.

(** X8.  In the unlocked app, in a browser with [crypto.subtle]: if the
    stored ciphertext opens under the session key to the payload in
    memory, it still does after a change of the payload (a category, an
    entry, a currency or a history record added or removed) to a new
    payload that survives JSON serialization and whose ciphertext (its
    text and 16 bytes of tag) has no more bytes than the engine takes
    arguments: the change is in memory and on disk at once; the key,
    [auth], [user] and the encryption salt are as before.  When the new
    ciphertext has more bytes, the stored record is left as it was while
    the payload in memory is the new one: memory and disk now
    differ. *)
Theorem mutation_is_written_through a ev st key :
  boot a = app ->
  window_defined (env a) = true ->
  subtle (env a) = true ->
  is_mutation ev = true ->
  disk_holds_data a st key ->
  Codec.survives_JSON (data (step a ev)) ->
  (String.length (Codec.JSON_stringify (data (step a ev))) + 16
   <= max_arguments ->
   exists st',
     disk_holds_data (step a ev) st' key
     /\ same_identity st st'
     /\ boot (step a ev) = app
     /\ env (step a ev) = env a)
  /\ (max_arguments
      < String.length (Codec.JSON_stringify (data (step a ev))) + 16 ->
      localStorage (step a ev) = localStorage a
      /\ aesKey (step a ev) = Some key
      /\ decryptJson (env a) (ciphertextB64 (enc st)) (ivB64 (enc st)) key
         = Some (data a)
      /\ (data (step a ev) <> data a -> ~ disk_holds_data (step a ev) st key)).
Proof.
  intros Hb Hw Hs Hm Hdisk Hsurv. split.
  - by apply mutation_written.
  - intros Hbig. destruct Hdisk as (Hls & Hk & Hd).
    destruct (mutation_is_update a ev Hb Hm) as [Hsame | [nd Hnd]].
    + rewrite Hsame. by repeat split.
    + rewrite Hnd in *.
      assert (Hdata : data (update nd a) = nd) by apply update_frame.
      rewrite Hdata in Hbig.
      destruct (update_unwritten nd a Hw Hs Hbig) as (Hl & _ & Hkey & _).
      rewrite Hl, Hkey. repeat split; try done.
      intros Hne (_ & _ & Hd'). rewrite Hdata in Hne.
      assert (Henv : env (update nd a) = env a).
      { unfold update. simpl.
        by destruct (persist_frame (aesKey a) nd a) as (-> & _). }
      rewrite Henv, Hdata, Hd in Hd'. by injection Hd' as Heq.
Qed.

Lemma onUnlock_without_key (key : CryptoKey) (d : Payload) a :
  aesKey a = None -> localStorage (onUnlock key d a) = localStorage a.
Proof.
  intros Hk. unfold onUnlock, persist. rewrite Hk.
  by destruct (loadState _ _).
Qed.

Lemma derivedVerifier_identity e (pw : string) st st' :
  same_identity st st' -> derivedVerifier e pw st' = derivedVerifier e pw st.
Proof. intros (_ & _ & Ha & _). unfold derivedVerifier. by rewrite Ha. Qed.

(** Login on a freshly mounted login screen, with a password and
    answers the stored record accepts and a ciphertext that opens. *)
Lemma login_unlocks a st key (pw : string) (typed : list (string * string))
      (d : Payload) :
  boot a = login ->
  loginScreen a = LoginScreen.initial ->
  loadState (env a) (localStorage a) = Some st ->
  derivedVerifier (env a) pw st = Some (verifierHex (auth st)) ->
  Forall (answer_matches (env a) (typed_map typed ∅)) (qas (auth st)) ->
  getAesKeyFromPassword (env a) pw (Hex.fromHex (saltEncHex (enc st)))
  = Some key ->
  decryptJson (env a) (ciphertextB64 (enc st)) (ivB64 (enc st)) key = Some d ->
  run ([LoginPassword pw; VerifyPassword] ++ typeAnswers typed
         ++ [VerifyQuestions]) a
  = onUnlock key d
      (with_loginScreen (LoginScreen.mk pw 2 (typed_map typed ∅) EmptyString) a).
Proof.
  intros Hb Hl Hst Hv Hall Hkey Hd.
  set (a1 := with_loginScreen (LoginScreen.mk pw 1 ∅ EmptyString) a).
  set (a2 := with_loginScreen (LoginScreen.mk pw 2 ∅ EmptyString) a).
  set (a3 := with_loginScreen
               (LoginScreen.mk pw 2 (typed_map typed ∅) EmptyString) a).
  assert (Hev1 : step a (LoginPassword pw) = a1).
  { unfold step, login_step. by rewrite Hb, Hl. }
  assert (Hev2 : step a1 VerifyPassword = a2).
  { unfold step, login_step. simpl. rewrite Hb. simpl.
    rewrite (verifyPassword_compares a1 st (verifierHex (auth st)) Hst Hv).
    by rewrite String.eqb_refl. }
  assert (Hev3 : run (typeAnswers typed) a2 = a3).
  { by rewrite run_typeAnswers. }
  rewrite run_app, !run_cons, Hev1, Hev2. change (run [] a2) with a2.
  rewrite run_app, Hev3. change (run [VerifyQuestions] a3) with (step a3 VerifyQuestions).
  unfold step, login_step. simpl. rewrite Hb. simpl.
  by rewrite (verifyQuestions_unlocks a3 st key d Hst Hall Hkey Hd).
Qed.

(** Logout and a login the stored record accepts read the payload back
    from the stored ciphertext, whatever was in memory. *)
Lemma logout_login_reads_disk a a1 st st' key (pw : string)
      (typed : list (string * string)) (d : Payload) :
  window_defined (env a) = true ->
  boot a1 = app ->
  env a1 = env a ->
  localStorage a1 = Some st' ->
  same_identity st st' ->
  decryptJson (env a) (ciphertextB64 (enc st')) (ivB64 (enc st')) key = Some d ->
  derivedVerifier (env a) pw st = Some (verifierHex (auth st)) ->
  getAesKeyFromPassword (env a) pw (Hex.fromHex (saltEncHex (enc st)))
  = Some key ->
  Forall (answer_matches (env a) (typed_map typed ∅)) (qas (auth st)) ->
  let back :=
    run ([LoginPassword pw; VerifyPassword] ++ typeAnswers typed
           ++ [VerifyQuestions]) (onLogout a1) in
  boot back = app
  /\ data back = d
  /\ aesKey back = Some key
  /\ localStorage back = localStorage a1.
Proof.
  intros Hw Hb' He' Hls' Hid Hd' Hv Hkey Hall back.
  set (a2 := onLogout a1) in *.
  assert (Hst2 : loadState (env a2) (localStorage a2) = Some st').
  { unfold loadState. simpl. by rewrite He', Hw. }
  destruct Hid as (Hver & Husr & Hauth & Hsalt).
  assert (Hlogin :
            run ([LoginPassword pw; VerifyPassword] ++ typeAnswers typed
                   ++ [VerifyQuestions]) a2
            = onUnlock key d
                (with_loginScreen
                   (LoginScreen.mk pw 2 (typed_map typed ∅) EmptyString) a2)).
  { apply (login_unlocks a2 st'); simpl; rewrite ?He'; try done.
    - unfold loadState. by rewrite Hw.
    - unfold derivedVerifier in *. by rewrite Hauth.
    - by rewrite Hauth.
    - by rewrite Hsalt. }
  unfold back. rewrite Hlogin.
  destruct (onUnlock_session key d
              (with_loginScreen
                 (LoginScreen.mk pw 2 (typed_map typed ∅) EmptyString) a2)
              st' Hst2) as (Hboot & Hk2 & Hdata & _).
  rewrite onUnlock_without_key by done.
  repeat split; done.
Qed.

(** X9.  What is there again after logout and login is what reached the
    disk.  If the stored record accepts a password and a set of answers
    (each stored question has an answer, typed or the empty text, whose
    salted hash is the stored one), and the session key is the one
    derived from that password, then after a change of the payload, a
    logout, and a login with that password and those answers, the app is
    unlocked under the same key and the login itself writes nothing.
    The payload in memory is then the changed payload when its
    ciphertext (its JSON text and 16 bytes of tag) has no more bytes
    than the engine takes arguments, and the payload of before the
    change when it has more: such a change is lost. *)
Theorem change_survives_logout a ev st key (pw : string)
        (typed : list (string * string)) :
  boot a = app ->
  window_defined (env a) = true ->
  subtle (env a) = true ->
  is_mutation ev = true ->
  disk_holds_data a st key ->
  derivedVerifier (env a) pw st = Some (verifierHex (auth st)) ->
  getAesKeyFromPassword (env a) pw (Hex.fromHex (saltEncHex (enc st)))
  = Some key ->
  Forall (answer_matches (env a) (typed_map typed ∅)) (qas (auth st)) ->
  Codec.survives_JSON (data (step a ev)) ->
  let back :=
    run ([ev; Logout] ++ [LoginPassword pw; VerifyPassword]
           ++ typeAnswers typed ++ [VerifyQuestions]) a in
  boot back = app
  /\ aesKey back = Some key
  /\ localStorage back = localStorage (step a ev)
  /\ aesKey (run [ev; Logout] a) = None
  /\ data (run [ev; Logout] a) = initialData
  /\ (String.length (Codec.JSON_stringify (data (step a ev))) + 16
      <= max_arguments ->
      data back = data (step a ev))
  /\ (max_arguments
      < String.length (Codec.JSON_stringify (data (step a ev))) + 16 ->
      data back = data a).
Proof.
  intros Hb Hw Hs Hm Hdisk Hv Hkey Hall Hsurv back.
  set (a1 := step a ev) in *.
  assert (Hb1 : boot a1 = app /\ env a1 = env a).
  { unfold a1.
    destruct (mutation_is_update a ev Hb Hm) as [-> | [nd ->]]; [done |].
    destruct (update_frame nd a) as (-> & _). split; [done |].
    unfold update. simpl.
    by destruct (persist_frame (aesKey a) nd a) as (-> & _). }
  destruct Hb1 as [Hb1 He1].
  assert (Hout : run [ev; Logout] a = onLogout a1).
  { rewrite !run_cons. fold a1. change (run [] ?x) with x.
    unfold step. by rewrite Hb1. }
  assert (Hback : back
                  = run ([LoginPassword pw; VerifyPassword]
                           ++ typeAnswers typed ++ [VerifyQuestions])
                      (onLogout a1)).
  { unfold back. by rewrite run_app, Hout. }
  assert (Hread : exists st' d,
             localStorage a1 = Some st' /\ same_identity st st'
             /\ decryptJson (env a) (ciphertextB64 (enc st'))
                  (ivB64 (enc st')) key = Some d
             /\ (String.length (Codec.JSON_stringify (data a1)) + 16
                 <= max_arguments -> d = data a1)
             /\ (max_arguments
                 < String.length (Codec.JSON_stringify (data a1)) + 16 ->
                 d = data a)).
  { destruct (Nat.le_gt_cases
                (String.length (Codec.JSON_stringify (data a1)) + 16)
                max_arguments) as [Hfit | Hbig].
    - destruct (mutation_written a ev st key Hb Hw Hs Hm Hdisk Hsurv Hfit)
        as (st' & (Hls' & _ & Hd') & Hid & _ & He').
      fold a1 in Hls', Hd', He'. rewrite He' in Hd'.
      exists st', (data a1). repeat split; try done; try apply Hid.
      intros Hbig. lia.
    - destruct Hdisk as (Hls & Hk & Hd).
      assert (Hl1 : localStorage a1 = localStorage a).
      { unfold a1 in *.
        destruct (mutation_is_update a ev Hb Hm) as [-> | [nd Hnd]]; [done |].
        rewrite Hnd in *.
        assert (Hdata : data (update nd a) = nd) by apply update_frame.
        rewrite Hdata in Hbig.
        by destruct (update_unwritten nd a Hw Hs Hbig) as (-> & _). }
      exists st, (data a). rewrite Hl1. repeat split; try done.
      intros Hfit. lia. }
  destruct Hread as (st' & d & Hls' & Hid & Hd' & Hfits & Hlost).
  destruct (logout_login_reads_disk a a1 st st' key pw typed d
              Hw Hb1 He1 Hls' Hid Hd' Hv Hkey Hall)
    as (Hboot & Hdata & Hk2 & Hl2).
  rewrite <- Hback in Hboot, Hdata, Hk2, Hl2. rewrite Hout.
  repeat split; try done.
  - intros Hfit. by rewrite Hdata, (Hfits Hfit).
  - intros Hbig. by rewrite Hdata, (Hlost Hbig).
Qed.

End WriteThrough.

Lemma unlocked_disk_holds_data :
  disk_holds_data Scenario.unlocked Scenario.stored Scenario.session_key.
Proof.
  split; [reflexivity |]. split; [reflexivity |]. vm_compute. reflexivity.
Qed.

Lemma mutation_is_written_through_witness :
  boot Scenario.unlocked = app
  /\ is_mutation (AddCategory Scenario.cash) = true
  /\ Codec.survives_JSON (data (step Scenario.unlocked (AddCategory Scenario.cash)))
  /\ (exists st',
       disk_holds_data (step Scenario.unlocked (AddCategory Scenario.cash)) st'
         Scenario.session_key
       /\ same_identity Scenario.stored st'
       /\ boot (step Scenario.unlocked (AddCategory Scenario.cash)) = app
       /\ env (step Scenario.unlocked (AddCategory Scenario.cash))
          = env Scenario.unlocked)
  /\ Codec.survives_JSON
       (data (step Scenario.unlocked (AddCategory Scenario.big_cash)))
  /\ categories (data (step Scenario.unlocked (AddCategory Scenario.big_cash)))
     = [Scenario.big_cash]
  /\ localStorage (step Scenario.unlocked (AddCategory Scenario.big_cash))
     = localStorage Scenario.unlocked.
Proof.
  assert (Hsurv : Codec.survives_JSON
                    (data (step Scenario.unlocked (AddCategory Scenario.cash))))
    by (vm_compute; reflexivity).
  assert (Hsurv2 : Codec.survives_JSON
                     (data (step Scenario.unlocked
                              (AddCategory Scenario.big_cash))))
    by (vm_compute; reflexivity).
  assert (Hbig : max_arguments
                 < String.length
                     (Codec.JSON_stringify
                        (data (step Scenario.unlocked
                                 (AddCategory Scenario.big_cash)))) + 16)
    by (apply Nat.leb_le; vm_compute; reflexivity).
  assert (Hfit : String.length
                   (Codec.JSON_stringify
                      (data (step Scenario.unlocked
                               (AddCategory Scenario.cash)))) + 16
                 <= max_arguments)
    by (apply Nat.leb_le; vm_compute; reflexivity).
  split; [reflexivity |]. split; [reflexivity |]. split; [exact Hsurv |].
  split.
  { exact (proj1 (mutation_is_written_through Scenario.unlocked
                    (AddCategory Scenario.cash) Scenario.stored
                    Scenario.session_key
                    eq_refl eq_refl eq_refl eq_refl unlocked_disk_holds_data
                    Hsurv) Hfit). }
  split; [exact Hsurv2 |]. split; [reflexivity |].
  exact (proj1 (proj2 (mutation_is_written_through Scenario.unlocked
                         (AddCategory Scenario.big_cash) Scenario.stored
                         Scenario.session_key
                         eq_refl eq_refl eq_refl eq_refl
                         unlocked_disk_holds_data Hsurv2) Hbig)).
Defined.

(** The first stored question is answered as stored: its salt decodes,
    the map has an answer, and the hashes agree, each by evaluation. *)
Ltac answer_accepted :=
  apply List.Forall_cons;
  [ eexists _, _; split; [vm_compute; reflexivity |];
    split; [vm_compute; reflexivity |]; vm_compute; reflexivity | ].

Lemma typed_answers_accepted :
  Forall (answer_matches Sim.browser (typed_map Scenario.typed_answers ∅))
    (qas (auth Scenario.stored)).
Proof.
  do 5 answer_accepted. apply List.Forall_nil.
Qed.

Lemma change_survives_logout_witness :
  boot Scenario.unlocked = app
  /\ derivedVerifier (env Scenario.unlocked) "pw1234" Scenario.stored
     = Some (verifierHex (auth Scenario.stored))
  /\ data
       (run ([AddCategory Scenario.cash; Logout]
               ++ [LoginPassword "pw1234"; VerifyPassword]
               ++ typeAnswers Scenario.typed_answers ++ [VerifyQuestions])
          Scenario.unlocked)
     = data (step Scenario.unlocked (AddCategory Scenario.cash))
  /\ categories (data (step Scenario.unlocked (AddCategory Scenario.cash)))
     = [Scenario.cash]
  /\ data
       (run ([AddCategory Scenario.big_cash; Logout]
               ++ [LoginPassword "pw1234"; VerifyPassword]
               ++ typeAnswers Scenario.typed_answers ++ [VerifyQuestions])
          Scenario.unlocked)
     = data Scenario.unlocked
  /\ categories (data Scenario.unlocked) = []
  /\ categories (data (step Scenario.unlocked (AddCategory Scenario.big_cash)))
     = [Scenario.big_cash].
Proof.
  assert (Hsurv2 : Codec.survives_JSON
                     (data (step Scenario.unlocked
                              (AddCategory Scenario.big_cash))))
    by (vm_compute; reflexivity).
  assert (Hbig : max_arguments
                 < String.length
                     (Codec.JSON_stringify
                        (data (step Scenario.unlocked
                                 (AddCategory Scenario.big_cash)))) + 16)
    by (apply Nat.leb_le; vm_compute; reflexivity).
  assert (Hv : derivedVerifier (env Scenario.unlocked) "pw1234" Scenario.stored
               = Some (verifierHex (auth Scenario.stored)))
    by (vm_compute; reflexivity).
  assert (Hkey : getAesKeyFromPassword (env Scenario.unlocked) "pw1234"
                   (Hex.fromHex (saltEncHex (enc Scenario.stored)))
                 = Some Scenario.session_key) by (vm_compute; reflexivity).
  assert (Hsurv : Codec.survives_JSON
                    (data (step Scenario.unlocked (AddCategory Scenario.cash))))
    by (vm_compute; reflexivity).
  assert (Hfit : String.length
                   (Codec.JSON_stringify
                      (data (step Scenario.unlocked
                               (AddCategory Scenario.cash)))) + 16
                 <= max_arguments)
    by (apply Nat.leb_le; vm_compute; reflexivity).
  split; [reflexivity |]. split; [exact Hv |].
  split.
  { destruct (change_survives_logout Scenario.unlocked
                (AddCategory Scenario.cash) Scenario.stored
                Scenario.session_key "pw1234" Scenario.typed_answers
                eq_refl eq_refl eq_refl eq_refl
                unlocked_disk_holds_data Hv Hkey
                typed_answers_accepted Hsurv)
      as (_ & _ & _ & _ & _ & Hthere & _).
    exact (Hthere Hfit). }
  split; [reflexivity |].
  split; [| split; reflexivity].
  destruct (change_survives_logout Scenario.unlocked
              (AddCategory Scenario.big_cash) Scenario.stored
              Scenario.session_key "pw1234" Scenario.typed_answers
              eq_refl eq_refl eq_refl eq_refl
              unlocked_disk_holds_data Hv Hkey
              typed_answers_accepted Hsurv2)
    as (_ & _ & _ & _ & _ & _ & Hlost).
  exact (Hlost Hbig).
Defined.

(* ================================================================== *)
(** * Further properties: keys, reset and logout *)
(* ================================================================== *)

Section KeysInMemory.
Context `{WebCrypto} `{RandomSource} `{Engine}.
Implicit Types (e : Env) (g : Rng) (a : App) (st : VaultState).
Implicit Types (ev : Event) (key : CryptoKey).

(** X10.  [onUnlock] sets the new key but calls the [persist] of the
    render that made it, which reads the [aesKey] held before.  With no
    key held (a first login, or a login after logout) the unlock writes
    nothing.  With a key still held, in a browser with [crypto.subtle],
    the unlock replaces the stored IV and ciphertext by an encryption of
    the unlocked payload under that earlier key, not under the key just
    derived, when that ciphertext (the JSON text and 16 bytes of tag)
    has no more bytes than the engine takes arguments; when it has more,
    the encryption throws and the stored record stays as it was. *)
Theorem onUnlock_persists_with_earlier_key key (d : Payload) a st :
  loadState (env a) (localStorage a) = Some st ->
  aesKey (onUnlock key d a) = Some key
  /\ (aesKey a = None -> localStorage (onUnlock key d a) = localStorage a)
  /\ (forall earlier,
        aesKey a = Some earlier ->
        subtle (env a) = true ->
        max_arguments < String.length (Codec.JSON_stringify d) + 16 ->
        localStorage (onUnlock key d a) = localStorage a)
  /\ (forall earlier,
        aesKey a = Some earlier ->
        subtle (env a) = true ->
        String.length (Codec.JSON_stringify d) + 16 <= max_arguments ->
        exists iv0,
          length iv0 = 12
          /\ localStorage (onUnlock key d a)
             = Some
                 {| version := version st;
                    user := user st;
                    auth := auth st;
                    enc :=
                      {| saltEncHex := saltEncHex (enc st);
                         ivB64 := encoded (env a) iv0;
                         ciphertextB64 :=
                           encoded (env a)
                             (AES_GCM_encrypt earlier iv0
                                (list_byte_of_string
                                   (Codec.JSON_stringify d))) |} |}).
Proof.
  intros Hst.
  assert (Hw : window_defined (env a) = true).
  { unfold loadState in Hst. by destruct (window_defined (env a)). }
  split; [| split; [| split]].
  - by destruct (onUnlock_session key d a st Hst) as (_ & Hk & _).
  - apply onUnlock_without_key.
  - intros earlier Hk Hs Hbig.
    destruct (encryptJson_RangeError (env a) d earlier (rng a) Hw Hs Hbig)
      as (g' & Henc).
    unfold onUnlock, persist. simpl. by rewrite Hst, Hk, Henc.
  - intros earlier Hk Hs Hfit.
    destruct (encryptJson_returns (env a) d earlier (rng a) Hs
                (or_intror Hfit)) as (iv0 & g' & Hr & Hlen & Henc).
    exists iv0. split; [exact Hlen |].
    unfold onUnlock, persist. simpl. rewrite Hst, Hk, Henc. simpl.
    unfold saveState. by rewrite Hw.
Qed.

Lemma env_update (nd : Payload) a : env (update nd a) = env a.
Proof.
  unfold update. simpl.
  by destruct (persist_frame (aesKey a) nd a) as (He & _).
Qed.

Lemma env_onUnlock key (d : Payload) a : env (onUnlock key d a) = env a.
Proof.
  unfold onUnlock.
  match goal with
  | |- context [persist ?c ?nd ?x] =>
      by destruct (persist_frame c nd x) as (-> & _)
  end.
Qed.

Lemma env_verifyPassword a : env (verifyPassword a) = env a.
Proof.
  unfold verifyPassword. destruct (_ ≫= _) as [[v stored]|]; [| done].
  by destruct (negb _).
Qed.

Lemma env_verifyQuestions a : env (verifyQuestions a) = env a.
Proof.
  unfold verifyQuestions.
  destruct (checkAnswers _ _ _) as [[|]|]; try reflexivity.
  destruct (_ ≫= _) as [[key d]|]; [| reflexivity].
  by rewrite env_onUnlock.
Qed.

Lemma env_handleSetup a : env (handleSetup a) = env a.
Proof.
  unfold handleSetup.
  repeat (match goal with
          | |- context [if ?c then _ else _] => destruct c
          end; try reflexivity).
  by destruct (buildState _ _ _ _ _) as [[?|] ?].
Qed.

Lemma env_mount a : env (mount a) = env a.
Proof.
  unfold mount. destruct (window_defined (env a)); [| done].
  by destruct (loadState _ _).
Qed.

Lemma step_env a ev : env (step a ev) = env a.
Proof.
  unfold step, login_step, onAddCategory, onAddEntry, onDeleteCategory,
    onAddCurrency, onSetBaseCurrency, onRemoveCurrency, onDeleteEntry,
    onDeleteHistoryItem, onReset.
  destruct (boot a); destruct ev; try reflexivity;
    repeat match goal with
      | |- env (match ?x with _ => _ end) = _ => destruct x
      end;
    rewrite ?env_update, ?env_verifyPassword, ?env_verifyQuestions,
      ?env_handleSetup, ?env_mount; reflexivity.
Qed.

Lemma run_env (evs : list Event) : forall a, env (run evs a) = env a.
Proof.
  induction evs as [|ev evs IH]; intros a; [done |].
  by rewrite run_cons, IH, step_env.
Qed.

Lemma persist_without_window (captured : option CryptoKey) (nd : Payload) a :
  window_defined (env a) = false -> persist captured nd a = (a, Fulfilled).
Proof. intros Hw. unfold persist, loadState. by rewrite Hw. Qed.

Lemma step_without_window a ev :
  window_defined (env a) = false ->
  localStorage (step a ev) = localStorage a
  /\ (boot a = loading -> boot (step a ev) = loading).
Proof.
  intros Hw.
  assert (Hup : forall nd, localStorage (update nd a) = localStorage a).
  { intros nd. unfold update. by rewrite persist_without_window. }
  split.
  - unfold step, login_step, onAddCategory, onAddEntry, onDeleteCategory,
      onAddCurrency, onSetBaseCurrency, onRemoveCurrency, onDeleteEntry,
      onDeleteHistoryItem, onReset, mount, clearState.
    rewrite ?Hw.
    destruct (boot a); destruct ev; try reflexivity;
      repeat match goal with
        | |- localStorage (match ?x with _ => _ end) = _ => destruct x
        end;
      rewrite ?Hup; try reflexivity.
    + unfold handleSetup, saveState. rewrite Hw.
      repeat (match goal with
              | |- context [if ?c then _ else _] => destruct c
              end; try reflexivity).
      by destruct (buildState _ _ _ _ _) as [[?|] ?].
    + unfold verifyPassword. destruct (_ ≫= _) as [[v stored]|]; [| done].
      by destruct (negb _).
    + unfold verifyQuestions, loadState. rewrite Hw. simpl.
      reflexivity.
  - intros Hb. unfold step, mount. by rewrite Hb, Hw; destruct ev.
Qed.

(** X11.  Where [window] is not defined the app reads and writes no
    storage: whatever the events, the cell is as it was, and an app that
    is loading stays loading (its first effect returns at once). *)
Theorem without_window_nothing_is_stored (evs : list Event) a :
  window_defined (env a) = false ->
  localStorage (run evs a) = localStorage a
  /\ (boot a = loading -> boot (run evs a) = loading).
Proof.
  revert a. induction evs as [|ev evs IH]; intros a Hw; [done |].
  rewrite run_cons.
  destruct (step_without_window a ev Hw) as [Hls Hb].
  destruct (IH (step a ev)) as [Hls' Hb']; [by rewrite step_env |].
  split; [by rewrite Hls', Hls | intros Hl; by apply Hb', Hb].
Qed.

(** X12.  A confirmed reset, in a browser, empties the cell and shows
    the setup screen, and a page loaded afterwards starts at setup; but
    it leaves the key and the payload of the session in memory.  A
    logout forgets the key and the payload and leaves the cell as it
    is, so that a page loaded afterwards starts at the login screen with
    the stored first name.  A reset that is not confirmed changes
    nothing. *)
Theorem reset_and_logout a :
  (window_defined (env a) = true ->
     localStorage (onReset true a) = None
     /\ forall g, boot (run [Mount] (start (env a) g (localStorage (onReset true a))))
                  = setup)
  /\ boot (onReset true a) = setup
  /\ aesKey (onReset true a) = aesKey a
  /\ data (onReset true a) = data a
  /\ onReset false a = a
  /\ aesKey (onLogout a) = None
  /\ data (onLogout a) = initialData
  /\ boot (onLogout a) = login
  /\ loginScreen (onLogout a) = LoginScreen.initial
  /\ localStorage (onLogout a) = localStorage a
  /\ (forall st g,
        window_defined (env a) = true ->
        localStorage a = Some st ->
        boot (run [Mount] (start (env a) g (localStorage (onLogout a)))) = login
        /\ firstName (run [Mount] (start (env a) g (localStorage (onLogout a))))
           = user_firstName (user st)).
Proof.
  split.
  - intros Hw. unfold onReset, clearState. simpl. rewrite Hw.
    split; [done |]. intros g. unfold run, step, mount, loadState. simpl.
    by rewrite Hw.
  - repeat (split; [reflexivity |]).
    intros st g Hw Hls. unfold run, step, mount, loadState. simpl.
    by rewrite Hw, Hls.
Qed.

End KeysInMemory.

Lemma onUnlock_persists_with_earlier_key_witness :
  loadState (env Scenario.right_answers) (localStorage Scenario.right_answers)
  = Some Scenario.stored
  /\ aesKey Scenario.right_answers = None
  /\ localStorage (onUnlock Scenario.session_key initialData Scenario.right_answers)
     = localStorage Scenario.right_answers
  /\ aesKey Scenario.unlocked = Some Scenario.session_key
  /\ exists iv0,
       length iv0 = 12
       /\ localStorage (onUnlock [x09] initialData Scenario.unlocked)
          = Some
              {| version := version Scenario.stored;
                 user := user Scenario.stored;
                 auth := auth Scenario.stored;
                 enc :=
                   {| saltEncHex := saltEncHex (enc Scenario.stored);
                      ivB64 := encoded (env Scenario.unlocked) iv0;
                      ciphertextB64 :=
                        encoded (env Scenario.unlocked)
                          (AES_GCM_encrypt Scenario.session_key iv0
                             (list_byte_of_string
                                (Codec.JSON_stringify initialData))) |} |}.
Proof.
  assert (H1 : loadState (env Scenario.right_answers)
                 (localStorage Scenario.right_answers) = Some Scenario.stored)
    by reflexivity.
  assert (H2 : loadState (env Scenario.unlocked) (localStorage Scenario.unlocked)
               = Some Scenario.stored) by reflexivity.
  split; [exact H1 |]. split; [reflexivity |].
  split.
  { exact (proj1 (proj2 (onUnlock_persists_with_earlier_key
                           Scenario.session_key initialData
                           Scenario.right_answers Scenario.stored H1))
             eq_refl). }
  split; [reflexivity |].
  assert (Hfit : String.length (Codec.JSON_stringify initialData) + 16
                 <= max_arguments)
    by (apply Nat.leb_le; vm_compute; reflexivity).
  exact (proj2 (proj2 (proj2 (onUnlock_persists_with_earlier_key [x09]
                                initialData Scenario.unlocked
                                Scenario.stored H2)))
           Scenario.session_key eq_refl eq_refl Hfit).
Defined.

Lemma without_window_nothing_is_stored_witness :
  window_defined (env Scenario.on_server) = false
  /\ localStorage
       (run (Mount :: Scenario.fill_setup ++ [HandleSetup])
          Scenario.on_server)
     = None
  /\ boot (run (Mount :: Scenario.fill_setup ++ [HandleSetup])
             Scenario.on_server)
     = loading.
Proof.
  split; [reflexivity |].
  destruct (without_window_nothing_is_stored
              (Mount :: Scenario.fill_setup ++ [HandleSetup])
              Scenario.on_server eq_refl) as [Hls Hb].
  split; [exact Hls | exact (Hb eq_refl)].
Defined.

Lemma reset_and_logout_witness :
  window_defined (env Scenario.unlocked) = true
  /\ localStorage Scenario.unlocked = Some Scenario.stored
  /\ localStorage (onReset true Scenario.unlocked) = None
  /\ aesKey (onReset true Scenario.unlocked) = Some Scenario.session_key
  /\ boot (run [Mount]
             (start (env Scenario.unlocked) (rng Scenario.unlocked)
                (localStorage (onLogout Scenario.unlocked))))
     = login.
Proof.
  destruct (reset_and_logout Scenario.unlocked)
    as (Hreset & _ & Hkey & _ & _ & _ & _ & _ & _ & _ & Hreload).
  split; [reflexivity |]. split; [reflexivity |].
  split; [exact (proj1 (Hreset eq_refl)) |].
  split; [exact Hkey |].
  exact (proj1 (Hreload Scenario.stored (rng Scenario.unlocked) eq_refl eq_refl)).
Defined.

(* ================================================================== *)
(** * Further properties: categories, entries and currencies *)
(* ================================================================== *)

Lemma upper_upper_char (c : ascii) :
  Str.upper_char (Str.upper_char c) = Str.upper_char c.
Proof. destruct c as [[] [] [] [] [] [] [] []]; reflexivity. Qed.

Lemma toUpperCase_idempotent (s : string) :
  Str.toUpperCase (Str.toUpperCase s) = Str.toUpperCase s.
Proof.
  induction s as [|c s IH]; [done |]. simpl. by rewrite upper_upper_char, IH.
Qed.

Lemma filter_length_split {A} (f : A -> bool) (l : list A) :
  length (List.filter f l) + length (List.filter (fun x => negb (f x)) l)
  = length l.
Proof.
  induction l as [|x l IH]; [done |].
  simpl. destruct (f x); simpl; lia.
Qed.

Section Deletions.
Context `{WebCrypto} `{RandomSource} `{Engine}.
Implicit Types (a : App).

(** X13.  Deleting a category: when no category has the id, or the
    dialog is declined, nothing changes.  Otherwise the categories left
    are those with another id and the entries left those of other
    categories, in their order; the currency table and the base currency
    are untouched; and the count written to the history record is the
    number of entries removed. *)
Theorem onDeleteCategory_cascades (catId id ts : string) a :
  (List.find (is_category catId) (categories (data a)) = None ->
   forall ok, onDeleteCategory catId ok id ts a = a)
  /\ onDeleteCategory catId false id ts a = a
  /\ (forall cat,
        List.find (is_category catId) (categories (data a)) = Some cat ->
        let d := data (onDeleteCategory catId true id ts a) in
        Category.id cat = catId
        /\ categories d
           = List.filter (fun c => negb (String.eqb (Category.id c) catId))
               (categories (data a))
        /\ Forall (fun c => Category.id c <> catId) (categories d)
        /\ entries d
           = List.filter (fun x => negb (String.eqb (Entry.categoryId x) catId))
               (entries (data a))
        /\ Forall (fun x => Entry.categoryId x <> catId) (entries d)
        /\ currencies d = currencies (data a)
        /\ baseCurrency d = baseCurrency (data a)
        /\ exists h,
             last (history d) = Some h
             /\ HistoryItem.category h = Some cat
             /\ HistoryItem.removedEntriesCount h
                = Some (Number.of_Z
                          (Z.of_nat
                             (length (List.filter
                                        (fun x => String.eqb (Entry.categoryId x) catId)
                                        (entries (data a))))))).
Proof.
  split; [| split].
  - intros Hnone ok. unfold onDeleteCategory. by rewrite Hnone.
  - unfold onDeleteCategory. by destruct (List.find _ _).
  - intros cat Hfind d.
    assert (Hd : d = data (onDeleteCategory catId true id ts a)) by reflexivity.
    unfold onDeleteCategory in Hd. rewrite Hfind in Hd. simpl in Hd.
    pose proof (find_some _ _ Hfind) as [_ Hid].
    apply String.eqb_eq in Hid.
    assert (Hneq : forall {A} (f : A -> string) (l : list A),
               Forall (fun x => f x <> catId)
                 (List.filter (fun x => negb (String.eqb (f x) catId)) l)).
    { intros A f l. apply Forall_forall. intros x Hx.
      apply list_elem_of_In, filter_In in Hx as [_ Hx].
      apply negb_true_iff, String.eqb_neq in Hx. exact Hx. }
    rewrite Hd. simpl.
    split; [exact Hid |]. split; [reflexivity |].
    split; [apply (Hneq _ Category.id) |]. split; [reflexivity |].
    split; [apply (Hneq _ Entry.categoryId) |].
    split; [reflexivity |]. split; [reflexivity |].
    eexists. split; [apply last_snoc |]. split; [reflexivity |].
    simpl. do 2 f_equal.
    pose proof (filter_length_split (in_category catId) (entries (data a)))
      as Hlen.
    unfold in_category in *. lia.
Qed.

End Deletions.

Lemma NoDup_map_filter {A B} (f : A -> B) (p : A -> bool) (l : list A) :
  NoDup (map f l) -> NoDup (map f (List.filter p l)).
Proof.
  induction l as [|x l IH]; intros Hnd; [done |].
  simpl in Hnd. apply NoDup_cons in Hnd as [Hx Hnd].
  simpl. destruct (p x); [| by apply IH].
  simpl. apply NoDup_cons. split; [| by apply IH].
  intros Hin. apply Hx.
  apply list_elem_of_fmap in Hin as (y & Hy & Hin).
  apply list_elem_of_In, filter_In in Hin as [Hin _].
  apply list_elem_of_fmap. exists y. split; [done | by apply list_elem_of_In].
Qed.

Section Currencies.
Context `{WebCrypto} `{RandomSource} `{Engine}.
Implicit Types (a : App).

(** X14.  Adding a currency is an update in place of any entry with the
    same code, letters compared without case: the entries with another
    code are kept in their order, the new entry comes last with the code
    in upper case, and the table then has exactly one entry with that
    code.  A table without two entries of one code stays so. *)
Theorem onAddCurrency_upserts (code : string) (rate : float) a :
  let d := data (onAddCurrency code rate a) in
  currencies d
  = List.filter
      (fun c => negb (String.eqb (upper_code c) (Str.toUpperCase code)))
      (currencies (data a))
      ++ [Currency.mk (Str.toUpperCase code) (Number.or_zero rate)]
  /\ List.filter (fun c => String.eqb (upper_code c) (Str.toUpperCase code))
       (currencies d)
     = [Currency.mk (Str.toUpperCase code) (Number.or_zero rate)]
  /\ (NoDup (map upper_code (currencies (data a))) ->
      NoDup (map upper_code (currencies d)))
  /\ categories d = categories (data a)
  /\ entries d = entries (data a)
  /\ baseCurrency d = baseCurrency (data a).
Proof.
  intros d. unfold d, onAddCurrency. simpl.
  split; [reflexivity |]. split; [| split; [| done]].
  - rewrite List.filter_app. simpl. unfold upper_code at 2. simpl.
    rewrite toUpperCase_idempotent, String.eqb_refl.
    replace (List.filter _ (List.filter _ _)) with (@nil Currency.t); [done |].
    symmetry. induction (currencies (data a)) as [|c l IH]; [done |].
    simpl. unfold same_code, upper_code in *.
    destruct (String.eqb _ _) eqn:E; simpl; [exact IH |].
    by rewrite E.
  - intros Hnd. rewrite map_app. simpl.
    apply NoDup_app. split; [by apply NoDup_map_filter |]. split.
    + intros x Hx Hnew. apply list_elem_of_singleton in Hnew.
      apply list_elem_of_fmap in Hx as (c & -> & Hc).
      apply list_elem_of_In, filter_In in Hc as [_ Hc].
      unfold same_code in Hc. apply negb_true_iff, String.eqb_neq in Hc.
      apply Hc. unfold upper_code in Hnew. simpl in Hnew.
      by rewrite toUpperCase_idempotent in Hnew.
    + apply NoDup_singleton.
Qed.

(** X15.  Removing a currency is refused, and nothing changes, when the
    code is the base currency or a category counts in it.  Otherwise no
    entry with the code is left, the entries with another code are kept
    in their order, and the table is never left empty: when the last
    entry goes, the base currency is put in at rate 1.  An entry of the
    base currency is never removed. *)
Theorem onRemoveCurrency_guards (code : string) a :
  let d := data (onRemoveCurrency code a) in
  let up := Str.toUpperCase code in
  (up = base_code (data a) -> onRemoveCurrency code a = a)
  /\ (Exists (fun cat => category_code (base_code (data a)) cat = up)
        (categories (data a)) ->
      onRemoveCurrency code a = a)
  /\ (up <> base_code (data a) ->
      ~ Exists (fun cat => category_code (base_code (data a)) cat = up)
          (categories (data a)) ->
      Forall (fun c => upper_code c <> up) (currencies d)
      /\ currencies d <> []
      /\ (List.filter (fun c => negb (String.eqb (upper_code c) up))
            (currencies (data a)) <> [] ->
          currencies d
          = List.filter (fun c => negb (String.eqb (upper_code c) up))
              (currencies (data a)))
      /\ (List.filter (fun c => negb (String.eqb (upper_code c) up))
            (currencies (data a)) = [] ->
          currencies d = [Currency.mk (base_code (data a)) 1%float]))
  /\ (forall c, c ∈ currencies (data a) ->
                upper_code c = base_code (data a) -> c ∈ currencies d).
Proof.
  intros d up.
  assert (Huse : existsb
                   (fun cat =>
                      String.eqb
                        (Str.toUpperCase
                           (match Category.currency cat with
                            | Some c => or_else c (base_code (data a))
                            | None => base_code (data a)
                            end)) up)
                   (categories (data a)) = true
                 <-> Exists (fun cat => category_code (base_code (data a)) cat = up)
                       (categories (data a))).
  { rewrite existsb_exists, Exists_exists.
    split; intros (cat & Hin & Hc); exists cat.
    - split; [by apply list_elem_of_In |]. by apply String.eqb_eq in Hc.
    - split; [by apply list_elem_of_In |]. by apply String.eqb_eq. }
  unfold d, onRemoveCurrency. fold (base_code (data a)). fold up.
  destruct (String.eqb_spec up (base_code (data a))) as [Eb | Eb].
  { split; [done |]. split; [done |]. split; [done |]. done. }
  destruct (existsb _ _) eqn:Ex.
  { split; [done |]. split; [done |].
    split; [intros _ Hno; exfalso; apply Hno; by apply Huse | done]. }
  assert (Hno : ~ Exists (fun cat => category_code (base_code (data a)) cat = up)
                    (categories (data a))).
  { intros Hex. apply Huse in Hex. congruence. }
  set (next := List.filter
                 (fun c => negb (String.eqb (Str.toUpperCase (Currency.code c)) up))
                 (currencies (data a))).
  assert (Hnext : Forall (fun c => upper_code c <> up) next).
  { apply Forall_forall. intros c Hc.
    apply list_elem_of_In, filter_In in Hc as [_ Hc].
    by apply negb_true_iff, String.eqb_neq in Hc. }
  simpl. fold next.
  split; [done |]. split; [intros Hex; by apply Hno in Hex |].
  split.
  - intros _ _. unfold upper_code. fold next.
    destruct next as [|c l] eqn:En.
    + split; [| done].
      constructor; [| constructor]. unfold upper_code, base_code. simpl.
      rewrite toUpperCase_idempotent. fold (base_code (data a)). congruence.
    + by repeat split.
  - intros c Hc Hbase.
    assert (Hin : c ∈ next).
    { apply list_elem_of_In, filter_In. split; [by apply list_elem_of_In |].
      apply negb_true_iff, String.eqb_neq. fold (upper_code c). congruence. }
    destruct next; [by apply elem_of_nil in Hin | exact Hin].
Qed.

End Currencies.

Lemma onDeleteCategory_cascades_witness :
  List.find (is_category "c1") (categories (data Scenario.with_entry))
  = Some Scenario.cash
  /\ entries (data Scenario.with_entry)
     = [Entry.mk "e1" "c1" 50 "2024-01-01T00:00:00.000Z"]
  /\ entries (data (onDeleteCategory "c1" true "h3" "t3" Scenario.with_entry))
     = []
  /\ List.find (is_category "zz") (categories (data Scenario.with_entry)) = None
  /\ onDeleteCategory "zz" true "h3" "t3" Scenario.with_entry
     = Scenario.with_entry.
Proof.
  destruct (onDeleteCategory_cascades "c1" "h3" "t3" Scenario.with_entry)
    as (_ & _ & Hfound).
  destruct (onDeleteCategory_cascades "zz" "h3" "t3" Scenario.with_entry)
    as (Hunknown & _).
  split; [reflexivity |]. split; [reflexivity |].
  split.
  { destruct (Hfound Scenario.cash eq_refl) as (_ & _ & _ & Hentries & _).
    rewrite Hentries. reflexivity. }
  split; [reflexivity |].
  exact (Hunknown eq_refl true).
Defined.

Lemma onAddCurrency_upserts_witness :
  NoDup (map upper_code (currencies (data Scenario.with_entry)))
  /\ currencies (data Scenario.with_entry)
     = [Currency.mk "BDT" 1; Currency.mk "USD" 85]
  /\ currencies (data (onAddCurrency "Usd" 90 Scenario.with_entry))
     = [Currency.mk "BDT" 1; Currency.mk "USD" 90]
  /\ NoDup (map upper_code
              (currencies (data (onAddCurrency "Usd" 90 Scenario.with_entry)))).
Proof.
  assert (Hnd : NoDup (map upper_code (currencies (data Scenario.with_entry)))).
  { apply (bool_decide_unpack _). vm_compute. exact I. }
  destruct (onAddCurrency_upserts "Usd" 90 Scenario.with_entry)
    as (Htable & _ & Hkeep & _).
  split; [exact Hnd |]. split; [reflexivity |].
  split; [rewrite Htable; reflexivity | exact (Hkeep Hnd)].
Defined.

Lemma onRemoveCurrency_guards_witness :
  Str.toUpperCase "bdt" = base_code (data Scenario.with_entry)
  /\ onRemoveCurrency "bdt" Scenario.with_entry = Scenario.with_entry
  /\ Str.toUpperCase "usd" <> base_code (data Scenario.with_entry)
  /\ ~ Exists (fun cat => category_code (base_code (data Scenario.with_entry)) cat
                          = Str.toUpperCase "usd")
         (categories (data Scenario.with_entry))
  /\ Forall (fun c => upper_code c <> Str.toUpperCase "usd")
       (currencies (data (onRemoveCurrency "usd" Scenario.with_entry)))
  /\ currencies (data (onRemoveCurrency "usd" Scenario.with_entry)) <> [].
Proof.
  assert (Hbase : Str.toUpperCase "bdt" = base_code (data Scenario.with_entry))
    by reflexivity.
  assert (Hother : Str.toUpperCase "usd" <> base_code (data Scenario.with_entry))
    by (vm_compute; discriminate).
  assert (Hfree : ~ Exists
                      (fun cat =>
                         category_code (base_code (data Scenario.with_entry)) cat
                         = Str.toUpperCase "usd")
                      (categories (data Scenario.with_entry))).
  { intros Hex. apply Exists_cons in Hex as [Hex | Hex].
    - vm_compute in Hex. discriminate Hex.
    - by apply Exists_nil in Hex. }
  destruct (onRemoveCurrency_guards "bdt" Scenario.with_entry) as (Hrefused & _).
  destruct (onRemoveCurrency_guards "usd" Scenario.with_entry)
    as (_ & _ & Hremoved & _).
  split; [exact Hbase |]. split; [exact (Hrefused Hbase) |].
  split; [exact Hother |]. split; [exact Hfree |].
  destruct (Hremoved Hother Hfree) as (Hgone & Hnonempty & _).
  split; [exact Hgone | exact Hnonempty].
Defined.

(* ================================================================== *)
(** * Further properties: the currency lists on the screen *)
(* ================================================================== *)

Lemma has_elem_of (seen : list string) (x : string) :
  View.has seen x = true <-> x ∈ seen.
Proof.
  unfold View.has. rewrite existsb_exists. split.
  - intros (y & Hin & Heq). apply String.eqb_eq in Heq. subst.
    by apply list_elem_of_In.
  - intros Hin. exists x. split; [by apply list_elem_of_In |].
    apply String.eqb_refl.
Qed.

Lemma has_not_elem_of (seen : list string) (x : string) :
  View.has seen x = false <-> x ∉ seen.
Proof.
  rewrite <- has_elem_of. destruct (View.has seen x); split; congruence.
Qed.

Lemma unique_from_elem_of (l : list string) :
  forall seen x, x ∈ View.unique_from seen l <-> x ∈ l /\ x ∉ seen.
Proof.
  induction l as [|y l IH]; intros seen x.
  - simpl. split; [intros Hx; by apply elem_of_nil in Hx |].
    intros [Hx _]. by apply elem_of_nil in Hx.
  - simpl. destruct (View.has seen y) eqn:Ey.
    + apply has_elem_of in Ey. rewrite IH, elem_of_cons.
      split; [intros [? ?]; by auto |].
      intros [[-> | Hx] Hn]; [done | by split].
    + apply has_not_elem_of in Ey. rewrite !elem_of_cons, IH, elem_of_cons.
      split.
      * intros [-> | [Hx Hn]]; [by auto |]. split; [by right | tauto].
      * intros [[-> | Hx] Hn]; [by left |].
        destruct (decide (x = y)) as [-> | Hne]; [by left |].
        right. split; [done | tauto].
Qed.

Lemma unique_from_NoDup (l : list string) :
  forall seen, NoDup (View.unique_from seen l).
Proof.
  induction l as [|y l IH]; intros seen; [constructor |].
  simpl. destruct (View.has seen y); [apply IH |].
  apply NoDup_cons. split; [| apply IH].
  rewrite unique_from_elem_of, elem_of_cons. tauto.
Qed.

Lemma display_loop_elem_of (f : string -> float -> string) (t : float)
      (all : list Currency.t) :
  forall seen code,
    code ∈ map fst (View.display_loop f t seen all)
    <-> (code ∈ map upper_code all /\ (code ∉ seen) /\ code <> EmptyString).
Proof.
  induction all as [|c all IH]; intros seen code.
  - simpl. split; [intros Hx; by apply elem_of_nil in Hx |].
    intros [Hx _]. by apply elem_of_nil in Hx.
  - simpl. fold (upper_code c).
    destruct (Str.is_empty (upper_code c)) eqn:Ee; simpl.
    + apply is_empty_true in Ee. rewrite IH, elem_of_cons, Ee.
      split; [intros (? & ? & ?); by auto |].
      intros ([-> | Hx] & Hn & Hne); [done | by auto].
    + apply is_empty_false in Ee.
      destruct (View.has seen (upper_code c)) eqn:Ey.
      * apply has_elem_of in Ey. rewrite IH, elem_of_cons.
        split; [intros (? & ? & ?); by auto |].
        intros ([-> | Hx] & Hn & Hne); [done | by auto].
      * apply has_not_elem_of in Ey. simpl.
        rewrite !elem_of_cons, IH, elem_of_cons.
        split.
        -- intros [-> | (Hx & Hn & Hne)]; [by auto |].
           split; [by right |]. split; [tauto | done].
        -- intros ([-> | Hx] & Hn & Hne); [by left |].
           destruct (decide (code = upper_code c)) as [-> | Hd]; [by left |].
           right. split; [done |]. split; [tauto | done].
Qed.

Lemma display_loop_NoDup (f : string -> float -> string) (t : float)
      (all : list Currency.t) :
  forall seen, NoDup (map fst (View.display_loop f t seen all)).
Proof.
  induction all as [|c all IH]; intros seen; [constructor |].
  simpl. destruct (Str.is_empty _ || View.has seen _); [apply IH |].
  simpl. apply NoDup_cons. split; [| apply IH].
  rewrite display_loop_elem_of, elem_of_cons. tauto.
Qed.

Lemma toUpperCase_nonempty (s : string) :
  s <> EmptyString -> Str.toUpperCase s <> EmptyString.
Proof. destruct s; [done |]. simpl. discriminate. Qed.

Lemma base_code_nonempty (d : Payload) : base_code d <> EmptyString.
Proof.
  unfold base_code, or_else. apply toUpperCase_nonempty.
  destruct (Str.is_empty (baseCurrency d)) eqn:E; [discriminate |].
  by apply is_empty_false.
Qed.

Lemma find_upper_code (code : string) (l : list Currency.t) :
  (exists c, List.find (fun c => String.eqb (upper_code c) code) l = Some c)
  <-> code ∈ map upper_code l.
Proof.
  induction l as [|x l IH]; simpl.
  - split; [intros [c Hc]; discriminate |].
    intros Hx. by apply elem_of_nil in Hx.
  - destruct (String.eqb (upper_code x) code) eqn:E.
    + apply String.eqb_eq in E. subst. split; [intros _; by left |].
      intros _. by eexists.
    + apply String.eqb_neq in E. rewrite IH, elem_of_cons.
      split; [by right |]. intros [-> | Hx]; [done | exact Hx].
Qed.

Lemma sidebar_codes_elem_of (d : Payload) (code : string) :
  code ∈ View.sidebar_codes d
  <-> code = base_code d \/ code ∈ map upper_code (currencies d).
Proof.
  unfold View.sidebar_codes, View.array_from_set.
  rewrite unique_from_elem_of, elem_of_app, list_elem_of_singleton.
  fold (base_code d). split.
  - intros [[Hx | Hx] _]; [by right | by left].
  - intros [Hx | Hx]; (split; [| apply not_elem_of_nil]); [by right | by left].
Qed.

Lemma base_options_elem_of (d : Payload) (code : string) :
  code ∈ View.base_options d
  <-> code = base_code d \/ code ∈ map upper_code (currencies d).
Proof.
  unfold View.base_options, View.array_from_set, View.totals_base.
  rewrite unique_from_elem_of, elem_of_app, list_elem_of_singleton.
  fold (base_code d). unfold View.totals_currencies, View.totals_base.
  destruct (currencies d) as [|c l] eqn:Ec.
  - simpl. fold (base_code d). rewrite list_elem_of_singleton. split.
    + intros [[Hx | Hx] _]; by left.
    + intros [Hx | Hx]; [| by apply elem_of_nil in Hx].
      split; [by left | apply not_elem_of_nil].
  - split.
    + intros [[Hx | Hx] _]; [by right | by left].
    + intros [Hx | Hx]; (split; [| apply not_elem_of_nil]);
        [by right | by left].
Qed.

Lemma displayCurrencies_codes (formatAmount : string -> float -> string)
      (totalBase : float) (d : Payload) (code : string) :
  code ∈ map fst (View.displayCurrencies formatAmount totalBase d)
  <-> (code ∈ View.sidebar_codes d /\ code <> EmptyString).
Proof.
  rewrite sidebar_codes_elem_of.
    unfold View.displayCurrencies.
    rewrite display_loop_elem_of.
    pose proof (base_code_nonempty d) as Hb.
    pose proof (find_upper_code (base_code d) (View.totals_currencies d))
      as Hfind.
    unfold upper_code, base_code in Hfind. fold (View.totals_base d) in Hfind.
    assert (Hcur : forall x, x ∈ map upper_code (View.totals_currencies d)
                     <-> (x ∈ map upper_code (currencies d)
                          \/ (currencies d = [] /\ x = base_code d))).
    { intros x. unfold View.totals_currencies.
      destruct (currencies d) as [|c l].
      - simpl. rewrite list_elem_of_singleton. fold (base_code d).
        split; [intros ->; by right |].
        intros [Hx | [_ ->]]; [by apply elem_of_nil in Hx | done].
      - split; [by left |]. intros [Hx | [Hx _]]; [done | discriminate]. }
    destruct (List.find _ (View.totals_currencies d)) as [c|] eqn:Ef.
    + assert (Hin : base_code d ∈ map upper_code (View.totals_currencies d)).
      { apply Hfind. by exists c. }
      rewrite Hcur. rewrite Hcur in Hin. split.
      * intros ([Hx | [_ ->]] & _ & Hne); (split; [| done]);
          [by right | by left].
      * intros [[-> | Hx] Hne]; (split; [| split; [apply not_elem_of_nil | done]]);
          [exact Hin | by left].
    + assert (Hnin : base_code d ∉ map upper_code (View.totals_currencies d)).
      { intros Hin. apply Hfind in Hin. destruct Hin as [c Hc]. congruence. }
      assert (Hne : currencies d <> []).
      { intros Hnil. apply Hnin, Hcur. by right. }
      change (map upper_code (Currency.mk (View.totals_base d) 1
                                :: View.totals_currencies d))
        with (base_code d :: map upper_code (View.totals_currencies d)).
      rewrite elem_of_cons, Hcur. split.
      * intros ([-> | [Hx | [Hx _]]] & _ & Hn); (split; [| done]);
          [by left | by right | done].
      * intros [[-> | Hx] Hn]; (split; [| split; [apply not_elem_of_nil | done]]);
          [by left | right; by left].
Qed.

(** X16.  The currency lists on the screen.  The currency selector of the
    sidebar and the base-currency selector of the totals bar offer the same
    codes in the same order: each upper-cased code of the currency table
    once, and the upper-cased base currency (BDT when none is set), which is
    therefore always offered.  The totals row lists each code once, never an
    empty one, and lists exactly the non-empty codes the selectors offer;
    the base currency is among them, so the row is never empty and the hint
    written for an empty row ("Add a category to see totals.") is never
    shown. *)
Theorem currency_lists_agree (formatAmount : string -> float -> string)
        (totalBase : float) (d : Payload) :
  View.sidebar_codes d = View.base_options d
  /\ NoDup (View.sidebar_codes d)
  /\ base_code d ∈ View.sidebar_codes d
  /\ (forall c, c ∈ currencies d -> upper_code c ∈ View.sidebar_codes d)
  /\ NoDup (map fst (View.displayCurrencies formatAmount totalBase d))
  /\ (forall code,
        code ∈ map fst (View.displayCurrencies formatAmount totalBase d)
        <-> (code ∈ View.sidebar_codes d /\ code <> EmptyString))
  /\ View.displayCurrencies formatAmount totalBase d <> [].
Proof.
  split; [| split; [| split; [| split; [| split; [| split]]]]].
  - unfold View.sidebar_codes, View.base_options, View.totals_currencies,
      View.totals_base.
    destruct (currencies d) as [|c l]; [| reflexivity].
    simpl. unfold View.array_from_set. simpl.
    by rewrite String.eqb_refl.
  - apply unique_from_NoDup.
  - apply sidebar_codes_elem_of. by left.
  - intros c Hc. apply sidebar_codes_elem_of. right.
    by apply list_elem_of_fmap_2.
  - unfold View.displayCurrencies. apply display_loop_NoDup.
  - intros code. apply displayCurrencies_codes.
  - intros Hnil.
    assert (Hin : base_code d
                    ∈ map fst
                        (View.displayCurrencies formatAmount totalBase d)).
    { apply displayCurrencies_codes. split; [| apply base_code_nonempty].
      apply sidebar_codes_elem_of. by left. }
    rewrite Hnil in Hin. by apply elem_of_nil in Hin.
Qed.

(* ================================================================== *)
(** * The five questions *)
(* ================================================================== *)

Section FiveQuestions.
Context `{WebCrypto} `{RandomSource} `{Engine}.
Implicit Types (e : Env) (g : Rng) (a : App) (st : VaultState).
Implicit Types (ev : Event) (key : CryptoKey).

Lemma map_at_length (i : nat) (f : string * string -> string * string)
      (l : list (string * string)) :
  length (SetupScreen.map_at i f l) = length l.
Proof.
  revert i. induction l as [|qa l IH]; intros i; destruct i as [|k]; simpl;
    try reflexivity.
  by rewrite IH.
Qed.

(** Whenever the loop of [handleSetup] completes, it has one hashed
    question per row, under the text of the row. *)
Lemma hashQAs_texts e (l : list (string * string)) :
  forall g hashed g',
    hashQAs e l g = (Some hashed, g') -> map q hashed = map fst l.
Proof.
  induction l as [|qa l IH]; intros g hashed g' Hh.
  - injection Hh as <- _. done.
  - simpl in Hh. unfold bind at 1 in Hh.
    destruct (randBytes e 16 g) as [[salt|] g1]; [| done].
    unfold bind at 1 in Hh.
    destruct (await (hashAnswer e (snd qa) salt) g1) as [[hash|] g2];
      [| done].
    unfold bind at 1 in Hh.
    destruct (await (b64encode e salt) g2) as [[saltB64|] g2'];
      [| done].
    unfold bind at 1 in Hh.
    destruct (hashQAs e l g2') as [[rest|] g3] eqn:Hrest; [| done].
    injection Hh as <- _. simpl. f_equal. by apply (IH g2' rest g3).
Qed.

Lemma buildState_texts e (name password : string)
      (l : list (string * string)) g st g' :
  buildState e name password l g = (Some st, g') ->
  map q (qas (auth st)) = map fst l.
Proof.
  unfold buildState. intros Hb.
  unfold bind at 1 in Hb.
  destruct (randBytes e 16 g) as [[saltPwd|] g1]; [| done].
  unfold bind at 1 in Hb.
  destruct (await (pbkdf2 e password saltPwd 210000 32) g1)
    as [[bits|] g2]; [| done].
  unfold bind at 1 in Hb.
  destruct (randBytes e 16 g2) as [[saltEnc|] g3]; [| done].
  unfold bind at 1 in Hb.
  destruct (await (getAesKeyFromPassword e password saltEnc) g3)
    as [[key|] g4]; [| done].
  unfold bind at 1 in Hb.
  destruct (hashQAs e l g4) as [[hashed|] g5] eqn:Hh; [| done].
  unfold bind at 1 in Hb.
  destruct (encryptJson e initialData key g5) as [[enc0|] g6]; [| done].
  injection Hb as <- _. simpl. by apply (hashQAs_texts e l g4 hashed g5).
Qed.

Lemma complete_rows_have_texts (l : list (string * string)) :
  existsb qa_incomplete l = false ->
  Forall (fun t => t <> EmptyString) (map fst l).
Proof.
  induction l as [|qa l IH]; simpl; intros He; [constructor |].
  apply orb_false_iff in He as [Hqa Hl].
  unfold qa_incomplete in Hqa. apply orb_false_iff in Hqa as [Hq _].
  constructor; [by apply is_empty_false | by apply IH].
Qed.

Lemma form_and_record_frame a a' :
  form_and_record a ->
  length (SetupScreen.qas (setupScreen a')) = 5 ->
  localStorage a' = localStorage a \/ localStorage a' = None ->
  form_and_record a'.
Proof.
  intros [_ Hst] Hrows Hls. split; [exact Hrows |].
  intros st Hs. destruct Hls as [Hls | Hls]; rewrite Hls in Hs;
    [by apply Hst | done].
Qed.

Lemma form_and_record_persist (captured : option CryptoKey) (nd : Payload) a :
  form_and_record a -> form_and_record (fst (persist captured nd a)).
Proof.
  intros Hok.
  destruct (persist_frame captured nd a)
    as (_ & _ & _ & _ & _ & Hs & _ & [Hsame | Hnew]).
  - apply (form_and_record_frame a); [done | | by left].
    rewrite Hs. apply Hok.
  - destruct Hnew as (st0 & key & enc0 & g' & Hst & _ & _ & Hnew & _).
    split; [rewrite Hs; apply Hok |].
    intros st Hst'. rewrite Hnew in Hst'. injection Hst' as <-.
    unfold loadState in Hst. destruct (window_defined (env a)); [| done].
    destruct Hok as [_ Hrec]. exact (Hrec st0 Hst).
Qed.

Lemma form_and_record_update (nd : Payload) a :
  form_and_record a -> form_and_record (update nd a).
Proof.
  intros Hok. unfold update.
  by apply (form_and_record_persist (aesKey a) nd) in Hok.
Qed.

Lemma form_and_record_onUnlock key (d : Payload) a :
  form_and_record a -> form_and_record (onUnlock key d a).
Proof.
  intros Hok. unfold onUnlock. apply form_and_record_persist.
  apply (form_and_record_frame a); [done | reflexivity | by left].
Qed.

Lemma form_and_record_verifyPassword a :
  form_and_record a -> form_and_record (verifyPassword a).
Proof.
  intros Hok. unfold verifyPassword.
  destruct (_ ≫= _) as [[v stored]|]; [| exact Hok].
  destruct (negb _); exact Hok.
Qed.

Lemma form_and_record_verifyQuestions a :
  form_and_record a -> form_and_record (verifyQuestions a).
Proof.
  intros Hok. unfold verifyQuestions.
  destruct (checkAnswers _ _ _) as [[|]|]; try exact Hok.
  destruct (_ ≫= _) as [[key d]|]; [| exact Hok].
  by apply form_and_record_onUnlock.
Qed.

Lemma form_and_record_onReset (ok : bool) a :
  form_and_record a -> form_and_record (onReset ok a).
Proof.
  intros Hok. unfold onReset. destruct ok; [| exact Hok].
  apply (form_and_record_frame a); [done | reflexivity |].
  simpl. unfold clearState. destruct (window_defined (env a)); auto.
Qed.

Lemma form_and_record_mount a :
  form_and_record a -> form_and_record (mount a).
Proof.
  intros Hok. unfold mount. destruct (window_defined (env a)); [| exact Hok].
  destruct (loadState _ _);
    (apply (form_and_record_frame a); [done | reflexivity | by left]).
Qed.

Lemma form_and_record_handleSetup a :
  form_and_record a -> form_and_record (handleSetup a).
Proof.
  intros Hok. unfold handleSetup.
  destruct (_ || _); [exact Hok |].
  destruct (negb _); [exact Hok |].
  destruct (existsb qa_incomplete _) eqn:Hc; [exact Hok |].
  destruct (buildState _ _ _ _ _) as [[state|] g'] eqn:Hb; [| exact Hok].
  split; [reflexivity |]. simpl. unfold saveState.
  destruct (window_defined (env a)); [| apply Hok].
  intros st Hst. injection Hst as <-.
  apply buildState_texts in Hb. apply complete_rows_have_texts in Hc.
  simpl in Hb, Hc. destruct Hok as [Hrows _]. split.
  - rewrite <- (length_map q), Hb, length_map. exact Hrows.
  - rewrite <- Hb in Hc.
    by apply (Forall_map q (fun t => t <> EmptyString)) in Hc.
Qed.

Lemma form_and_record_step a ev :
  form_and_record a -> form_and_record (step a ev).
Proof.
  intros Hok.
  unfold step, login_step, onAddCategory, onAddEntry, onDeleteCategory,
    onAddCurrency, onSetBaseCurrency, onRemoveCurrency, onDeleteEntry,
    onDeleteHistoryItem, onLogout.
  destruct (boot a); destruct ev; try exact Hok;
    repeat match goal with
      | |- form_and_record (match ?x with _ => _ end) => destruct x
      end;
    try exact Hok;
    try (by apply form_and_record_update);
    try (by apply form_and_record_mount);
    try (by apply form_and_record_handleSetup);
    try (by apply form_and_record_verifyPassword);
    try (by apply form_and_record_verifyQuestions);
    try (by apply form_and_record_onReset).
  - split; [| apply Hok]. simpl. rewrite map_at_length. apply Hok.
  - apply (form_and_record_frame a); [done | reflexivity | by left].
Qed.

(** X17.  Five questions, always.  The session starts with whatever the
    browser has stored; if that is nothing, or a record with five
    questions that each have a text, then after any sequence of events the
    setup form still has five rows and the stored record, if there is one,
    still has five questions that each have a text: editing a row keeps the
    number of rows, setup stores one hashed question per row and only when
    every row has a text, and nothing else writes the questions. *)
Theorem five_questions_always (evs : list Event) e g (ls : Storage) :
  (forall st, ls = Some st -> five_questions st) ->
  length (SetupScreen.qas (setupScreen (run evs (start e g ls)))) = 5
  /\ forall st,
       localStorage (run evs (start e g ls)) = Some st -> five_questions st.
Proof.
  intros Hls.
  assert (Hstart : form_and_record (start e g ls)) by (split; [done | exact Hls]).
  revert Hstart. generalize (start e g ls).
  induction evs as [|ev evs IH]; intros a Hok; [exact Hok |].
  rewrite run_cons. by apply IH, form_and_record_step.
Qed.

End FiveQuestions.

Lemma five_questions_always_witness :
  (forall st, Some Scenario.stored = Some st -> five_questions st)
  /\ length
       (SetupScreen.qas
          (setupScreen
             (run [Mount; LoginPassword "pw"; Reset true;
                   SetupUpdateQA 7 SetupScreen.field_q "Sixth?";
                   SetupUpdateQA 0 SetupScreen.field_q EmptyString]
                (@start Sim_random Sim.browser 0%N (Some Scenario.stored)))))
     = 5.
Proof.
  assert (Hst : forall st, Some Scenario.stored = Some st -> five_questions st).
  { intros st [= <-]. split; [reflexivity |].
    repeat constructor; discriminate. }
  split; [exact Hst |].
  exact (proj1 (@five_questions_always Sim_crypto Sim_random Sim_engine
                  [Mount; LoginPassword "pw"; Reset true;
                   SetupUpdateQA 7 SetupScreen.field_q "Sixth?";
                   SetupUpdateQA 0 SetupScreen.field_q EmptyString]
                  Sim.browser 0%N (Some Scenario.stored) Hst)).
Defined.

(* ================================================================== *)
(** * Entries and their history records *)
(* ================================================================== *)

Section Entries.
Context `{WebCrypto} `{RandomSource} `{Engine}.
Implicit Types (a : App).

Lemma data_update (nd : Payload) a : data (update nd a) = nd.
Proof. apply update_frame. Qed.

Lemma find_fresh_entry (entry : Entry.t) (l : list Entry.t) :
  Forall (fun x => Entry.id x <> Entry.id entry) l ->
  List.find (is_entry (Entry.id entry)) (l ++ [entry]) = Some entry
  /\ List.filter (fun x => negb (is_entry (Entry.id entry) x)) (l ++ [entry])
     = l
  /\ List.find (is_entry (Entry.id entry)) l = None
  /\ List.filter (fun x => negb (is_entry (Entry.id entry) x)) l = l.
Proof.
  unfold is_entry. induction 1 as [|x l Hx Hl IH]; simpl.
  - by rewrite String.eqb_refl.
  - apply String.eqb_neq in Hx. rewrite Hx. simpl.
    destruct IH as (-> & -> & -> & ->). done.
Qed.

Lemma filter_fresh_record (id : string) (r : HistoryItem.t)
      (l : list HistoryItem.t) :
  HistoryItem.id r = id ->
  Forall (fun h => HistoryItem.id h <> id) l ->
  List.filter (fun h => negb (String.eqb (HistoryItem.id h) id)) (l ++ [r])
  = l.
Proof.
  intros Hr. induction 1 as [|h l Hh Hl IH]; simpl.
  - by rewrite Hr, String.eqb_refl.
  - apply String.eqb_neq in Hh. rewrite Hh. simpl. by rewrite IH.
Qed.

(** X18.  An entry added and deleted again.  When no entry has the id of
    the new one, deleting by that id after adding gives back the entries,
    categories and currencies as they were, and the history has grown by
    two records, "entry:add" and "entry:delete", both carrying the entry.
    A second deletion by the same id changes no entry and appends one more
    "entry:delete" record, which carries no entry. *)
Theorem entry_added_then_deleted (entry : Entry.t)
        (id1 ts1 id2 ts2 id3 ts3 : string) a :
  Forall (fun x => Entry.id x <> Entry.id entry) (entries (data a)) ->
  let added := onAddEntry entry id1 ts1 a in
  let deleted := onDeleteEntry (Entry.id entry) id2 ts2 added in
  let again := onDeleteEntry (Entry.id entry) id3 ts3 deleted in
  data deleted
  = with_history
      (history (data a)
         ++ [HistoryItem.mk id1 ts1 "entry:add" (Some entry) None None;
             HistoryItem.mk id2 ts2 "entry:delete" (Some entry) None None])
      (data a)
  /\ data again
     = with_history
         (history (data deleted)
            ++ [HistoryItem.mk id3 ts3 "entry:delete" None None None])
         (data deleted)
  /\ entries (data again) = entries (data a).
Proof.
  intros Hfresh added deleted again.
  destruct (find_fresh_entry entry (entries (data a)) Hfresh)
    as (Hfind & Hfilter & Hfind' & Hfilter').
  assert (Hadded : data added
                   = with_history
                       (history (data a)
                          ++ [HistoryItem.mk id1 ts1 "entry:add" (Some entry)
                                None None])
                       (with_entries (entries (data a) ++ [entry]) (data a))).
  { apply data_update. }
  assert (Hdeleted : data deleted
            = with_history
                (history (data a)
                   ++ [HistoryItem.mk id1 ts1 "entry:add" (Some entry) None None;
                       HistoryItem.mk id2 ts2 "entry:delete" (Some entry)
                         None None])
                (data a)).
  { unfold deleted, onDeleteEntry. rewrite data_update, Hadded. simpl.
    rewrite Hfind, Hfilter, <- app_assoc. simpl.
    by destruct (data a). }
  assert (Hagain : data again
            = with_history
                (history (data deleted)
                   ++ [HistoryItem.mk id3 ts3 "entry:delete" None None None])
                (data deleted)).
  { unfold again, onDeleteEntry. rewrite data_update, Hdeleted. simpl.
    rewrite Hfind', Hfilter'. reflexivity. }
  split; [exact Hdeleted |]. split; [exact Hagain |].
  rewrite Hagain, Hdeleted. reflexivity.
Qed.

(** X19.  Removing a log record does not undo the change it records.
    When no history record has the id given to the record of a new entry,
    removing that record by its id after adding the entry leaves the
    history as it was before, while the entry stays among the entries.
    In general [onDeleteHistoryItem] keeps categories, entries, currencies
    and base currency, keeps the records with another id in their order,
    and appends no record of its own. *)
Theorem log_removed_entry_kept (entry : Entry.t) (id ts : string) a :
  Forall (fun h => HistoryItem.id h <> id) (history (data a)) ->
  data (onDeleteHistoryItem id (onAddEntry entry id ts a))
  = with_entries (entries (data a) ++ [entry]) (data a)
  /\ forall historyId,
       let d := data (onDeleteHistoryItem historyId a) in
       categories d = categories (data a)
       /\ entries d = entries (data a)
       /\ currencies d = currencies (data a)
       /\ baseCurrency d = baseCurrency (data a)
       /\ history d
          = List.filter
              (fun h => negb (String.eqb (HistoryItem.id h) historyId))
              (history (data a))
       /\ Forall (fun h => HistoryItem.id h <> historyId) (history d)
       /\ length (history d) <= length (history (data a)).
Proof.
  intros Hfresh. split.
  - unfold onDeleteHistoryItem, onAddEntry. rewrite !data_update. simpl.
    rewrite (filter_fresh_record id); [| reflexivity | exact Hfresh].
    by destruct (data a).
  - intros historyId d. unfold d, onDeleteHistoryItem.
    rewrite data_update. simpl.
    repeat (split; [reflexivity |]). split.
    + apply List.Forall_forall. intros h Hin.
      apply List.filter_In in Hin as [_ Hh].
      apply negb_true_iff in Hh. by apply String.eqb_neq.
    + apply List.filter_length_le.
Qed.

End Entries.

Lemma entry_added_then_deleted_witness :
  Forall (fun x => Entry.id x <> "e2") (entries (data Scenario.with_entry))
  /\ entries
       (data
          (onDeleteEntry "e2" "h4" "t4"
             (onDeleteEntry "e2" "h3" "t3"
                (onAddEntry
                   (Entry.mk "e2" "c1" 70 "2024-02-01T00:00:00.000Z")
                   "h2" "t2" Scenario.with_entry))))
     = entries (data Scenario.with_entry).
Proof.
  assert (Hfresh : Forall (fun x => Entry.id x <> "e2")
                     (entries (data Scenario.with_entry))).
  { repeat constructor; discriminate. }
  split; [exact Hfresh |].
  exact (proj2 (proj2
    (@entry_added_then_deleted Sim_crypto Sim_random Sim_engine
       (Entry.mk "e2" "c1" 70 "2024-02-01T00:00:00.000Z")
       "h2" "t2" "h3" "t3" "h4" "t4" Scenario.with_entry Hfresh))).
Defined.

Lemma log_removed_entry_kept_witness :
  Forall (fun h => HistoryItem.id h <> "h2")
    (history (data Scenario.with_entry))
  /\ data
       (onDeleteHistoryItem "h2"
          (onAddEntry (Entry.mk "e2" "c1" 70 "2024-02-01T00:00:00.000Z")
             "h2" "t2" Scenario.with_entry))
     = with_entries
         (entries (data Scenario.with_entry)
            ++ [Entry.mk "e2" "c1" 70 "2024-02-01T00:00:00.000Z"])
         (data Scenario.with_entry).
Proof.
  assert (Hfresh : Forall (fun h => HistoryItem.id h <> "h2")
                     (history (data Scenario.with_entry))).
  { repeat constructor; discriminate. }
  split; [exact Hfresh |].
  exact (proj1
    (@log_removed_entry_kept Sim_crypto Sim_random Sim_engine
       (Entry.mk "e2" "c1" 70 "2024-02-01T00:00:00.000Z")
       "h2" "t2" Scenario.with_entry Hfresh)).
Defined.

(* ================================================================== *)
(** * Entries and their categories *)
(* ================================================================== *)

Section Integrity.
Context `{WebCrypto} `{RandomSource} `{Engine}.
Implicit Types (a : App) (ev : Event) (d : Payload).

Lemma entries_have_categories_mono d d' :
  entries_have_categories d ->
  (forall x, In x (entries d') -> In x (entries d)) ->
  (forall x c, In x (entries d') -> In c (categories d) ->
               Category.id c = Entry.categoryId x -> In c (categories d')) ->
  entries_have_categories d'.
Proof.
  unfold entries_have_categories. rewrite !List.Forall_forall.
  intros Hd Hsub Hcat x Hx.
  destruct (Hd x (Hsub x Hx)) as (c & Hc & Hid).
  exists c. split; [by apply (Hcat x) | exact Hid].
Qed.

(** X20.  Entries and categories.  In the unlocked app every event keeps
    the property that each entry names an existing category, provided an
    added entry names one: deleting a category removes its entries with it,
    and logging out empties the payload.  [onAddEntry] itself does not
    look the category up: an entry naming no category is stored as it is,
    and the property is lost. *)
Theorem entries_keep_their_categories a ev :
  boot a = app ->
  entries_have_categories (data a) ->
  (forall entry id ts,
      ev = AddEntry entry id ts ->
      category_exists (Entry.categoryId entry) (data a)) ->
  entries_have_categories (data (step a ev))
  /\ forall entry id ts,
       ~ category_exists (Entry.categoryId entry) (data a) ->
       In entry (entries (data (onAddEntry entry id ts a)))
       /\ ~ entries_have_categories (data (onAddEntry entry id ts a)).
Proof.
  intros Hb Hok Hadd. split.
  - unfold step. rewrite Hb.
    destruct ev; try exact Hok;
      unfold onAddCategory, onAddEntry, onDeleteCategory, onAddCurrency,
        onSetBaseCurrency, onRemoveCurrency, onDeleteEntry,
        onDeleteHistoryItem, onLogout, onReset;
      repeat match goal with
        | |- entries_have_categories (data (match ?x with _ => _ end)) =>
            destruct x eqn:?
        end;
      try exact Hok; rewrite ?data_update;
      try (apply (entries_have_categories_mono (data a)); simpl;
           [exact Hok | tauto | tauto]).
    + (* a new category *)
      apply (entries_have_categories_mono (data a)); simpl;
        [exact Hok | tauto |].
      intros x c _ Hc _. apply in_or_app. by left.
    + (* a new entry *)
      unfold entries_have_categories. simpl. apply Forall_app. split.
      * exact Hok.
      * constructor; [| constructor]. exact (Hadd entry id ts eq_refl).
    + (* a category deleted *)
      apply (entries_have_categories_mono (data a)); simpl; [exact Hok | |].
      * intros x Hx. by apply List.filter_In in Hx as [Hx _].
      * intros x c Hx Hc Hid. apply List.filter_In in Hx as [_ Hx].
        apply List.filter_In. split; [exact Hc |].
        unfold is_category, in_category in *. by rewrite Hid.
    + (* an entry deleted *)
      apply (entries_have_categories_mono (data a)); simpl;
        [exact Hok | | tauto].
      intros x Hx. by apply List.filter_In in Hx as [Hx _].
  - intros entry id ts Hnone. unfold onAddEntry. rewrite data_update. simpl.
    split; [apply in_or_app; right; by left |].
    unfold entries_have_categories. simpl. rewrite Forall_app.
    intros [_ Hlast]. inversion_clear Hlast as [|? ? Hc _].
    by apply Hnone.
Qed.

End Integrity.

Lemma entries_keep_their_categories_witness :
  boot Scenario.with_entry = app
  /\ entries_have_categories (data Scenario.with_entry)
  /\ entries_have_categories
       (data (step Scenario.with_entry (DeleteCategory "c1" true "h9" "t9")))
  /\ ~ entries_have_categories
         (data (onAddEntry (Entry.mk "e3" "c7" 5 "2024-03-01T00:00:00.000Z")
                  "h8" "t8" Scenario.with_entry)).
Proof.
  assert (Hok : entries_have_categories (data Scenario.with_entry)).
  { constructor; [| constructor].
    exists Scenario.cash. split; [left |]; reflexivity. }
  assert (Hadd : forall entry id ts,
             DeleteCategory "c1" true "h9" "t9" = AddEntry entry id ts ->
             category_exists (Entry.categoryId entry)
               (data Scenario.with_entry)).
  { intros entry id ts Hev. discriminate Hev. }
  destruct (@entries_keep_their_categories Sim_crypto Sim_random Sim_engine
              Scenario.with_entry (DeleteCategory "c1" true "h9" "t9")
              eq_refl Hok Hadd) as [Hkept Hlost].
  split; [reflexivity |]. split; [exact Hok |]. split; [exact Hkept |].
  apply Hlost. intros (c & [<- | []] & Hid). discriminate Hid.
Defined.
